(** * A tabular TD(0) agent for tic-tac-toe: [examples/td_agent.py]

    Shallow embedding of the value tables, the agent, the training and
    benchmark loops and the model file of [td_agent.py], and the
    properties of them that the specification states.

    Conventions of the embedding.
    - The two process-wide dictionaries [st_values] and [st_visits] are a
      record of two finite maps that every function takes and returns.
    - The code is dynamically typed in its numbers (Python [int]s for the
      rewards and the default value, [float]s from the command line): the
      arithmetic it uses is the interface [Number], with an exact instance
      (rationals) and the binary64 instance (Rocq's primitive floats).
    - The environment module [gym_tictactoe.env], the random generator,
      [json] and the baseline agent are collaborators of the file: each
      is an interface (a class), and a concrete tic-tac-toe environment
      instantiates them where a statement is evaluated.
    - The model file is text, a list of characters; [eval] is modelled on
      the fragment of Python expressions that the file holds, and a call
      outside the fragment has the outcome [Unmodelled].
    - A Python exception is a value of [result]. *)

From Stdlib Require Import ZArith QArith Qabs Lqa Qpower String Ascii List.
From Stdlib Require Import DecimalString DecimalZ DecimalPos.
From Stdlib Require Import Floats Sorted.
From stdpp Require Import gmap strings list fin_maps.

(** ** Numbers *)

(** The operations of Python numbers that the file uses: literals,
    [+], [-], [*], [/], [==] and [<]. *)
Class Number (V : Type) := {
  num_of_Z : Z -> V;
  num_add : V -> V -> V;
  num_sub : V -> V -> V;
  num_mul : V -> V -> V;
  num_div : V -> V -> V;
  num_eqb : V -> V -> bool;
  num_ltb : V -> V -> bool
}.

(** What the order-dependent statements need of [==] and [<]; it holds of
    exact numbers and of floats that are not NaN. *)
Class NumberOrder (V : Type) `{Number V} := {
  num_eqb_refl : forall x, num_eqb x x = true;
  num_ltb_irrefl : forall x, num_ltb x x = false;
  num_ltb_trans : forall x y z,
    num_ltb x y = true -> num_ltb y z = true -> num_ltb x z = true;
  num_eqb_ltb_l : forall x y z,
    num_eqb x y = true -> num_ltb x z = num_ltb y z;
  num_eqb_ltb_r : forall x y z,
    num_eqb x y = true -> num_ltb z x = num_ltb z y
}.

(** Exact arithmetic: Python [int] and [fractions.Fraction] values. *)
#[export] Instance Q_Number : Number Q := {
  num_of_Z := inject_Z;
  num_add := Qplus;
  num_sub := Qminus;
  num_mul := Qmult;
  num_div := Qdiv;
  num_eqb := Qeq_bool;
  num_ltb := fun x y => negb (Qle_bool y x)
}.

(** Binary64 arithmetic: Python [float] values. *)
Definition float_of_Z (z : Z) : float :=
  match z with
  | Z0 => PrimFloat.zero
  | Zpos _ => PrimFloat.of_uint63 (Uint63.of_Z z)
  | Zneg p => PrimFloat.opp (PrimFloat.of_uint63 (Uint63.of_Z (Zpos p)))
  end.

Definition float_Number : Number float := {|
  num_of_Z := float_of_Z;
  num_add := PrimFloat.add;
  num_sub := PrimFloat.sub;
  num_mul := PrimFloat.mul;
  num_div := PrimFloat.div;
  num_eqb := PrimFloat.eqb;
  num_ltb := PrimFloat.ltb
|}.

(** ** Exceptions *)

Inductive exn : Type :=
  | AssertionError
  | IndexError
  | ValueError
  | SyntaxError
  | AttributeError
  | UnicodeDecodeError.

Inductive result (A : Type) : Type :=
  | Ok (a : A)
  | Raise (e : exn).
Arguments Ok {A} a.
Arguments Raise {A} e.

(** ** States and the value tables *)

(** A mark is the string ['O'] or ['X']. *)
Inductive Mark : Type := MarkO | MarkX.

#[export] Instance Mark_eq_dec : EqDecision Mark.
Proof. solve_decision. Defined.

#[export] Instance Mark_countable : Countable Mark.
Proof.
  refine (inj_countable' (fun m => match m with MarkO => true | MarkX => false end)
                         (fun b => if b then MarkO else MarkX) _).
  by intros [].
Defined.

(** A state is the tuple [(board, mark)]; a board is a tuple of cell
    codes; an action is the index of a cell. *)
Definition Board : Type := list Z.
Definition State : Type := (Board * Mark)%type.
Definition Action : Type := Z.

(** [st_values = {}] and [st_visits = defaultdict(lambda: 0)]. *)
Record Store (V : Type) : Type := mkStore {
  st_values : gmap State V;
  st_visits : gmap State Z
}.
Arguments mkStore {V} _ _.
Arguments st_values {V} _.
Arguments st_visits {V} _.

Definition empty_store {V : Type} : Store V := mkStore ∅ ∅.

(** Reading [st_visits[state]]: a [defaultdict] answers 0 for a missing
    key, and stores that 0 under the key. *)
Definition visits_of {V : Type} (state : State) (s : Store V) : Z :=
  default 0%Z (st_visits s !! state).

Definition visits_read {V : Type} (state : State) (s : Store V) : Z * Store V :=
  match st_visits s !! state with
  | Some n => (n, s)
  | None => (0%Z, mkStore (st_values s) (<[state := 0%Z]> (st_visits s)))
  end.

(** [set_state_value(state, value)] *)
Definition set_state_value {V : Type} (state : State) (value : V) (s : Store V)
  : Store V :=
  let visits' := <[state := (visits_of state s + 1)%Z]> (st_visits s) in
  mkStore (<[state := value]> (st_values s)) visits'.

(** Both tables are only written together, so in every store the program
    reaches they have the same keys. *)
Definition store_wf {V : Type} (s : Store V) : Prop :=
  forall state, st_values s !! state = None -> st_visits s !! state = None.

(** ** The agent *)

Definition DEFAULT_VALUE : Z := 0.

(** [TDAgent.__init__]: the fields of an agent. *)
Record TDAgent (V : Type) : Type := mkTDAgent {
  mark : Mark;
  epsilon : V;
  alpha : V;
  episode_rate : V
}.
Arguments mkTDAgent {V} _ _ _ _.
Arguments mark {V} _.
Arguments epsilon {V} _.
Arguments alpha {V} _.
Arguments episode_rate {V} _.

Definition new_agent {V : Type} `{Number V} (m : Mark) (eps al : V) : TDAgent V :=
  mkTDAgent m eps al (num_of_Z 1).

Definition set_episode_rate {V : Type} (r : V) (a : TDAgent V) : TDAgent V :=
  mkTDAgent (mark a) (epsilon a) (alpha a) r.

(** The built-ins [max] and [min] on a list: the first item is kept until
    a later one compares greater (smaller); [ValueError] on no item. *)
Definition py_max {V : Type} `{Number V} (values : list V) : result V :=
  match values with
  | [] => Raise ValueError
  | v :: rest =>
      Ok (fold_left (fun best item => if num_ltb best item then item else best) rest v)
  end.

Definition py_min {V : Type} `{Number V} (values : list V) : result V :=
  match values with
  | [] => Raise ValueError
  | v :: rest =>
      Ok (fold_left (fun best item => if num_ltb item best then item else best) rest v)
  end.

(** [[i for i, v in enumerate(values) if v == best]] *)
Fixpoint indices_of {V : Type} `{Number V} (best : V) (i : nat) (values : list V)
  : list nat :=
  match values with
  | [] => []
  | v :: rest =>
      if num_eqb v best then i :: indices_of best (S i) rest
      else indices_of best (S i) rest
  end.

(** [best_val_indices(values, fn)] *)
Definition best_val_indices {V : Type} `{Number V}
    (values : list V) (fn : list V -> result V) : result (list nat) :=
  match fn values with
  | Raise e => Raise e
  | Ok best => Ok (indices_of best 0 values)
  end.

(** The names the file imports from [gym_tictactoe.env] and calls in the
    agent. *)
Class GameEnv : Type := {
  check_game_status : Board -> Z;
  after_action_state : State -> Action -> State;
  O_REWARD : Z;
  X_REWARD : Z
}.

(** The module [random]: a generator state, [random.random()] and the
    index draw behind [random.choice]. *)
Class Random (V : Type) : Type := {
  Rng : Type;
  rng_random : Rng -> V * Rng;
  rng_randbelow : nat -> Rng -> nat * Rng
}.

(** [random.choice] indexes the sequence, so the draw is below the length. *)
Class RandomOk (V : Type) `{Random V} : Prop :=
  rng_randbelow_lt : forall n g, (0 < n)%nat -> (fst (rng_randbelow n g) < n)%nat.

Section Agent.
Context {V : Type} `{Number V} `{GameEnv} `{Random V}.

(** [random.choice(seq)]: [IndexError] on an empty sequence. *)
Definition random_choice {A : Type} (seq : list A) (g : Rng) : result A * Rng :=
  match seq with
  | [] => (Raise IndexError, g)
  | _ =>
      let '(i, g') := rng_randbelow (length seq) g in
      match seq !! i with
      | Some x => (Ok x, g')
      | None => (Raise IndexError, g')
      end
  end.

(** [TDAgent.ask_value] *)
Definition ask_value (self : TDAgent V) (state : State) (s : Store V)
  : V * Store V :=
  match st_values s !! state with
  | Some v => (v, s)
  | None =>
      let gstatus := check_game_status (fst state) in
      let val :=
        if (0 <? gstatus)%Z
        then match mark self with MarkO => O_REWARD | MarkX => X_REWARD end
        else DEFAULT_VALUE in
      let s' := set_state_value state (num_of_Z val) s in
      (num_of_Z val, s')
  end.

(** The value that [ask_value] gives a state it meets for the first
    time, and the value it answers for any state. *)
Definition init_value (self : TDAgent V) (state : State) : V :=
  num_of_Z (if (0 <? check_game_status (fst state))%Z
            then match mark self with MarkO => O_REWARD | MarkX => X_REWARD end
            else DEFAULT_VALUE).

Definition value_or_init (self : TDAgent V) (state : State) (s : Store V) : V :=
  match st_values s !! state with
  | Some v => v
  | None => init_value self state
  end.

(** [TDAgent.backup]; the reward is an argument that the body only logs. *)
Definition backup (self : TDAgent V) (state nstate : State) (reward : V)
    (s : Store V) : Store V :=
  let '(val, s1) := ask_value self state s in
  let '(nval, s2) := ask_value self nstate s1 in
  let diff := num_sub nval val in
  let val2 := num_add val (num_mul (alpha self) diff) in
  set_state_value state val2 s2.

(** The loop of [greedy_action] that fills [ava_values]. *)
Fixpoint ask_values (self : TDAgent V) (state : State)
    (ava_actions : list Action) (s : Store V) : list V * Store V :=
  match ava_actions with
  | [] => ([], s)
  | action :: rest =>
      let nstate := after_action_state state action in
      let '(nval, s1) := ask_value self nstate s in
      let '(_, s2) := visits_read nstate s1 in
      let '(vals, s3) := ask_values self state rest s2 in
      (nval :: vals, s3)
  end.

(** [TDAgent.greedy_action] *)
Definition greedy_action (self : TDAgent V) (state : State)
    (ava_actions : list Action) (s : Store V) (g : Rng)
  : result Action * Store V * Rng :=
  if (0 <? length ava_actions)%nat then
    let '(ava_values, s') := ask_values self state ava_actions s in
    let indices :=
      match mark self with
      | MarkO => best_val_indices ava_values py_max
      | MarkX => best_val_indices ava_values py_min
      end in
    match indices with
    | Raise e => (Raise e, s', g)
    | Ok indices =>
        match random_choice indices g with
        | (Raise e, g') => (Raise e, s', g')
        | (Ok aidx, g') =>
            match ava_actions !! aidx with
            | Some action => (Ok action, s', g')
            | None => (Raise IndexError, s', g')
            end
        end
    end
  else (Raise AssertionError, s, g).

(** [TDAgent.random_action] *)
Definition random_action (ava_actions : list Action) (g : Rng)
  : result Action * Rng :=
  random_choice ava_actions g.

(** [TDAgent.egreedy_policy] *)
Definition egreedy_policy (self : TDAgent V) (state : State)
    (ava_actions : list Action) (s : Store V) (g : Rng)
  : result Action * Store V * Rng :=
  let '(e, g1) := rng_random g in
  if num_ltb e (num_mul (epsilon self) (episode_rate self)) then
    let '(r, g2) := random_action ava_actions g1 in (r, s, g2)
  else greedy_action self state ava_actions s g1.

(** [TDAgent.act] *)
Definition act (self : TDAgent V) (state : State)
    (ava_actions : list Action) (s : Store V) (g : Rng)
  : result Action * Store V * Rng :=
  egreedy_policy self state ava_actions s g.

End Agent.

(** ** The environment's helpers on marks and agents *)

(** Modelled from the spec: [next_mark] of [gym_tictactoe.env], which is
    not among the sources; "simple round-robin rotation between the two
    marks". *)
Definition next_mark (m : Mark) : Mark :=
  match m with MarkO => MarkX | MarkX => MarkO end.

(** Modelled from the spec: [agent_by_mark] of [gym_tictactoe.env], which
    is not among the sources; "the acting agent" of a turn is the agent of
    the list that plays the mark to move. No such agent is [None]. *)
Definition agent_by_mark {A : Type} (mark_of : A -> Mark) (agents : list A)
    (m : Mark) : option A :=
  List.find (fun a => bool_decide (mark_of a = m)) agents.

(** ** The training loop *)

(** The environment object [TicTacToeEnv()] and the methods the loops
    call; [step] answers [(nstate, reward, done)]. *)
Class EnvObject (V : Type) : Type := {
  Env : Type;
  env_set_start_mark : Mark -> Env -> Env;
  env_reset : Env -> State * Env;
  env_available_actions : Env -> list Action;
  env_step : Action -> Env -> (State * V * bool) * Env
}.

(** [BaseAgent.act] of [examples/base_agent.py], for a baseline agent of
    the given mark. *)
Class BaseAgent (V : Type) `{Random V} : Type :=
  base_act : Mark -> State -> list Action -> Rng -> result Action * Rng.

Section Training.
Context {V : Type} `{Number V} `{GameEnv} `{Random V} `{EnvObject V}.
Context `{!BaseAgent V}.

(** What a run mutates: the two tables, the generator, the environment. *)
Record World : Type := mkWorld {
  w_store : Store V;
  w_rng : Rng;
  w_env : Env
}.

(** One pass through the body of [while not done] in [_learn]; the
    answer is [(nstate, reward, done)]. *)
Definition learn_turn (agents : list (TDAgent V)) (state : State) (m : Mark)
    (w : World) : result (State * V * bool) * World :=
  match agent_by_mark mark agents m with
  | None => (Raise AttributeError, w)
  | Some agent =>
      let ava_actions := env_available_actions (w_env w) in
      match act agent state ava_actions (w_store w) (w_rng w) with
      | (Raise e, s1, g1) => (Raise e, mkWorld s1 g1 (w_env w))
      | (Ok action, s1, g1) =>
          let '((nstate, reward, done), env1) := env_step action (w_env w) in
          let s2 := backup agent state nstate reward s1 in
          let s3 := if done then set_state_value state reward s2 else s2 in
          (Ok (nstate, reward, done), mkWorld s3 g1 env1)
      end
  end.

(** The [while not done] loop, at most [fuel] turns: the terminal state
    and the last reward when it ends, [None] when the turns run out. *)
Fixpoint learn_loop (fuel : nat) (agents : list (TDAgent V)) (state : State)
    (m : Mark) (w : World) : option (result (State * V) * World) :=
  match fuel with
  | O => None
  | S fuel' =>
      match learn_turn agents state m w with
      | (Raise e, w1) => Some (Raise e, w1)
      | (Ok (nstate, reward, done), w1) =>
          if (done : bool) then Some (Ok (nstate, reward), w1)
          else learn_loop fuel' agents nstate (snd nstate) w1
      end
  end.

(** The body of [for i in tqdm(range(max_episode))] for one [i]. *)
Definition learn_episode (fuel : nat) (max_episode : Z) (i : Z)
    (agents : list (TDAgent V)) (start_mark : Mark) (w : World)
  : option (result (State * V) * list (TDAgent V) * World) :=
  let episode := (i + 1)%Z in
  let rate := num_div (num_of_Z episode) (num_of_Z max_episode) in
  let agents1 := List.map (set_episode_rate rate) agents in
  let env1 := env_set_start_mark start_mark (w_env w) in
  let '(state, env2) := env_reset env1 in
  let m := snd state in
  match learn_loop fuel agents1 state m (mkWorld (w_store w) (w_rng w) env2) with
  | None => None
  | Some (r, w1) => Some (r, agents1, w1)
  end.

(** The episodes [i, i+1, ...] of the [for] loop, [n] of them. *)
Fixpoint learn_episodes (fuel : nat) (max_episode : Z) (n : nat) (i : Z)
    (agents : list (TDAgent V)) (start_mark : Mark) (w : World)
  : option (result unit * World) :=
  match n with
  | O => Some (Ok tt, w)
  | S n' =>
      match learn_episode fuel max_episode i agents start_mark w with
      | None => None
      | Some (Raise e, _, w1) => Some (Raise e, w1)
      | Some (Ok _, agents1, w1) =>
          learn_episodes fuel max_episode n' (i + 1)%Z agents1
                         (next_mark start_mark) w1
      end
  end.

(** [_learn] up to the call of [save_model]. *)
Definition learn_run (fuel : nat) (max_episode : Z) (eps al : V) (w : World)
  : option (result unit * World) :=
  let agents := [new_agent MarkO eps al; new_agent MarkX eps al] in
  learn_episodes fuel max_episode (Z.to_nat max_episode) 0%Z agents MarkO w.

(** ** The benchmark loop *)

(** The two kinds of agent that [_bench] puts in one list. *)
Inductive Agent : Type :=
  | ABase (m : Mark)
  | ATD (a : TDAgent V).

Definition agent_mark (a : Agent) : Mark :=
  match a with ABase m => m | ATD a => mark a end.

Definition agent_act (a : Agent) (state : State) (ava_actions : list Action)
    (s : Store V) (g : Rng) : result Action * Store V * Rng :=
  match a with
  | ABase m => let '(r, g1) := base_act m state ava_actions g in (r, s, g1)
  | ATD a => act a state ava_actions s g
  end.

(** The [while not done] loop of [_bench]: the reward appended to
    [results] when the episode ends. *)
Fixpoint bench_loop (fuel : nat) (agents : list Agent) (state : State)
    (m : Mark) (w : World) : option (result V * World) :=
  match fuel with
  | O => None
  | S fuel' =>
      match agent_by_mark agent_mark agents m with
      | None => Some (Raise AttributeError, w)
      | Some agent =>
          let ava_actions := env_available_actions (w_env w) in
          match agent_act agent state ava_actions (w_store w) (w_rng w) with
          | (Raise e, s1, g1) => Some (Raise e, mkWorld s1 g1 (w_env w))
          | (Ok action, s1, g1) =>
              let '((state1, reward, done), env1) := env_step action (w_env w) in
              let w1 := mkWorld s1 g1 env1 in
              if (done : bool) then Some (Ok reward, w1)
              else bench_loop fuel' agents state1 (snd state1) w1
          end
      end
  end.

(** The [for i in tqdm(range(max_episode))] loop of [_bench]: the list
    [results] after [n] more episodes. *)
Fixpoint bench_episodes (fuel : nat) (n : nat) (agents : list Agent)
    (start_mark : Mark) (results : list V) (w : World)
  : option (result (list V) * World) :=
  match n with
  | O => Some (Ok results, w)
  | S n' =>
      let env1 := env_set_start_mark start_mark (w_env w) in
      let '(state, env2) := env_reset env1 in
      match bench_loop fuel agents state (snd state)
                       (mkWorld (w_store w) (w_rng w) env2) with
      | None => None
      | Some (Raise e, w1) => Some (Raise e, w1)
      | Some (Ok reward, w1) =>
          bench_episodes fuel n' agents (next_mark start_mark)
                         (results ++ [reward]) w1
      end
  end.

End Training.

(** [results.count(x)] *)
Definition py_count {V : Type} `{Number V} (x : V) (results : list V) : Z :=
  Z.of_nat (length (List.filter (fun r => num_eqb r x) results)).

(** The counts that [_bench] adds to the model info. *)
Record Tally : Type := mkTally {
  base_win : Z;
  td_win : Z;
  draw : Z
}.

(** The tally at the end of [_bench]. *)
Definition bench_tally {V : Type} `{Number V} (results : list V) : Tally :=
  let o_win := py_count (num_of_Z 1) results in
  let x_win := py_count (num_of_Z (-1)) results in
  let draw := (Z.of_nat (length results) - o_win - x_win)%Z in
  mkTally o_win x_win draw.

(** ** Text *)

(** The content of a file, a line, a field: a sequence of characters. *)
Definition text : Type := list ascii.

Definition tab : ascii := "009"%char.
Definition newline : ascii := "010"%char.
Definition lit (s : string) : text := list_ascii_of_string s.

(** [str(n)] for an [int]. *)
Definition str_Z (z : Z) : text :=
  lit (NilZero.string_of_int (Z.to_int z)).

(** [sep.join(pieces)] *)
Fixpoint join (sep : text) (pieces : list text) : text :=
  match pieces with
  | [] => []
  | [p] => p
  | p :: rest => p ++ sep ++ join sep rest
  end.

(** [repr] of a tuple of [int]s: one item is written [(x,)]. *)
Definition repr_board (board : Board) : text :=
  match board with
  | [x] => lit "(" ++ str_Z x ++ lit ",)"
  | _ => lit "(" ++ join (lit ", ") (str_Z <$> board) ++ lit ")"
  end.

Definition repr_mark (m : Mark) : text :=
  match m with MarkO => lit "'O'" | MarkX => lit "'X'" end.

(** ['{}'.format(state)]: the [repr] of the tuple [(board, mark)]. *)
Definition repr_state (state : State) : text :=
  lit "(" ++ repr_board (fst state) ++ lit ", " ++ repr_mark (snd state) ++ lit ")".

(** [t.split(sep)] for a one-character separator. *)
Fixpoint split_on (sep : ascii) (t : text) : list text :=
  match t with
  | [] => [[]]
  | c :: t' =>
      if bool_decide (c = sep) then [] :: split_on sep t'
      else match split_on sep t' with
           | p :: ps => (c :: p) :: ps
           | [] => [[c]]
           end
  end.

(** The lines of a file read in a [for line in f] loop: each keeps its
    newline, the last one may have none. *)
Fixpoint lines_of (t : text) : list text :=
  match t with
  | [] => []
  | c :: t' =>
      if bool_decide (c = newline) then [c] :: lines_of t'
      else match lines_of t' with
           | p :: ps => (c :: p) :: ps
           | [] => [[c]]
           end
  end.

(** ** Evaluation of a field: the built-in [eval] *)

(** The part of Python's values that the model file holds. *)
#[warnings="-register-all"] Inductive PyVal : Type :=
  | PyInt (z : Z)
  | PyDec (m : Z) (d : nat)
  | PyStr (s : text)
  | PyTuple (items : list PyVal).

(** What is known of a call: it returns, it raises, or the call is
    outside the fragment of Python that is modelled. *)
Inductive outcome (A : Type) : Type :=
  | Returns (a : A)
  | Raises (e : exn)
  | Unmodelled.
Arguments Returns {A} a.
Arguments Raises {A} e.
Arguments Unmodelled {A}.

(** An [int] literal in the form [str] writes it. *)
Definition eval_int_literal (t : text) : option Z :=
  match NilZero.int_of_string (string_of_list_ascii t) with
  | Some d =>
      let z := Z.of_int d in
      if bool_decide (str_Z z = t) then Some z else None
  | None => None
  end.

Definition digit_value (c : ascii) : option Z :=
  let n := nat_of_ascii c in
  if (48 <=? n)%nat && (n <=? 57)%nat then Some (Z.of_nat (n - 48)) else None.

Definition digit_char (d : Z) : ascii := ascii_of_nat (48 + Z.to_nat d).

(** The number that a sequence of digits denotes. *)
Definition digits_step (acc : option Z) (c : ascii) : option Z :=
  match acc, digit_value c with
  | Some a, Some d => Some (10 * a + d)%Z
  | _, _ => None
  end.

Definition digits_value (t : text) : option Z :=
  fold_left digits_step t (Some 0%Z).

(** An unsigned [float] literal [i.f]: the value is [m / 10^d] for [d]
    digits [f]. *)
Definition eval_unsigned_decimal (body : text) : option (Z * nat) :=
  match split_on "."%char body with
  | [ip; frac] =>
      match eval_int_literal ip, digits_value frac with
      | Some i, Some f =>
          if bool_decide (frac = []) || (i <? 0)%Z then None
          else
            let d := length frac in
            Some ((i * 10 ^ Z.of_nat d + f)%Z, d)
      | _, _ => None
      end
  | _ => None
  end.

(** A [float] literal, with its sign. *)
Definition eval_decimal (t : text) : option PyVal :=
  match t with
  | c :: t' =>
      if bool_decide (c = "-"%char)
      then (fun md => PyDec (- md.1) md.2) <$> eval_unsigned_decimal t'
      else (fun md => PyDec md.1 md.2) <$> eval_unsigned_decimal t
  | [] => None
  end.

Definition is_alnum (c : ascii) : bool :=
  let n := nat_of_ascii c in
  ((48 <=? n)%nat && (n <=? 57)%nat) || ((65 <=? n)%nat && (n <=? 90)%nat)
  || ((97 <=? n)%nat && (n <=? 122)%nat).

(** A [str] literal ['...'] of letters and digits. *)
Definition eval_str_literal (t : text) : option PyVal :=
  match t with
  | q :: rest =>
      match reverse rest with
      | q' :: rbody =>
          if bool_decide (q = "'"%char) && bool_decide (q' = "'"%char)
             && forallb is_alnum rbody
          then Some (PyStr (reverse rbody)) else None
      | [] => None
      end
  | [] => None
  end.

(** A sum [a+b+...] of [int] literals; one literal is a sum of one. *)
Definition eval_sum (t : text) : option PyVal :=
  match mapM eval_int_literal (split_on "+"%char t) with
  | Some zs => Some (PyInt (foldr Z.add 0%Z zs))
  | None => None
  end.

Definition eval_atom (t : text) : option PyVal :=
  match eval_str_literal t with
  | Some v => Some v
  | None =>
      if bool_decide ("."%char ∈ t) then eval_decimal t else eval_sum t
  end.

(** The pieces of [t] between the commas that are inside no parenthesis. *)
Fixpoint split_top (depth : nat) (t : text) : list text :=
  match t with
  | [] => [[]]
  | c :: t' =>
      if bool_decide (c = ","%char) && (depth =? 0)%nat then [] :: split_top 0 t'
      else
        let depth' :=
          if bool_decide (c = "("%char) then S depth
          else if bool_decide (c = ")"%char) then pred depth
          else depth in
        match split_top depth' t' with
        | p :: ps => (c :: p) :: ps
        | [] => [[c]]
        end
  end.

(** The parentheses of [t] match, from [depth] open ones. *)
Fixpoint balanced (depth : nat) (t : text) : bool :=
  match t with
  | [] => (depth =? 0)%nat
  | c :: t' =>
      if bool_decide (c = "("%char) then balanced (S depth) t'
      else if bool_decide (c = ")"%char) then
        match depth with O => false | S d => balanced d t' end
      else balanced depth t'
  end.

(** [t] is one parenthesised group [(inner)]. *)
Definition unparen (t : text) : option text :=
  match t with
  | c :: rest =>
      match reverse rest with
      | c' :: rinner =>
          if bool_decide (c = "("%char) && bool_decide (c' = ")"%char)
             && balanced 0 (reverse rinner)
          then Some (reverse rinner) else None
      | [] => None
      end
  | [] => None
  end.

Definition strip_space (t : text) : text :=
  match t with
  | c :: t' => if bool_decide (c = " "%char) then t' else t
  | [] => t
  end.

Definition drop_last_empty (pieces : list text) : list text :=
  match reverse pieces with
  | [] :: rest => reverse rest
  | _ => pieces
  end.

(** An expression: an atom, a parenthesised expression, or a tuple of
    expressions; items are separated by a comma and at most one space, and
    a comma may follow the last item. *)
Fixpoint eval_expr (fuel : nat) (t : text) : option PyVal :=
  match fuel with
  | O => None
  | S fuel' =>
      match unparen t with
      | None => eval_atom t
      | Some inner =>
          if bool_decide (inner = []) then Some (PyTuple [])
          else
            match split_top 0 inner with
            | [p] => eval_expr fuel' p
            | pieces =>
                match mapM (fun p => eval_expr fuel' (strip_space p))
                           (drop_last_empty pieces) with
                | Some items => Some (PyTuple items)
                | None => None
                end
            end
      end
  end.

Definition strip_newline (t : text) : text :=
  match reverse t with
  | c :: r => if bool_decide (c = newline) then reverse r else t
  | [] => t
  end.

(** [eval(t)] on the text of a field: an empty expression is a
    [SyntaxError]; an expression of the fragment has its value; of any
    other text nothing is said. *)
Definition py_eval (t : text) : outcome PyVal :=
  let t' := strip_newline t in
  if bool_decide (t' = []) then Raises SyntaxError
  else match eval_expr (length t') t' with
       | Some v => Returns v
       | None => Unmodelled
       end.

(** ** The model file *)

(** The text side of numbers: ['{:0.3f}'.format(v)] and the value of a
    [float] literal of mantissa [m] and [d] decimals. *)
Class NumberText (V : Type) : Type := {
  num_format3 : V -> text;
  num_of_decimal : Z -> nat -> V
}.

(** The dictionary [info] of a model file. *)
Record Info (V : Type) : Type := mkInfo {
  info_type : text;
  info_max_episode : Z;
  info_epsilon : V;
  info_alpha : V
}.
Arguments mkInfo {V} _ _ _ _.
Arguments info_type {V} _.
Arguments info_max_episode {V} _.
Arguments info_epsilon {V} _.
Arguments info_alpha {V} _.

(** The module [json], on the dictionary [info]. *)
Class JsonLib (V : Type) : Type := {
  json_dumps : Info V -> text;
  json_loads : text -> outcome (Info V)
}.

(** The typed reading of the three values of a line. *)
Definition as_int (v : PyVal) : option Z :=
  match v with PyInt z => Some z | _ => None end.

Definition as_mark (v : PyVal) : option Mark :=
  match v with
  | PyStr s =>
      if bool_decide (s = lit "O") then Some MarkO
      else if bool_decide (s = lit "X") then Some MarkX
      else None
  | _ => None
  end.

Definition as_state (v : PyVal) : option State :=
  match v with
  | PyTuple [PyTuple cells; m] =>
      match mapM as_int cells, as_mark m with
      | Some board, Some m => Some (board, m)
      | _, _ => None
      end
  | _ => None
  end.

Definition as_number {V : Type} `{Number V} `{NumberText V} (v : PyVal) : option V :=
  match v with
  | PyInt z => Some (num_of_Z z)
  | PyDec m d => Some (num_of_decimal m d)
  | _ => None
  end.

Definition outcome_bind {A B : Type} (o : outcome A) (k : A -> outcome B)
  : outcome B :=
  match o with
  | Returns a => k a
  | Raises e => Raises e
  | Unmodelled => Unmodelled
  end.

(** [elms[i]] *)
Definition py_index {A : Type} (l : list A) (i : nat) : outcome A :=
  match l !! i with
  | Some x => Returns x
  | None => Raises IndexError
  end.

(** [line.decode('ascii')] *)
Definition is_ascii (c : ascii) : bool :=
  match c with Ascii _ _ _ _ _ _ _ b7 => negb b7 end.

Definition decode_ascii (line : text) : outcome text :=
  if forallb is_ascii line then Returns line else Raises UnicodeDecodeError.

Section Persistence.
Context {V : Type} `{Number V} `{NumberText V} `{JsonLib V}.

(** One line of the file, as [save_model] formats it. *)
Definition format_line (state : State) (value : V) (vcnt : Z) : text :=
  repr_state state ++ [tab] ++ num_format3 value ++ [tab] ++ str_Z vcnt
  ++ [newline].

(** The [for state, value in st_values.items()] loop of [save_model]. *)
Fixpoint save_lines (items : list (State * V)) (s : Store V) : text * Store V :=
  match items with
  | [] => ([], s)
  | (state, value) :: rest =>
      let '(vcnt, s1) := visits_read state s in
      let '(t, s2) := save_lines rest s1 in
      (format_line state value vcnt ++ t, s2)
  end.

(** [save_model]: the text written to [save_file]. The lines come in the
    order of the map, where Python has the order of insertion; the keys
    are distinct, so what [load_model] stores does not depend on it. *)
Definition save_model (max_episode : Z) (eps al : V) (s : Store V)
  : text * Store V :=
  let info := mkInfo (lit "td") max_episode eps al in
  let '(t, s1) := save_lines (map_to_list (st_values s)) s in
  (json_dumps info ++ [newline] ++ t, s1).

(** The three [eval] calls on the fields [elms] of a line. *)
Definition eval_fields (elms : list text) : outcome (State * V * Z) :=
  outcome_bind (py_index elms 0) (fun e0 =>
  outcome_bind (py_eval e0) (fun state =>
  outcome_bind (py_index elms 1) (fun e1 =>
  outcome_bind (py_eval e1) (fun val =>
  outcome_bind (py_index elms 2) (fun e2 =>
  outcome_bind (py_eval e2) (fun vcnt =>
  match as_state state, as_number val, as_int vcnt with
  | Some state, Some val, Some vcnt => Returns (state, val, vcnt)
  | _, _, _ => Unmodelled
  end)))))).

(** The body of [for line in f] in [load_model]. *)
Definition load_line (line : text) (s : Store V) : outcome unit * Store V :=
  let r :=
    outcome_bind (decode_ascii line) (fun decoded =>
    eval_fields (split_on tab decoded)) in
  match r with
  | Returns (state, val, vcnt) =>
      (Returns tt,
       mkStore (<[state := val]> (st_values s)) (<[state := vcnt]> (st_visits s)))
  | Raises e => (Raises e, s)
  | Unmodelled => (Unmodelled, s)
  end.

Fixpoint load_lines (lines : list text) (s : Store V) : outcome unit * Store V :=
  match lines with
  | [] => (Returns tt, s)
  | line :: rest =>
      match load_line line s with
      | (Returns _, s1) => load_lines rest s1
      | r => r
      end
  end.

(** [load_model], on the text of the file [filename]. *)
Definition load_model (file : text) (s : Store V) : outcome (Info V) * Store V :=
  match lines_of file with
  | [] => (outcome_bind (json_loads []) (fun info => Returns info), s)
  | first :: rest =>
      match json_loads first with
      | Returns info =>
          match load_lines rest s with
          | (Returns _, s1) => (Returns info, s1)
          | (Raises e, s1) => (Raises e, s1)
          | (Unmodelled, s1) => (Unmodelled, s1)
          end
      | Raises e => (Raises e, s)
      | Unmodelled => (Unmodelled, s)
      end
  end.
End Persistence.

(** ** The text of exact numbers *)

(** The integer nearest to [n / d], the even one of two nearest. *)
Definition round_half_even (n d : Z) : Z :=
  let fl := (n / d)%Z in
  let r := (n mod d)%Z in
  if (2 * r <? d)%Z then fl
  else if (d <? 2 * r)%Z then (fl + 1)%Z
  else if Z.even fl then fl else (fl + 1)%Z.

(** [q] in units of [10^-d], rounded. *)
Definition Q_scaled (d : nat) (q : Q) : Z :=
  round_half_even (Qnum q * 10 ^ Z.of_nat d) (Zpos (Qden q)).

(** [d] digits of [n], the most significant first. *)
Fixpoint pad_digits (d : nat) (n : Z) : text :=
  match d with
  | O => []
  | S d' => pad_digits d' (n / 10) ++ [digit_char (n mod 10)]
  end.

(** ['{:0.{d}f}'.format(q)] *)
Definition Q_format_fixed (d : nat) (q : Q) : text :=
  let k := Z.abs (Q_scaled d q) in
  (if (Qnum q <? 0)%Z then lit "-" else [])
  ++ str_Z (k / 10 ^ Z.of_nat d) ++ lit "." ++ pad_digits d (k mod 10 ^ Z.of_nat d).

Definition Q_of_decimal (m : Z) (d : nat) : Q :=
  m # Z.to_pos (10 ^ Z.of_nat d).

#[export] Instance Q_NumberText : NumberText Q := {
  num_format3 := Q_format_fixed 3;
  num_of_decimal := Q_of_decimal
}.

(** What a value becomes through the file: rounded to three decimals. *)
Definition Q_round3 (q : Q) : Q := Q_of_decimal (Q_scaled 3 q) 3.

(** ** The two commands *)

(** [s.replace(old, '')]: the occurrences of [old] are removed, from the
    left; an empty [old] removes nothing. *)
Fixpoint remove_all (fuel : nat) (old s : text) : text :=
  match fuel with
  | O => s
  | S fuel' =>
      match s with
      | [] => []
      | c :: s' =>
          if bool_decide (old ≠ []) && bool_decide (old `prefix_of` s)
          then remove_all fuel' old (drop (length old) s)
          else c :: remove_all fuel' old s'
      end
  end.

Definition py_remove (old s : text) : text := remove_all (length s) old s.

(** The dictionary that [_bench] returns as text: the model info, the
    tally and the name of the model file. *)
Record BenchResult (V : Type) : Type := mkBenchResult {
  bench_info : Info V;
  bench_tally_of : Tally;
  bench_model_file : text
}.
Arguments mkBenchResult {V} _ _ _.
Arguments bench_info {V} _.
Arguments bench_tally_of {V} _.
Arguments bench_model_file {V} _.

Section Commands.
Context {V : Type} `{Number V} `{NumberText V} `{JsonLib V}.
Context `{GameEnv} `{Random V} `{EnvObject V} `{!BaseAgent V}.

(** The directory of the script. *)
Variable CWD : text.

(** [_learn]: the episodes, then [save_model]; the answer is the text of
    the model file. The world holds the environment that [_learn]
    creates. *)
Definition _learn (fuel : nat) (max_episode : Z) (eps al : V) (w : World)
  : option (result text * World) :=
  match learn_run fuel max_episode eps al w with
  | None => None
  | Some (Raise e, w1) => Some (Raise e, w1)
  | Some (Ok _, w1) =>
      let '(file, s1) := save_model max_episode eps al (w_store w1) in
      Some (Ok file, mkWorld s1 (w_rng w1) (w_env w1))
  end.

(** [_bench], on the text [file] of the model file named [model_file]. *)
Definition _bench (fuel : nat) (max_episode : Z) (model_file file : text)
    (w : World) : option (outcome (BenchResult V) * World) :=
  match load_model file (w_store w) with
  | (Raises e, s1) => Some (Raises e, mkWorld s1 (w_rng w) (w_env w))
  | (Unmodelled, s1) => Some (Unmodelled, mkWorld s1 (w_rng w) (w_env w))
  | (Returns minfo, s1) =>
      let agents :=
        [ABase MarkO;
         ATD (mkTDAgent MarkX (num_of_Z 0) (num_of_Z 0) (num_of_Z 1))] in
      let w1 := mkWorld s1 (w_rng w) (env_set_start_mark MarkO (w_env w)) in
      match bench_episodes fuel (Z.to_nat max_episode) agents MarkO [] w1 with
      | None => None
      | Some (Raise e, w2) => Some (Raises e, w2)
      | Some (Ok results, w2) =>
          let mfile := py_remove CWD model_file in
          Some (Returns (mkBenchResult minfo (bench_tally results) mfile), w2)
      end
  end.
End Commands.

(** [backup] called [n] times with the same arguments. *)
Definition backups {V : Type} `{Number V} `{GameEnv} (n : nat) (self : TDAgent V)
    (state nstate : State) (reward : V) (s : Store V) : Store V :=
  Nat.iter n (backup self state nstate reward) s.

(** The state that a line of the file stores a value for, when its first
    field evaluates to one. *)
Definition line_state (line : text) : option State :=
  match decode_ascii line with
  | Returns decoded =>
      match split_on tab decoded with
      | e0 :: _ =>
          match py_eval e0 with
          | Returns v => as_state v
          | _ => None
          end
      | [] => None
      end
  | _ => None
  end.

(** ** Notions of the statements *)

(** The strict preference of an agent between two values: the greater for
    ['O'], the smaller for ['X']. *)
Definition prefers {V : Type} `{Number V} (self : TDAgent V) (v v' : V) : bool :=
  match mark self with
  | MarkO => num_ltb v' v
  | MarkX => num_ltb v v'
  end.

(** The tables [s'] keep every key of [s]; they agree at a state. *)
Definition store_le {V : Type} (s s' : Store V) : Prop :=
  (forall st, is_Some (st_values s !! st) -> is_Some (st_values s' !! st))
  /\ (forall st, is_Some (st_visits s !! st) -> is_Some (st_visits s' !! st)).

Definition same_at {V : Type} (st : State) (s s' : Store V) : Prop :=
  st_values s' !! st = st_values s !! st /\ st_visits s' !! st = st_visits s !! st.

(** [eval] returns a value on the field. *)
Definition evaluates (e : text) : Prop := exists v, py_eval e = Returns v.

(** The value that [eval] gives the text of a state. *)
Definition mark_val (m : Mark) : PyVal :=
  PyStr (match m with MarkO => lit "O" | MarkX => lit "X" end).

Definition state_val (state : State) : PyVal :=
  PyTuple [PyTuple (PyInt <$> state.1); mark_val state.2].

(** Classes of characters. *)
Definition is_digit (c : ascii) : bool :=
  match digit_value c with Some _ => true | None => false end.

(** The characters of the text of an integer: digits and the sign. *)
Definition int_char (c : ascii) : bool :=
  bool_decide (c = "-"%char) || is_digit c.

(** A text without parentheses or commas stays in the current piece. *)
Definition plain_char (c : ascii) : bool :=
  negb (bool_decide (c = ","%char)) && negb (bool_decide (c = "("%char))
  && negb (bool_decide (c = ")"%char)).

(** Inside a parenthesis a comma does not split. *)
Definition inner_char (c : ascii) : bool :=
  negb (bool_decide (c = "("%char)) && negb (bool_decide (c = ")"%char)).

(** The characters of a field that [save_model] writes. *)
Definition field_char (c : ascii) : bool :=
  int_char c || bool_decide (c ∈ lit ".(), 'OX").

(** [a] put in front of the first piece. *)
Definition cons_head (a : text) (pieces : list text) : list text :=
  match pieces with
  | p :: ps => (a ++ p) :: ps
  | [] => [a]
  end.

(** What is between the parentheses of a board. *)
Definition board_body (board : Board) : text :=
  match board with
  | [x] => str_Z x ++ [","%char]
  | _ => join (lit ", ") (str_Z <$> board)
  end.

(** The tables after the lines of the given entries are loaded, and the
    text of these lines; [vis] gives the visit count of a state. *)
Definition load_entry (s : Store Q) (e : State * Q) (n : Z) : Store Q :=
  mkStore (<[e.1 := Q_round3 e.2]> (st_values s)) (<[e.1 := n]> (st_visits s)).

Fixpoint load_entries (vis : State -> Z) (items : list (State * Q)) (s : Store Q)
  : Store Q :=
  match items with
  | [] => s
  | e :: rest => load_entries vis rest (load_entry s e (vis e.1))
  end.

Fixpoint entries_text (vis : State -> Z) (items : list (State * Q)) : text :=
  match items with
  | [] => []
  | e :: rest => format_line e.1 e.2 (vis e.1) ++ entries_text vis rest
  end.

(** ** A concrete environment *)

(** The statements below are evaluated on the tic-tac-toe game itself. *)
Module TicTacToe.

(** Modelled from the spec: [tocode] of [gym_tictactoe.env], which is not
    among the sources; a cell is "empty / player-A / player-B", coded
    0, 1 for ['O'] and 2 for ['X']. *)
Definition tocode (m : Mark) : Z :=
  match m with MarkO => 1 | MarkX => 2 end.

(** Modelled from the spec: the rewards of [gym_tictactoe.env], which is
    not among the sources; "reward==+1" is a win of the first mark and
    "reward==-1" a win of the second. *)
Definition O_REWARD : Z := 1.
Definition X_REWARD : Z := -1.
Definition NO_REWARD : Z := 0.

(** Modelled from the spec: [after_action_state] of [gym_tictactoe.env],
    which is not among the sources; the "deterministic
    resulting-state-after-action function": the mover's code is put in
    the chosen cell and the turn passes to the other mark. *)
Definition after_action_state (state : State) (action : Action) : State :=
  let '(board, m) := state in
  (<[Z.to_nat action := tocode m]> board, next_mark m).

Definition cell (board : Board) (i : nat) : Z := default 0%Z (board !! i).

Definition line_of (board : Board) (t : Z) (i j k : nat) : bool :=
  (cell board i =? t)%Z && (cell board j =? t)%Z && (cell board k =? t)%Z.

Definition wins (board : Board) (t : Z) : bool :=
  line_of board t 0 1 2 || line_of board t 3 4 5 || line_of board t 6 7 8
  || line_of board t 0 3 6 || line_of board t 1 4 7 || line_of board t 2 5 8
  || line_of board t 0 4 8 || line_of board t 2 4 6.

(** Modelled from the spec: [check_game_status] of [gym_tictactoe.env],
    which is not among the sources; a "status code indicating
    ongoing/draw/win-for-mark": the code of the mark that has a full
    line, else -1 while a cell is empty, else 0. *)
Definition check_game_status (board : Board) : Z :=
  if wins board 1 then 1
  else if wins board 2 then 2
  else if existsb (fun c => (c =? 0)%Z) board then (-1)
  else 0.

(** Modelled from the spec: the environment object of
    [gym_tictactoe.env], which is not among the sources; [reset],
    [available_actions] and [step] as the "environment collaborator
    contract" lists them. *)
Record Env : Type := mkEnv {
  env_board : Board;
  env_mark : Mark;
  env_start_mark : Mark;
  env_done : bool
}.

Definition new_env : Env := mkEnv (replicate 9 0%Z) MarkO MarkO false.

Definition set_start_mark (m : Mark) (e : Env) : Env :=
  mkEnv (env_board e) (env_mark e) m (env_done e).

Definition reset (e : Env) : State * Env :=
  let board := replicate 9 0%Z in
  ((board, env_start_mark e),
   mkEnv board (env_start_mark e) (env_start_mark e) false).

Definition available_actions (e : Env) : list Action :=
  List.map (fun ic => Z.of_nat (fst ic))
    (List.filter (fun ic => (snd ic =? 0)%Z) (imap (fun i c => (i, c)) (env_board e))).

Definition step {V : Type} `{Number V} (action : Action) (e : Env)
  : (State * V * bool) * Env :=
  if env_done e then
    (((env_board e, env_mark e), num_of_Z 0, true), e)
  else
    let board := <[Z.to_nat action := tocode (env_mark e)]> (env_board e) in
    let status := check_game_status board in
    let done := (0 <=? status)%Z in
    let reward :=
      if (0 <? status)%Z
      then match env_mark e with MarkO => O_REWARD | MarkX => X_REWARD end
      else NO_REWARD in
    let m := next_mark (env_mark e) in
    (((board, m), num_of_Z reward, done), mkEnv board m (env_start_mark e) done).

(** A generator for the evaluations: the draws are the successive
    numbers from a seed, and [random()] always answers 1/2. *)
Definition Rng : Type := nat.
Definition rng_random (g : Rng) : Q * Rng := (1 # 2, S g).
Definition rng_randbelow (n : nat) (g : Rng) : nat * Rng := (g mod n, S g).

(** A baseline opponent for the evaluations: the first free cell. *)
Definition base_act (m : Mark) (state : State) (ava_actions : list Action)
    (g : Rng) : result Action * Rng :=
  match ava_actions with
  | [] => (Raise IndexError, g)
  | a :: _ => (Ok a, g)
  end.

#[export] Instance game : GameEnv := {
  check_game_status := TicTacToe.check_game_status;
  after_action_state := TicTacToe.after_action_state;
  O_REWARD := TicTacToe.O_REWARD;
  X_REWARD := TicTacToe.X_REWARD
}.

#[export] Instance random : Random Q := {
  Rng := TicTacToe.Rng;
  rng_random := TicTacToe.rng_random;
  rng_randbelow := TicTacToe.rng_randbelow
}.

#[export] Instance env_object : EnvObject Q := {
  Env := TicTacToe.Env;
  env_set_start_mark := set_start_mark;
  env_reset := reset;
  env_available_actions := available_actions;
  env_step := step
}.

#[export] Instance base_agent : BaseAgent Q := TicTacToe.base_act.

End TicTacToe.

(** A [json] for the evaluations: a number is written with the fewest
    decimals (at least one, at most 17) that denote it. *)
Module SimpleJson.

Fixpoint decimals_needed (fuel : nat) (d : nat) (q : Q) : nat :=
  match fuel with
  | O => d
  | S fuel' =>
      if ((Qnum q * 10 ^ Z.of_nat d) mod Zpos (Qden q) =? 0)%Z then d
      else decimals_needed fuel' (S d) q
  end.

Definition repr_Q (q : Q) : text := Q_format_fixed (decimals_needed 16 1 q) q.

Definition dquote : ascii := "034"%char.

Definition key_text (key : text) : text := [dquote] ++ key ++ [dquote].

Definition dumps (info : Info Q) : text :=
  lit "{" ++ key_text (lit "type") ++ lit ": " ++ key_text (info_type info)
  ++ lit ", " ++ key_text (lit "max_episode") ++ lit ": "
  ++ str_Z (info_max_episode info)
  ++ lit ", " ++ key_text (lit "epsilon") ++ lit ": "
  ++ repr_Q (info_epsilon info)
  ++ lit ", " ++ key_text (lit "alpha") ++ lit ": "
  ++ repr_Q (info_alpha info) ++ lit "}".

Definition field (key : text) (piece : text) : option text :=
  match split_on ":"%char (strip_space piece) with
  | [k; v] =>
      if bool_decide (k = key_text key) then Some (strip_space v)
      else None
  | _ => None
  end.

Definition number (t : text) : option Q :=
  match eval_atom t with
  | Some (PyInt z) => Some (inject_Z z)
  | Some (PyDec m d) => Some (Q_of_decimal m d)
  | _ => None
  end.

Definition quoted (t : text) : option text :=
  match t with
  | q :: rest =>
      match reverse rest with
      | q' :: rbody =>
          if bool_decide (q = dquote) && bool_decide (q' = dquote)
             && forallb is_alnum rbody
          then Some (reverse rbody) else None
      | [] => None
      end
  | [] => None
  end.

Definition braces (t : text) : option text :=
  match t with
  | c :: rest =>
      match reverse rest with
      | c' :: rbody =>
          if bool_decide (c = "{"%char) && bool_decide (c' = "}"%char)
          then Some (reverse rbody) else None
      | [] => None
      end
  | [] => None
  end.

Definition loads (t : text) : outcome (Info Q) :=
  let t' := strip_newline t in
  if bool_decide (t' = []) then Raises ValueError
  else
    match braces t' with
    | None => Unmodelled
    | Some body =>
        match split_on ","%char body with
        | [p1; p2; p3; p4] =>
            match field (lit "type") p1 ≫= quoted,
                  field (lit "max_episode") p2 ≫= eval_int_literal,
                  field (lit "epsilon") p3 ≫= number,
                  field (lit "alpha") p4 ≫= number with
            | Some ty, Some n, Some e, Some a => Returns (mkInfo ty n e a)
            | _, _, _, _ => Unmodelled
            end
        | _ => Unmodelled
        end
    end.

#[export] Instance json : JsonLib Q := {
  json_dumps := dumps;
  json_loads := loads
}.

End SimpleJson.

(** ** The inputs of the evaluations *)

Section EvaluationInputs.
#[local] Existing Instance TicTacToe.game.
#[local] Existing Instance TicTacToe.random.
#[local] Existing Instance TicTacToe.env_object.
#[local] Existing Instance TicTacToe.base_agent.
#[local] Existing Instance SimpleJson.json.

(** The agents of [_learn] with the default [EPSILON] and [ALPHA]. *)
Definition agent_O : TDAgent Q := new_agent MarkO (3 # 10) (4 # 10).

Definition agent_X : TDAgent Q := new_agent MarkX (3 # 10) (4 # 10).

(** ['O'] is to move and wins with cell 2. *)
Definition state_O_wins : State := ([1; 1; 0; 2; 2; 0; 0; 0; 0]%Z, MarkO).

Definition state_O_won : State := ([1; 1; 1; 2; 2; 0; 0; 0; 0]%Z, MarkX).

(** ['X'] has a full line and ['O'] is to move. *)
Definition state_X_won : State := ([2; 2; 2; 1; 1; 0; 0; 0; 0]%Z, MarkO).

(** The last two states of the episode that the agents play from the
  seed 0. *)
Definition state_last : State := ([0; 1; 2; 0; 2; 0; 0; 1; 1]%Z, MarkX).

Definition state_terminal : State := ([0; 1; 2; 0; 2; 0; 2; 1; 1]%Z, MarkO).

Definition seed_0 : @Rng Q TicTacToe.random := 0%nat.

Definition info_1 : Info Q := mkInfo (lit "td") 1 (3 # 10) (4 # 10).

(** A model file that lists the terminal state with the value -0.5. *)
Definition file_stale : text :=
json_dumps info_1 ++ [newline] ++ format_line state_terminal (- 1 # 2) 1.

Definition world_stale : World :=
mkWorld (load_model file_stale empty_store).2 seed_0
        TicTacToe.new_env.

(** The agent of a run with float arguments, the default [ALPHA] 0.4 and
  [EPSILON] 0.3. *)
Definition agent_float : TDAgent float :=
mkTDAgent MarkO 0x1.3333333333333p-2%float 0x1.999999999999ap-2%float 1%float.

Definition backup_float : State -> State -> float -> Store float -> Store float :=
backup (H := float_Number) agent_float.

(** The table after 71 backups of the winning move from the empty table. *)
Definition store_71 : Store float :=
Nat.iter 71 (backup_float state_O_wins state_O_won 1%float) empty_store.

(** The table after four backups of the winning move, and its file. *)
Definition store_4 : Store Q :=
backups 4 agent_O state_O_wins state_O_won 1%Q empty_store.

Definition info_500 : Info Q := mkInfo (lit "td") 500 (3 # 10) (4 # 10).

(** A line of four fields, and a line whose state holds a sum. *)
Definition line_four_fields : text :=
repr_state state_O_wins ++ [tab] ++ lit "0.500" ++ [tab] ++ lit "3" ++ [tab]
++ lit "junk" ++ [newline].

Definition line_with_sum : text :=
lit "((1+0, 1, 0, 2, 2, 0, 0, 0, 0), 'O')" ++ [tab] ++ lit "0.500" ++ [tab]
++ lit "3" ++ [newline].

End EvaluationInputs.

(** ** Training followed by the benchmark *)

Section LearnBench.
Context {V : Type} `{Number V} `{NumberText V} `{JsonLib V}.
Context `{GameEnv} `{Random V} `{EnvObject V} `{!BaseAgent V}.

Variable CWD : text.

(** [_learnbench]: [_learn] writes the file [model_file] and [_bench]
    reads it back, into the same tables. The answer holds the lines
    printed on the way; [env_bench] is the environment that [_bench]
    creates for itself. *)
Definition _learnbench (fuel : nat) (max_episode max_bench_episode : Z)
    (eps al : V) (model_file : text) (show : bool) (env_bench : Env)
    (w : World) : option (outcome (BenchResult V) * list text * World) :=
  let out1 := if show then [lit "Learning..."] else [] in
  match _learn fuel max_episode eps al w with
  | None => None
  | Some (Raise e, w1) => Some (Raises e, out1, w1)
  | Some (Ok file, w1) =>
      let out2 := out1 ++ (if show then [lit "Benchmarking..."] else []) in
      let w2 := mkWorld (w_store w1) (w_rng w1) env_bench in
      match _bench CWD fuel max_bench_episode model_file file w2 with
      | None => None
      | Some (r, w3) => Some (r, out2, w3)
      end
  end.
End LearnBench.

(** ** The grid of parameters *)

(** [range(start, stop, step)] for a step above 0. *)
Definition py_range (start stop step : Z) : list Z :=
  (fun k => (start + Z.of_nat k * step)%Z)
    <$> seq 0 (Z.to_nat ((stop - start + step - 1) / step)).

(** [itertools.product(a, b, c)]: the last list runs fastest. *)
Definition product3 {A B C : Type} (a : list A) (b : list B) (c : list C)
  : list (A * B * C) :=
  x ← a; y ← b; z ← c; [(x, y, z)].

(** ['{:03d}'.format(i)] for an index: zeros in front, up to three
    characters. *)
Definition format_03d (i : nat) : text :=
  let t := str_Z (Z.of_nat i) in
  replicate (3 - length t) "0"%char ++ t.

(** [os.path.join(a, b)] for a path [b] that is not absolute. *)
Definition path_join (a b : text) : text :=
  match last a with
  | None => b
  | Some c => if bool_decide (c = "/"%char) then a ++ b else a ++ lit "/" ++ b
  end.

(** One list of arguments for [_learnbench], as [gridsearch] builds it. *)
Record GridArg : Type := mkGridArg {
  ga_max_episode : Z;
  ga_max_bench_episode : Z;
  ga_epsilon : float;
  ga_alpha : float;
  ga_model_file : text;
  ga_show : bool
}.

(** The loop [for i, arg in enumerate(_args)] of [gridsearch]. *)
Definition grid_args (CWD : text) (_args : list (Z * float * float))
  : list GridArg :=
  imap (fun i (arg : Z * float * float) =>
          mkGridArg arg.1.1 1000 arg.1.2 arg.2
            (path_join CWD (lit "gsmodels/model_" ++ format_03d i ++ lit ".dat"))
            false)
       _args.

(** The floats [0.01] and [0.1]. *)
Definition float_001 : float := 0x1.47ae147ae147bp-7%float.
Definition float_01 : float := 0x1.999999999999ap-4%float.

(** The three ranges of [gridsearch], and the small ones of the test
    mode. *)
Definition grid_epsilons (test_mode : bool) : list float :=
  (fun e => PrimFloat.mul (float_of_Z e) float_001)
    <$> (if test_mode then py_range 9 13 2 else py_range 8 25 2).

Definition grid_alphas (test_mode : bool) : list float :=
  (fun a => PrimFloat.mul (float_of_Z a) float_01)
    <$> (if test_mode then py_range 4 6 1 else py_range 2 8 1).

Definition grid_episodes (test_mode : bool) : list Z :=
  if test_mode then py_range 1000 2000 300 else py_range 8000 31000 3000.

(** [args] of [gridsearch]. *)
Definition gridsearch_args (CWD : text) (test_mode : bool) : list GridArg :=
  grid_args CWD
    (product3 (grid_episodes test_mode) (grid_epsilons test_mode)
              (grid_alphas test_mode)).

(** ** Further notions of the statements *)

(** A sequence of calls [set_state_value(state, value)], in order. *)
Definition set_state_values {V : Type} (writes : list (State * V)) (s : Store V)
  : Store V :=
  foldl (fun s w => set_state_value w.1 w.2 s) s writes.

(** The writes of a sequence that are made to one state. *)
Definition writes_to {V : Type} (state : State) (writes : list (State * V))
  : list (State * V) :=
  List.filter (fun w => bool_decide (w.1 = state)) writes.

(** The list [indices] holds the positions of the items of [values] that
    equal [best], each once, in increasing order, and there is one. *)
Definition positions_of {V : Type} `{Number V} (best : V) (values : list V)
    (indices : list nat) : Prop :=
  indices ≠ []
  /\ StronglySorted lt indices
  /\ forall i, i ∈ indices <->
               exists v, values !! i = Some v /\ num_eqb v best = true.

(** The two tables have the same keys and every count is at least 1: what
    holds of tables that only [set_state_value] has written. *)
Definition store_counted {V : Type} (s : Store V) : Prop :=
  forall st,
    (is_Some (st_values s !! st) <-> is_Some (st_visits s !! st))
    /\ (forall n, st_visits s !! st = Some n -> (1 <= n)%Z).

(** The tables [s'] hold every state of [s], with a count that is not
    smaller. *)
Definition store_grows {V : Type} (s s' : Store V) : Prop :=
  forall st,
    (is_Some (st_values s !! st) -> is_Some (st_values s' !! st))
    /\ (visits_of st s <= visits_of st s')%Z.

(** Every value of the tables is between [lo] and [hi]. *)
Definition store_bounded (lo hi : Q) (s : Store Q) : Prop :=
  forall st v, st_values s !! st = Some v -> (lo <= v <= hi)%Q.

(** The entry that a line of the model file holds: the three values of
    [load_model]'s [eval] calls. *)
Definition line_entry {V : Type} `{Number V} `{NumberText V} (line : text)
  : outcome (State * V * Z) :=
  outcome_bind (decode_ascii line) (fun decoded =>
  eval_fields (split_on tab decoded)).

(** The tables after an entry is stored as [load_model] stores it. *)
Definition store_entry {V : Type} (e : State * V * Z) (s : Store V) : Store V :=
  mkStore (<[e.1.1 := e.1.2]> (st_values s)) (<[e.1.1 := e.2]> (st_visits s)).

(** [old] occurs in [s] at the position [k]. *)
Definition occurs_at (old s : text) (k : nat) : Prop :=
  (k <= length s)%nat /\ old `prefix_of` drop k s.

(** The number that a sequence of decimal digits denotes, by the
    standard reading of decimal numbers. *)
Definition digits_number (t : text) : option Z :=
  Z.of_uint <$> NilEmpty.uint_of_string (string_of_list_ascii t).

(** ** The last state of an episode *)

(** The reward of a win of a mark: [O_REWARD if mark == 'O' else
    X_REWARD]. *)
Definition reward_of `{GameEnv} (m : Mark) : Z :=
  match m with MarkO => O_REWARD | MarkX => X_REWARD end.

(** The board of a state ends the game: [check_game_status] answers 0 or
    more. *)
Definition ends_game `{GameEnv} (state : State) : bool :=
  (0 <=? check_game_status state.1)%Z.

(** The reward of the move that leads to a state: the reward of the mark
    that has moved, the other one than the mark to move, when the board
    has a full line, and 0 else. *)
Definition entering_reward `{GameEnv} (state : State) : Z :=
  if (0 <? check_game_status state.1)%Z then reward_of (next_mark state.2)
  else 0%Z.

(** Every state of the tables that ends the game has a value equal to the
    reward of the move that leads to it. *)
Definition terminal_anchored {V : Type} `{Number V} `{GameEnv} (s : Store V)
  : Prop :=
  forall st v,
    st_values s !! st = Some v -> ends_game st = true ->
    num_eqb v (num_of_Z (entering_reward st)) = true.

(** Modelled from the spec: what the loops use of [gym_tictactoe.env],
    which is not among the sources. The "environment collaborator
    contract": [after_action_state] and [step] pass the turn to the other
    mark ("turn rotation"); [reset] gives a state of a game that goes on;
    [step] answers [done] when [check_game_status] tells the end of the
    game on the new board ("ongoing/draw/win-for-mark"), and its reward is
    the reward of the mark that moved when the board has a full line and
    0 else ("reward assignment"). The relation [sync] holds of the
    environment and the state that it has answered last. *)
Record EnvContract {V : Type} `{Number V} `{GameEnv} `{EnvObject V}
    (sync : Env -> State -> Prop) : Prop := mkEnvContract {
  contract_after :
    forall state action, (after_action_state state action).2 = next_mark state.2;
  contract_reset :
    forall m env,
      let r := env_reset (env_set_start_mark m env) in
      sync r.2 r.1 /\ ends_game r.1 = false;
  contract_step :
    forall action env state,
      sync env state ->
      let r := env_step action env in
      let nstate := r.1.1.1 in
      nstate.2 = next_mark state.2
      /\ r.1.2 = ends_game nstate
      /\ r.1.1.2
         = num_of_Z (if (0 <? check_game_status nstate.1)%Z
                     then reward_of state.2 else 0%Z)
      /\ (r.1.2 = false -> sync r.2 nstate)
}.

(** ** Further inputs of the evaluations *)

Section MoreInputs.
#[local] Existing Instance TicTacToe.game.
#[local] Existing Instance TicTacToe.random.
#[local] Existing Instance TicTacToe.env_object.
#[local] Existing Instance TicTacToe.base_agent.
#[local] Existing Instance SimpleJson.json.

(** The agent that [_bench] and [_play] create: no exploring. *)
Definition agent_bench : TDAgent Q :=
  mkTDAgent MarkX (inject_Z 0) (inject_Z 0) (inject_Z 1).

Definition env_0 : @Env Q TicTacToe.env_object := TicTacToe.new_env.

Definition world_0 : World := mkWorld empty_store seed_0 env_0.

(** The environment of the game and the state that it has answered
    last. *)
Definition game_sync (e : @Env Q TicTacToe.env_object) (state : State) : Prop :=
  TicTacToe.env_board e = state.1 /\ TicTacToe.env_mark e = state.2
  /\ TicTacToe.env_done e = false.

(** A model file with two lines for one state. *)
Definition file_two_lines : text :=
  json_dumps info_1 ++ [newline] ++ format_line state_O_wins (1 # 2) 1
  ++ format_line state_O_wins (1 # 4) 7.

(** The directory of the script and a model file in it. *)
Definition cwd_repo : text := lit "/repo/examples".

Definition file_in_cwd : text := lit "/td_agent.dat".
End MoreInputs.

(** * Properties *)

Section StoreLemmas.
Context {V : Type}.
Implicit Types (s : Store V) (state : State) (v : V).

Lemma set_state_value_values_eq state v s :
  st_values (set_state_value state v s) !! state = Some v.
Proof. unfold set_state_value; simpl. apply lookup_insert_eq. Qed.

Lemma set_state_value_values_ne state state' v s :
  state ≠ state' ->
  st_values (set_state_value state v s) !! state' = st_values s !! state'.
Proof. intros Hne. unfold set_state_value; simpl. by apply lookup_insert_ne. Qed.

Lemma set_state_value_visits_eq state v s :
  visits_of state (set_state_value state v s) = (visits_of state s + 1)%Z.
Proof.
  unfold visits_of at 1. unfold set_state_value; simpl.
  by rewrite lookup_insert_eq.
Qed.

Lemma set_state_value_visits_ne state state' v s :
  state ≠ state' ->
  st_visits (set_state_value state v s) !! state' = st_visits s !! state'.
Proof. intros Hne. unfold set_state_value; simpl. by apply lookup_insert_ne. Qed.

Lemma set_state_value_wf state v s :
  store_wf s -> store_wf (set_state_value state v s).
Proof.
  intros Hwf state'. unfold set_state_value; simpl.
  destruct (decide (state = state')) as [->|Hne].
  - by rewrite lookup_insert_eq.
  - rewrite !lookup_insert_ne by done. apply Hwf.
Qed.

Lemma empty_store_wf : store_wf (@empty_store V).
Proof. intros state _. apply lookup_empty. Qed.

Lemma visits_of_absent state s :
  store_wf s -> st_values s !! state = None -> visits_of state s = 0%Z.
Proof. intros Hwf Hn. unfold visits_of. by rewrite (Hwf _ Hn). Qed.
End StoreLemmas.

Section AgentLemmas.
Context {V : Type} `{Number V} `{GameEnv}.

Lemma ask_value_known self state s v :
  st_values s !! state = Some v -> ask_value self state s = (v, s).
Proof. intros Hv. unfold ask_value. by rewrite Hv. Qed.

Lemma ask_value_new self state s :
  st_values s !! state = None ->
  ask_value self state s =
    (init_value self state, set_state_value state (init_value self state) s).
Proof. intros Hv. unfold ask_value. by rewrite Hv. Qed.

Lemma ask_value_fst self state s :
  fst (ask_value self state s) = value_or_init self state s.
Proof.
  unfold value_or_init. destruct (st_values s !! state) as [v|] eqn:Hv.
  - by rewrite (ask_value_known _ _ _ _ Hv).
  - by rewrite (ask_value_new _ _ _ Hv).
Qed.

Lemma ask_value_stored self state s :
  st_values (snd (ask_value self state s)) !! state
  = Some (value_or_init self state s).
Proof.
  unfold value_or_init. destruct (st_values s !! state) as [v|] eqn:Hv.
  - by rewrite (ask_value_known _ _ _ _ Hv).
  - rewrite (ask_value_new _ _ _ Hv). apply set_state_value_values_eq.
Qed.

Lemma ask_value_other self state state' s :
  state ≠ state' ->
  st_values (snd (ask_value self state s)) !! state' = st_values s !! state'
  /\ st_visits (snd (ask_value self state s)) !! state' = st_visits s !! state'.
Proof.
  intros Hne. destruct (st_values s !! state) as [v|] eqn:Hv.
  - by rewrite (ask_value_known _ _ _ _ Hv).
  - rewrite (ask_value_new _ _ _ Hv). simpl.
    by rewrite !lookup_insert_ne.
Qed.

Lemma ask_value_keeps self state state' s v :
  st_values s !! state' = Some v ->
  st_values (snd (ask_value self state s)) !! state' = Some v.
Proof.
  intros Hv'. destruct (decide (state = state')) as [->|Hne].
  - by rewrite (ask_value_known _ _ _ _ Hv').
  - by rewrite (proj1 (ask_value_other self _ _ s Hne)).
Qed.

Lemma ask_value_wf self state s :
  store_wf s -> store_wf (snd (ask_value self state s)).
Proof.
  intros Hwf. destruct (st_values s !! state) as [v|] eqn:Hv.
  - by rewrite (ask_value_known _ _ _ _ Hv).
  - rewrite (ask_value_new _ _ _ Hv). by apply set_state_value_wf.
Qed.

Lemma value_or_init_ask self state state' s :
  value_or_init self state' (snd (ask_value self state s))
  = value_or_init self state' s.
Proof.
  destruct (decide (state = state')) as [->|Hne].
  - unfold value_or_init at 1. rewrite ask_value_stored. done.
  - unfold value_or_init. by rewrite (proj1 (ask_value_other self _ _ s Hne)).
Qed.

Lemma ask_value_new_state_visits self state s :
  store_wf s -> st_values s !! state = None ->
  fst (ask_value self state s) = init_value self state
  /\ st_values (snd (ask_value self state s)) !! state
     = Some (fst (ask_value self state s))
  /\ visits_of state (snd (ask_value self state s)) = 1%Z.
Proof.
  intros Hwf Hn. rewrite (ask_value_new _ _ _ Hn). cbn [fst snd].
  split; [done|]. split; [apply set_state_value_values_eq|].
  rewrite set_state_value_visits_eq. by rewrite (visits_of_absent _ _ Hwf Hn).
Qed.

(** Claim C4, amended. For a state that the tables do not hold, [ask_value]
  returns [DEFAULT_VALUE] and leaves the visit count of the state at 1,
  unless [check_game_status] reports a win on its board (a status above
  0, whichever mark has the line): then it stores and returns the reward
  of the agent's own mark, [O_REWARD] for ['O'] and [X_REWARD] for ['X'],
  and the visit count is 1 as well. *)
Theorem ask_value_new_state self state s :
  store_wf s -> st_values s !! state = None ->
  fst (ask_value self state s)
  = num_of_Z (if (0 <? check_game_status (fst state))%Z
              then match mark self with MarkO => O_REWARD | MarkX => X_REWARD end
              else DEFAULT_VALUE)
  /\ st_values (snd (ask_value self state s)) !! state
     = Some (fst (ask_value self state s))
  /\ visits_of state (snd (ask_value self state s)) = 1%Z.
Proof. intros Hwf Hn. exact (ask_value_new_state_visits self state s Hwf Hn). Qed.

Lemma backup_unfold self state nstate reward s :
  backup self state nstate reward s
  = set_state_value state
      (num_add (value_or_init self state s)
         (num_mul (alpha self)
            (num_sub (value_or_init self nstate s) (value_or_init self state s))))
      (snd (ask_value self nstate (snd (ask_value self state s)))).
Proof.
  unfold backup.
  pose proof (ask_value_fst self state s) as Hval.
  pose proof (value_or_init_ask self state nstate s) as Hinit.
  destruct (ask_value self state s) as [val s1]. cbn [fst snd] in *.
  pose proof (ask_value_fst self nstate s1) as Hnv.
  destruct (ask_value self nstate s1) as [nv s2]. cbn [fst snd] in *.
  by rewrite Hval, Hnv, Hinit.
Qed.

Lemma backup_stored_value self state nstate reward s :
  st_values (backup self state nstate reward s) !! state
  = Some (num_add (value_or_init self state s)
            (num_mul (alpha self)
               (num_sub (value_or_init self nstate s) (value_or_init self state s)))).
Proof. rewrite backup_unfold. apply set_state_value_values_eq. Qed.

Lemma ask_value_next_visits self state nstate s :
  visits_of state (snd (ask_value self nstate (snd (ask_value self state s))))
  = visits_of state (snd (ask_value self state s)).
Proof.
  destruct (decide (nstate = state)) as [->|Hne].
  - by rewrite (ask_value_known _ _ _ _ (ask_value_stored self state s)).
  - unfold visits_of. by rewrite (proj2 (ask_value_other self _ _ _ Hne)).
Qed.

(** Claim C2. One call [backup(state, nstate, reward)] stores for [state]
  the value [old + alpha * (nval - old)], where [old] and [nval] are the
  values of [state] and [nstate] before the call as [ask_value] answers
  them (initialised on first sight). The write is a [set_state_value]: it
  adds one to the visit counter of [state] as the reading left it, so
  the counter is one more than before the call for a known state, and 2
  for a state first seen in the call, whose initialisation is a write of
  its own. *)
Theorem backup_td_update self state nstate reward s :
  let old := value_or_init self state s in
  let nval := value_or_init self nstate s in
  let s' := backup self state nstate reward s in
  st_values s' !! state
    = Some (num_add old (num_mul (alpha self) (num_sub nval old)))
  /\ visits_of state s'
     = (visits_of state (snd (ask_value self state s)) + 1)%Z
  /\ (forall v, st_values s !! state = Some v ->
        visits_of state s' = (visits_of state s + 1)%Z)
  /\ (st_values s !! state = None -> store_wf s -> visits_of state s' = 2%Z).
Proof.
  intros old nval s'. subst s' old nval.
  split; [apply backup_stored_value|].
  rewrite backup_unfold, set_state_value_visits_eq, ask_value_next_visits.
  split; [done|]. split.
  - intros v Hv. by rewrite (ask_value_known _ _ _ _ Hv).
  - intros Hn Hwf.
    by rewrite (proj2 (proj2 (ask_value_new_state_visits self state s Hwf Hn))).
Qed.
End AgentLemmas.

Section Order.
Context {V : Type} `{NumberOrder V}.

Lemma num_eqb_not_ltb x y : num_eqb x y = true -> num_ltb x y = false.
Proof. intros E. rewrite (num_eqb_ltb_l x y y E). apply num_ltb_irrefl. Qed.

Lemma num_eqb_not_gtb x y : num_eqb x y = true -> num_ltb y x = false.
Proof. intros E. rewrite (num_eqb_ltb_r x y y E). apply num_ltb_irrefl. Qed.

Lemma fold_max_spec (rest : list V) (v : V) (seen : list V) :
  v ∈ seen -> (forall x, x ∈ seen -> num_ltb v x = false) ->
  let best := fold_left (fun best item => if num_ltb best item then item else best) rest v in
  best ∈ seen ++ rest /\ forall x, x ∈ seen ++ rest -> num_ltb best x = false.
Proof.
  revert v seen. induction rest as [|item rest IH]; intros v seen Hin Hmax; simpl.
  - rewrite app_nil_r. done.
  - replace (seen ++ item :: rest) with ((seen ++ [item]) ++ rest)
      by (by rewrite <- app_assoc).
    apply IH.
    + apply elem_of_app. destruct (num_ltb v item); [right|by left].
      by apply list_elem_of_singleton.
    + intros x Hx. apply elem_of_app in Hx as [Hx|Hx].
      * destruct (num_ltb v item) eqn:E; [|by apply Hmax].
        destruct (num_ltb item x) eqn:E2; [|done].
        rewrite <- (Hmax x Hx). symmetry. by apply (num_ltb_trans v item x).
      * apply list_elem_of_singleton in Hx as ->.
        destruct (num_ltb v item) eqn:E; [apply num_ltb_irrefl|done].
Qed.

Lemma fold_min_spec (rest : list V) (v : V) (seen : list V) :
  v ∈ seen -> (forall x, x ∈ seen -> num_ltb x v = false) ->
  let best := fold_left (fun best item => if num_ltb item best then item else best) rest v in
  best ∈ seen ++ rest /\ forall x, x ∈ seen ++ rest -> num_ltb x best = false.
Proof.
  revert v seen. induction rest as [|item rest IH]; intros v seen Hin Hmin; simpl.
  - rewrite app_nil_r. done.
  - replace (seen ++ item :: rest) with ((seen ++ [item]) ++ rest)
      by (by rewrite <- app_assoc).
    apply IH.
    + apply elem_of_app. destruct (num_ltb item v); [right|by left].
      by apply list_elem_of_singleton.
    + intros x Hx. apply elem_of_app in Hx as [Hx|Hx].
      * destruct (num_ltb item v) eqn:E; [|by apply Hmin].
        destruct (num_ltb x item) eqn:E2; [|done].
        rewrite <- (Hmin x Hx). symmetry. by apply (num_ltb_trans x item v).
      * apply list_elem_of_singleton in Hx as ->.
        destruct (num_ltb item v) eqn:E; [apply num_ltb_irrefl|done].
Qed.

Lemma py_max_spec (values : list V) :
  values ≠ [] ->
  exists best, py_max values = Ok best /\ best ∈ values
               /\ forall x, x ∈ values -> num_ltb best x = false.
Proof.
  destruct values as [|v rest]; [done|]. intros _. eexists. split; [done|].
  apply (fold_max_spec rest v [v]); [by apply list_elem_of_singleton|].
  intros x Hx. apply list_elem_of_singleton in Hx as ->. apply num_ltb_irrefl.
Qed.

Lemma py_min_spec (values : list V) :
  values ≠ [] ->
  exists best, py_min values = Ok best /\ best ∈ values
               /\ forall x, x ∈ values -> num_ltb x best = false.
Proof.
  destruct values as [|v rest]; [done|]. intros _. eexists. split; [done|].
  apply (fold_min_spec rest v [v]); [by apply list_elem_of_singleton|].
  intros x Hx. apply list_elem_of_singleton in Hx as ->. apply num_ltb_irrefl.
Qed.
End Order.

Section Indices.
Context {V : Type} `{Number V}.

Lemma elem_of_indices_of (best : V) (values : list V) (k i : nat) :
  i ∈ indices_of best k values <->
  exists j v, i = (k + j)%nat /\ values !! j = Some v /\ num_eqb v best = true.
Proof.
  revert k. induction values as [|v rest IH]; intros k; simpl.
  - split; [by intros ?%elem_of_nil|by intros (j & v & _ & ? & _)].
  - destruct (num_eqb v best) eqn:E.
    + rewrite elem_of_cons, IH. split.
      * intros [->|(j & x & -> & Hj & Hx)].
        -- exists 0%nat, v. by rewrite Nat.add_0_r.
        -- exists (S j), x. split; [lia|done].
      * intros (j & x & -> & Hj & Hx). destruct j as [|j].
        -- left. lia.
        -- right. exists j, x. split; [lia|done].
    + rewrite IH. split.
      * intros (j & x & -> & Hj & Hx). exists (S j), x. split; [lia|done].
      * intros (j & x & -> & Hj & Hx). destruct j as [|j].
        -- simpl in Hj. inversion Hj; subst. congruence.
        -- exists j, x. split; [lia|done].
Qed.
End Indices.

Section Greedy.
Context {V : Type} `{NumberOrder V} `{GameEnv} `{RandomOk V}.

Lemma visits_read_values (state : State) (s : Store V) :
  st_values (snd (visits_read state s)) = st_values s.
Proof. unfold visits_read. by destruct (st_visits s !! state). Qed.

Lemma value_or_init_visits_read self (state state' : State) (s : Store V) :
  value_or_init self state' (snd (visits_read state s)) = value_or_init self state' s.
Proof. unfold value_or_init. by rewrite visits_read_values. Qed.

Lemma ask_values_spec self state (ava_actions : list Action) (s : Store V) :
  fst (ask_values self state ava_actions s)
  = (fun a => value_or_init self (after_action_state state a) s) <$> ava_actions
  /\ (forall st, value_or_init self st (snd (ask_values self state ava_actions s))
                = value_or_init self st s)
  /\ (forall st v, st_values s !! st = Some v ->
        st_values (snd (ask_values self state ava_actions s)) !! st = Some v)
  /\ (forall a, a ∈ ava_actions ->
        st_values (snd (ask_values self state ava_actions s))
          !! after_action_state state a
        = Some (value_or_init self (after_action_state state a) s)).
Proof.
  revert s. induction ava_actions as [|a rest IH]; intros s; simpl.
  - split; [done|]. split; [done|]. split; [done|]. by intros a ?%elem_of_nil.
  - set (nstate := after_action_state state a).
    pose proof (ask_value_fst self nstate s) as Hf.
    pose proof (ask_value_stored self nstate s) as Hs.
    pose proof (fun st => value_or_init_ask self nstate st s) as Hv.
    pose proof (fun st v => ask_value_keeps self nstate st s v) as Hk.
    destruct (ask_value self nstate s) as [nval s1]. simpl in *.
    pose proof (visits_read_values nstate s1) as Hr.
    pose proof (fun st => value_or_init_visits_read self nstate st s1) as Hrv.
    destruct (visits_read nstate s1) as [vc s2]. simpl in *.
    destruct (IH s2) as (IH1 & IH2 & IH3 & IH4).
    destruct (ask_values self state rest s2) as [vals s3]. simpl in *.
    assert (Hall : forall st, value_or_init self st s2 = value_or_init self st s).
    { intros st. by rewrite Hrv, Hv. }
    split.
    { rewrite Hf, IH1. f_equal. apply list_fmap_ext. intros ? a' _. apply Hall. }
    split.
    { intros st. by rewrite IH2, Hall. }
    split.
    { intros st v Hst. apply IH3. rewrite Hr. by apply Hk. }
    intros a' Ha'. apply elem_of_cons in Ha' as [Heq|Ha'].
    + subst a'. apply IH3. rewrite Hr. exact Hs.
    + rewrite (IH4 a' Ha'). by rewrite Hall.
Qed.

Lemma ask_values_length self state (ava_actions : list Action) (s : Store V) :
  length (fst (ask_values self state ava_actions s)) = length ava_actions.
Proof. rewrite (proj1 (ask_values_spec self state ava_actions s)). apply length_fmap. Qed.

Lemma random_choice_ok {A : Type} (seq : list A) (g : Rng) :
  seq ≠ [] -> exists x, fst (random_choice seq g) = Ok x /\ x ∈ seq.
Proof.
  intros Hne. unfold random_choice. destruct seq as [|a seq]; [done|].
  pose proof (rng_randbelow_lt (length (a :: seq)) g ltac:(simpl; lia)) as Hlt.
  destruct (rng_randbelow (length (a :: seq)) g) as [i g']. simpl in Hlt.
  destruct (lookup_lt_is_Some_2 (a :: seq) i ltac:(simpl; lia)) as [x Hx].
  rewrite Hx. exists x. split; [done|]. by apply list_elem_of_lookup_2 in Hx.
Qed.

Lemma best_val_indices_spec self (values : list V) :
  values ≠ [] ->
  exists best indices,
    match mark self with
    | MarkO => best_val_indices values py_max
    | MarkX => best_val_indices values py_min
    end = Ok indices
    /\ indices = indices_of best 0 values
    /\ best ∈ values
    /\ forall x, x ∈ values -> prefers self x best = false.
Proof.
  intros Hne. unfold prefers, best_val_indices. destruct (mark self).
  - destruct (py_max_spec values Hne) as (best & -> & Hin & Hmax).
    by exists best, (indices_of best 0 values).
  - destruct (py_min_spec values Hne) as (best & -> & Hin & Hmin).
    by exists best, (indices_of best 0 values).
Qed.

Lemma greedy_action_spec self state (ava_actions : list Action) (s : Store V) g :
  ava_actions ≠ [] ->
  let vals := (fun a => value_or_init self (after_action_state state a) s)
                <$> ava_actions in
  exists aidx action v best g',
    greedy_action self state ava_actions s g
    = (Ok action, snd (ask_values self state ava_actions s), g')
    /\ ava_actions !! aidx = Some action
    /\ vals !! aidx = Some v
    /\ num_eqb v best = true
    /\ best ∈ vals
    /\ forall x, x ∈ vals -> prefers self x best = false.
Proof.
  intros Hne vals. unfold greedy_action.
  assert (Hlen : (0 <? length ava_actions)%nat = true).
  { apply Nat.ltb_lt. destruct ava_actions; [done|simpl; lia]. }
  rewrite Hlen.
  pose proof (proj1 (ask_values_spec self state ava_actions s)) as Hvals.
  destruct (ask_values self state ava_actions s) as [ava_values s']. simpl in *.
  fold vals in Hvals. subst ava_values.
  assert (Hvne : vals ≠ []).
  { subst vals. destruct ava_actions; [done|]. done. }
  destruct (best_val_indices_spec self vals Hvne)
    as (best & indices & -> & Hidx & Hin & Hbest).
  assert (Hine : indices ≠ []).
  { apply list_elem_of_lookup_1 in Hin as [j Hj].
    assert (Hj' : j ∈ indices).
    { rewrite Hidx. apply elem_of_indices_of. exists j, best.
      split; [done|]. split; [done|]. apply num_eqb_refl. }
    intros E. rewrite E in Hj'. by apply elem_of_nil in Hj'. }
  destruct (random_choice_ok indices g Hine) as (aidx & Hch & Hai).
  destruct (random_choice indices g) as [r g']. simpl in Hch. subst r.
  rewrite Hidx in Hai. apply elem_of_indices_of in Hai as (j & v & -> & Hj & Hv).
  simpl.
  assert (Hlt : (j < length ava_actions)%nat).
  { apply lookup_lt_Some in Hj. subst vals. by rewrite length_fmap in Hj. }
  destruct (lookup_lt_is_Some_2 ava_actions j Hlt) as [action Ha].
  rewrite Ha. exists j, action, v, best, g'. done.
Qed.

(** Claim C8. [greedy_action] on an empty list of actions raises
  [AssertionError] and changes neither the tables nor the generator; on
  every list that is not empty it returns one of the actions of the
  list. *)
Theorem greedy_action_empty_raises self state (ava_actions : list Action)
    (s : Store V) g :
  greedy_action self state [] s g = (Raise AssertionError, s, g)
  /\ (ava_actions ≠ [] ->
      exists action s' g',
        greedy_action self state ava_actions s g = (Ok action, s', g')
        /\ action ∈ ava_actions).
Proof.
  split; [done|]. intros Hne.
  destruct (greedy_action_spec self state ava_actions s g Hne)
    as (aidx & action & v & best & g' & Hg & Ha & _).
  exists action, (snd (ask_values self state ava_actions s)), g'.
  split; [done|]. by apply list_elem_of_lookup_2 in Ha.
Qed.

Lemma prefers_eqb_l self (x y z : V) :
  num_eqb x y = true -> prefers self z x = prefers self z y.
Proof.
  intros E. unfold prefers. destruct (mark self).
  - by apply num_eqb_ltb_l.
  - by apply num_eqb_ltb_r.
Qed.

Lemma prefers_eqb_false self (x y : V) :
  num_eqb x y = true -> prefers self y x = false.
Proof.
  intros E. unfold prefers. destruct (mark self).
  - by apply num_eqb_not_ltb.
  - by apply num_eqb_not_gtb.
Qed.

(** Claim C5. On a list of actions that is not empty, [greedy_action]
  returns an action of the list such that no action of the list leads to
  a state whose value the agent prefers to that of the chosen one (none
  greater for ['O'], none smaller for ['X']); and when one action is
  strictly preferred to every other action of the list, it is the action
  returned for every state of the generator, so two runs agree. *)
Theorem greedy_action_optimal self state (ava_actions : list Action)
    (s : Store V) :
  ava_actions ≠ [] ->
  let val := fun a => value_or_init self (after_action_state state a) s in
  (forall g, exists action s' g',
      greedy_action self state ava_actions s g = (Ok action, s', g')
      /\ action ∈ ava_actions
      /\ forall a, a ∈ ava_actions ->
           st_values s' !! after_action_state state a = Some (val a)
           /\ prefers self (val a) (val action) = false)
  /\ (forall best, best ∈ ava_actions ->
        (forall a, a ∈ ava_actions -> a ≠ best ->
                   prefers self (val best) (val a) = true) ->
        forall g1 g2,
          (greedy_action self state ava_actions s g1).1.1 = Ok best
          /\ (greedy_action self state ava_actions s g2).1.1 = Ok best).
Proof.
  intros Hne val. split.
  - intros g.
    destruct (greedy_action_spec self state ava_actions s g Hne)
      as (aidx & action & v & best & g' & Hg & Ha & Hv & Heq & Hin & Hbest).
    exists action, (snd (ask_values self state ava_actions s)), g'.
    split; [done|]. split; [by apply list_elem_of_lookup_2 in Ha|].
    intros a Hain. split.
    + by apply ask_values_spec.
    + rewrite list_lookup_fmap, Ha in Hv. simpl in Hv. inversion Hv as [Hv'].
      fold (val action) in Hv'. rewrite Hv'.
      rewrite (prefers_eqb_l self v best _ Heq). apply Hbest.
      apply list_elem_of_fmap. by exists a.
  - intros b Hb Hstrict.
    assert (Hone : forall g, (greedy_action self state ava_actions s g).1.1 = Ok b).
    { intros g.
      destruct (greedy_action_spec self state ava_actions s g Hne)
        as (aidx & action & v & best & g' & Hg & Ha & Hv & Heq & Hin & Hbest).
      rewrite Hg. simpl. f_equal.
      destruct (decide (action = b)) as [|Hab]; [done|exfalso].
      rewrite list_lookup_fmap, Ha in Hv. simpl in Hv. inversion Hv as [Hv'].
      fold (val action) in Hv'.
      assert (Hact : action ∈ ava_actions) by (by apply list_elem_of_lookup_2 in Ha).
      pose proof (Hstrict action Hact Hab) as Hs1.
      assert (Hbv : val b ∈ val <$> ava_actions).
      { apply list_elem_of_fmap. by exists b. }
      pose proof (Hbest _ Hbv) as Hs2.
      rewrite <- (prefers_eqb_l self v best _ Heq) in Hs2.
      rewrite Hv' in Hs1. congruence. }
    intros g1 g2. by rewrite !Hone.
Qed.
End Greedy.

Lemma Q_ltb_lt (x y : Q) : num_ltb x y = true <-> (x < y)%Q.
Proof.
  simpl. rewrite negb_true_iff. split.
  - intros Hb. apply Qnot_le_lt. intros Hle. apply Qle_bool_iff in Hle. congruence.
  - intros Hlt. destruct (Qle_bool y x) eqn:E; [|done].
    apply Qle_bool_iff in E. exfalso. by apply (Qlt_not_le x y).
Qed.

Lemma Q_ltb_ge (x y : Q) : num_ltb x y = false <-> (y <= x)%Q.
Proof. simpl. rewrite negb_false_iff. apply Qle_bool_iff. Qed.

#[export] Instance Q_NumberOrder : NumberOrder Q.
Proof.
  split.
  - intros x. apply Qeq_bool_refl.
  - intros x. apply Q_ltb_ge. apply Qle_refl.
  - intros x y z Hxy%Q_ltb_lt Hyz%Q_ltb_lt. apply Q_ltb_lt. by apply (Qlt_trans x y z).
  - intros x y z E%Qeq_bool_iff. simpl. f_equal. by rewrite E.
  - intros x y z E%Qeq_bool_iff. simpl. f_equal. by rewrite E.
Qed.

#[export] Instance TicTacToe_RandomOk : RandomOk Q (H := TicTacToe.random).
Proof. intros n g Hn. simpl. apply Nat.mod_upper_bound. lia. Qed.

Section BackupQ.
Context `{GameEnv}.

Lemma value_or_init_set_ne {V} `{Number V} (self : TDAgent V) (state state' : State) (v : V) s :
  state ≠ state' ->
  value_or_init self state' (set_state_value state v s) = value_or_init self state' s.
Proof. intros Hne. unfold value_or_init. by rewrite set_state_value_values_ne. Qed.

Lemma value_or_init_set_eq {V} `{Number V} (self : TDAgent V) (state : State) (v : V) s :
  value_or_init self state (set_state_value state v s) = v.
Proof. unfold value_or_init. by rewrite set_state_value_values_eq. Qed.

Lemma backup_value_other {V} `{Number V} (self : TDAgent V) state nstate reward state' (s : Store V) :
  state ≠ state' ->
  value_or_init self state' (backup self state nstate reward s)
  = value_or_init self state' s.
Proof.
  intros Hne. unfold backup.
  pose proof (value_or_init_ask self state state' s) as H1.
  destruct (ask_value self state s) as [val s1]. simpl in H1.
  pose proof (value_or_init_ask self nstate state' s1) as H2.
  destruct (ask_value self nstate s1) as [nval s2]. simpl in H2.
  by rewrite value_or_init_set_ne, H2, H1.
Qed.

Lemma backup_value self state nstate reward (s : Store Q) :
  value_or_init self state (backup self state nstate reward s)
  = (value_or_init self state s
     + alpha self * (value_or_init self nstate s - value_or_init self state s))%Q.
Proof.
  unfold value_or_init at 1.
  by rewrite (backup_stored_value self state nstate reward s).
Qed.

Lemma td_step_between (a v n : Q) :
  (0 <= a <= 1)%Q ->
  ((v <= n -> v <= v + a * (n - v) <= n)
   /\ (n <= v -> n <= v + a * (n - v) <= v))%Q.
Proof. intros [Ha0 Ha1]. split; intros Hvn; split; nra. Qed.

Lemma td_step_strict (a v n : Q) :
  (0 < a)%Q ->
  ((v < n -> v < v + a * (n - v)) /\ (n < v -> v + a * (n - v) < v))%Q.
Proof. intros Ha0. split; intros Hvn; nra. Qed.
Lemma backups_S n self state nstate reward (s : Store Q) :
  backups (S n) self state nstate reward s
  = backup self state nstate reward (backups n self state nstate reward s).
Proof. done. Qed.

Lemma backups_invariant self state nstate reward (s : Store Q) (k : nat) :
  (0 <= alpha self <= 1)%Q ->
  let old := value_or_init self state s in
  let nval := value_or_init self nstate s in
  let sk := backups k self state nstate reward s in
  (value_or_init self nstate sk == nval
   /\ (old <= nval -> old <= value_or_init self state sk <= nval)
   /\ (nval <= old -> nval <= value_or_init self state sk <= old))%Q.
Proof.
  intros Ha old nval. induction k as [|k IH]; simpl.
  - split; [reflexivity|]. split; intros Hle; split; (exact Hle || apply Qle_refl).
  - change (Nat.iter k (backup self state nstate reward) s)
      with (backups k self state nstate reward s) in *.
    set (sk := backups k self state nstate reward s) in *.
    destruct IH as (IHn & IHup & IHdown).
    rewrite backup_value.
    pose proof (td_step_between (alpha self) (value_or_init self state sk)
                  (value_or_init self nstate sk) Ha) as [Hup Hdown].
    assert (Hn : (value_or_init self nstate (backup self state nstate reward sk)
                  == nval)%Q).
    { destruct (decide (state = nstate)) as [<-|Hne].
      - rewrite backup_value. rewrite <- IHn. ring.
      - by rewrite backup_value_other. }
    split; [exact Hn|]. rewrite IHn in Hup, Hdown. rewrite IHn.
    split; intros Hle.
    + destruct (IHup Hle) as [H1 H2]. destruct (Hup H2) as [H3 H4].
      split; [by apply (Qle_trans _ (value_or_init self state sk))|done].
    + destruct (IHdown Hle) as [H1 H2]. destruct (Hdown H1) as [H3 H4].
      split; [done|by apply (Qle_trans _ (value_or_init self state sk))].
Qed.

(** Claim C6, amended: in exact arithmetic. With rational values and
  [alpha], write [v k] for the value of [state] after [k] calls of
  [backup] with the same arguments, [old = v 0], and [nval] for the
  value of [nstate] before them. For [0 < alpha <= 1] one call moves the
  value strictly towards [nval] and not beyond it; for [0 <= alpha <= 1]
  every further call moves it towards [nval], or leaves it, and never
  beyond. *)
Theorem backup_moves_toward self state nstate reward (s : Store Q) :
  let old := value_or_init self state s in
  let nval := value_or_init self nstate s in
  let v := fun k => value_or_init self state (backups k self state nstate reward s) in
  (v 0%nat = old
   /\ (forall k, st_values (backups (S k) self state nstate reward s) !! state
                 = Some (v (S k)))
   /\ ((0 < alpha self <= 1) ->
       (old < nval -> old < v 1%nat <= nval)
       /\ (nval < old -> nval <= v 1%nat < old))
   /\ ((0 <= alpha self <= 1) ->
       forall k,
         (old <= nval -> v k <= v (S k) <= nval)
         /\ (nval <= old -> nval <= v (S k) <= v k)))%Q.
Proof.
  intros old nval v. split; [done|]. split.
  { intros k. subst v. cbv beta. rewrite backups_S.
    unfold value_or_init at 1.
    by rewrite (backup_stored_value self state nstate reward _). }
  split.
  - intros [Ha0 Ha1]. subst v. cbv beta.
    change (backups 1 self state nstate reward s)
      with (backup self state nstate reward s).
    rewrite backup_value. fold old nval.
    destruct (td_step_strict (alpha self) old nval Ha0) as [Hs1 Hs2].
    destruct (td_step_between (alpha self) old nval (conj (Qlt_le_weak _ _ Ha0) Ha1))
      as [Hb1 Hb2].
    split; intros Hlt.
    + split; [by apply Hs1|]. by apply Hb1, Qlt_le_weak.
    + split; [|by apply Hs2]. by apply Hb2, Qlt_le_weak.
  - intros Ha k. subst v. cbv beta. rewrite backups_S.
    destruct (backups_invariant self state nstate reward s k Ha)
      as (Hn & Hup & Hdown). fold old nval in Hn, Hup, Hdown.
    set (sk := backups k self state nstate reward s) in *.
    rewrite backup_value.
    pose proof (td_step_between (alpha self) (value_or_init self state sk)
                  (value_or_init self nstate sk) Ha) as [Hu Hd].
    rewrite Hn in Hu, Hd. rewrite Hn.
    split; intros Hle.
    + apply Hu. by apply Hup.
    + apply Hd. by apply Hdown.
Qed.
End BackupQ.

Section Splitting.

Lemma split_on_absent (sep : ascii) (t : text) :
  sep ∉ t -> split_on sep t = [t].
Proof.
  induction t as [|c t IH]; intros Hn; simpl; [done|].
  apply not_elem_of_cons in Hn as [Hc Ht].
  rewrite bool_decide_eq_false_2 by congruence. by rewrite (IH Ht).
Qed.

Lemma split_on_app (sep : ascii) (a b : text) :
  sep ∉ a -> split_on sep (a ++ sep :: b) = a :: split_on sep b.
Proof.
  induction a as [|c a IH]; intros Hn; simpl.
  - by rewrite bool_decide_eq_true_2.
  - apply not_elem_of_cons in Hn as [Hc Ha].
    rewrite bool_decide_eq_false_2 by congruence. by rewrite (IH Ha).
Qed.

Lemma lines_of_app (a b : text) :
  newline ∉ a -> lines_of (a ++ newline :: b) = (a ++ [newline]) :: lines_of b.
Proof.
  induction a as [|c a IH]; intros Hn.
  - done.
  - apply not_elem_of_cons in Hn as [Hc Ha].
    change (lines_of ((c :: a) ++ newline :: b))
      with (if bool_decide (c = newline) then [c] :: lines_of (a ++ newline :: b)
            else match lines_of (a ++ newline :: b) with
                 | p :: ps => (c :: p) :: ps
                 | [] => [[c]]
                 end).
    rewrite bool_decide_eq_false_2 by congruence. by rewrite (IH Ha).
Qed.

Lemma split_top_nonempty depth t : split_top depth t ≠ [].
Proof.
  revert depth. induction t as [|c t IH]; intros depth; simpl; [done|].
  destruct (bool_decide (c = ","%char) && (depth =? 0)%nat); [done|].
  by destruct (split_top _ t).
Qed.

Lemma split_top_plain depth (a b : text) :
  forallb plain_char a = true ->
  split_top depth (a ++ b) = cons_head a (split_top depth b).
Proof.
  induction a as [|c a IH]; intros Hp; simpl.
  - pose proof (split_top_nonempty depth b). by destruct (split_top depth b).
  - simpl in Hp. apply andb_prop in Hp as [Hc Ha].
    unfold plain_char in Hc.
    apply andb_prop in Hc as [Hc H3]. apply andb_prop in Hc as [H1 H2].
    apply negb_true_iff in H1, H2, H3. rewrite H1, H2, H3. simpl.
    rewrite (IH Ha).
    pose proof (split_top_nonempty depth b). by destruct (split_top depth b).
Qed.

Lemma split_top_inner depth (a b : text) :
  forallb inner_char a = true ->
  split_top (S depth) (a ++ b) = cons_head a (split_top (S depth) b).
Proof.
  induction a as [|c a IH]; intros Hp; simpl.
  - pose proof (split_top_nonempty (S depth) b). by destruct (split_top (S depth) b).
  - simpl in Hp. apply andb_prop in Hp as [Hc Ha].
    unfold inner_char in Hc. apply andb_prop in Hc as [H2 H3].
    apply negb_true_iff in H2, H3. rewrite H2, H3, andb_false_r.
    rewrite (IH Ha).
    pose proof (split_top_nonempty (S depth) b). by destruct (split_top (S depth) b).
Qed.

Lemma balanced_inner depth (a b : text) :
  forallb inner_char a = true -> balanced depth (a ++ b) = balanced depth b.
Proof.
  induction a as [|c a IH]; intros Hp; simpl; [done|].
  simpl in Hp. apply andb_prop in Hp as [Hc Ha].
  unfold inner_char in Hc. apply andb_prop in Hc as [H2 H3].
  apply negb_true_iff in H2, H3. rewrite H2, H3. by apply IH.
Qed.

Lemma unparen_group (inner : text) :
  unparen ("("%char :: inner ++ [")"%char])
  = if balanced 0 inner then Some inner else None.
Proof.
  unfold unparen. rewrite reverse_snoc, reverse_involutive. simpl.
  by destruct (balanced 0 inner).
Qed.

Lemma unparen_not_open (c : ascii) (t : text) :
  c ≠ "("%char -> unparen (c :: t) = None.
Proof.
  intros Hc. unfold unparen. destruct (reverse t); [done|].
  by rewrite bool_decide_eq_false_2.
Qed.

Lemma strip_newline_snoc (t : text) : strip_newline (t ++ [newline]) = t.
Proof.
  unfold strip_newline. rewrite reverse_snoc.
  rewrite bool_decide_eq_true_2 by done. apply reverse_involutive.
Qed.

Lemma strip_newline_other (t : text) (c : ascii) :
  c ≠ newline -> strip_newline (t ++ [c]) = t ++ [c].
Proof.
  intros Hc. unfold strip_newline. rewrite reverse_snoc.
  by rewrite bool_decide_eq_false_2.
Qed.
End Splitting.

Section IntText.

Lemma int_char_uint (d : Decimal.uint) :
  forallb int_char (lit (NilEmpty.string_of_uint d)) = true.
Proof. induction d; simpl; try done. Qed.

Lemma str_Z_chars (z : Z) : forallb int_char (str_Z z) = true.
Proof.
  unfold str_Z. destruct z as [|p|p]; simpl; [done| |].
  - unfold NilZero.string_of_uint. destruct (Pos.to_uint p) eqn:E;
      try (rewrite <- E; apply int_char_uint). done.
  - unfold NilZero.string_of_uint. destruct (Pos.to_uint p) eqn:E;
      try (rewrite <- E; apply int_char_uint). done.
Qed.

Lemma to_int_not_nil (z : Z) :
  Z.to_int z ≠ Decimal.Pos Decimal.Nil /\ Z.to_int z ≠ Decimal.Neg Decimal.Nil.
Proof.
  destruct z as [|p|p]; simpl; split; try done.
  - intros [= E]. by apply (Unsigned.to_uint_nonnil p).
  - intros [= E]. by apply (Unsigned.to_uint_nonnil p).
Qed.

Lemma eval_int_literal_str (z : Z) : eval_int_literal (str_Z z) = Some z.
Proof.
  unfold eval_int_literal. unfold str_Z at 1. unfold lit.
  rewrite string_of_list_ascii_of_string.
  destruct (to_int_not_nil z) as [H1 H2].
  rewrite (NilZero.isi _ H1 H2). cbv zeta. rewrite DecimalZ.of_to.
  by rewrite bool_decide_eq_true_2.
Qed.

Lemma str_Z_nonempty (z : Z) : exists c t, str_Z z = c :: t /\ int_char c = true.
Proof.
  pose proof (str_Z_chars z) as Hc.
  pose proof (eval_int_literal_str z) as He.
  destruct (str_Z z) as [|c t] eqn:E.
  - by vm_compute in He.
  - exists c, t. split; [done|]. simpl in Hc. by apply andb_prop in Hc as [? _].
Qed.

Lemma forallb_imp {A} (p q : A -> bool) (l : list A) :
  (forall x, p x = true -> q x = true) ->
  forallb p l = true -> forallb q l = true.
Proof.
  intros Hpq. induction l as [|x l IH]; simpl; [done|].
  intros [Hx Hl]%andb_prop. by rewrite (Hpq x Hx), (IH Hl).
Qed.

Lemma forallb_not_elem {A} (p : A -> bool) (l : list A) (x : A) :
  p x = false -> forallb p l = true -> x ∉ l.
Proof.
  intros Hx Hl Hin. rewrite forallb_forall in Hl.
  apply list_elem_of_In in Hin. rewrite (Hl x Hin) in Hx. done.
Qed.

Lemma int_char_plain c : int_char c = true -> plain_char c = true.
Proof. destruct c as [[] [] [] [] [] [] [] []]; by vm_compute. Qed.

Lemma int_char_inner c : int_char c = true -> inner_char c = true.
Proof. destruct c as [[] [] [] [] [] [] [] []]; by vm_compute. Qed.

Lemma int_char_ascii c : int_char c = true -> is_ascii c = true.
Proof. destruct c as [[] [] [] [] [] [] [] []]; by vm_compute. Qed.
End IntText.

Section EvalState.

Lemma int_char_not c c' : int_char c = true -> int_char c' = false -> c ≠ c'.
Proof. intros H1 H2 ->. congruence. Qed.

Lemma eval_str_literal_not_quote (c : ascii) (t : text) :
  c ≠ "'"%char -> eval_str_literal (c :: t) = None.
Proof.
  intros Hc. unfold eval_str_literal. destruct (reverse t); [done|].
  by rewrite bool_decide_eq_false_2.
Qed.

Lemma strip_space_int (z : Z) : strip_space (str_Z z) = str_Z z.
Proof.
  destruct (str_Z_nonempty z) as (c & t & -> & Hc). simpl.
  rewrite bool_decide_eq_false_2; [done|]. by apply (int_char_not _ _ Hc).
Qed.

Lemma strip_space_cons (t : text) : strip_space (" "%char :: t) = t.
Proof. done. Qed.

Lemma eval_expr_int (fuel : nat) (z : Z) :
  eval_expr (S fuel) (str_Z z) = Some (PyInt z).
Proof.
  pose proof (str_Z_chars z) as Hall.
  pose proof (eval_int_literal_str z) as Hev.
  destruct (str_Z_nonempty z) as (c & t & E & Hc).
  simpl. rewrite E. rewrite unparen_not_open by (by apply (int_char_not _ _ Hc)).
  unfold eval_atom.
  rewrite eval_str_literal_not_quote by (by apply (int_char_not _ _ Hc)).
  rewrite <- E.
  rewrite bool_decide_eq_false_2
    by (by apply (forallb_not_elem int_char)).
  unfold eval_sum.
  rewrite split_on_absent by (by apply (forallb_not_elem int_char)).
  simpl. rewrite Hev. simpl. by rewrite Z.add_0_r.
Qed.

Lemma split_top_join (pre : text) (x : Z) (rest : list Z) :
  forallb plain_char pre = true ->
  split_top 0 (pre ++ join (lit ", ") (str_Z <$> x :: rest))
  = (pre ++ str_Z x) :: ((fun y => " "%char :: str_Z y) <$> rest).
Proof.
  revert pre x. induction rest as [|y rest IH]; intros pre x Hpre.
  - simpl. rewrite <- (app_nil_r (pre ++ str_Z x)) at 1.
    rewrite split_top_plain; [simpl; by rewrite app_nil_r|].
    rewrite forallb_app, Hpre. simpl.
    apply (forallb_imp _ _ _ int_char_plain), str_Z_chars.
  - change (join (lit ", ") (str_Z <$> x :: y :: rest))
      with (str_Z x ++ ","%char :: " "%char :: join (lit ", ") (str_Z <$> y :: rest)).
    rewrite app_assoc, split_top_plain.
    2:{ rewrite forallb_app, Hpre. simpl.
        apply (forallb_imp _ _ _ int_char_plain), str_Z_chars. }
    change (split_top 0 (","%char :: " "%char :: join (lit ", ") (str_Z <$> y :: rest)))
      with ([] :: split_top 0 ([" "%char] ++ join (lit ", ") (str_Z <$> y :: rest))).
    rewrite (IH [" "%char] y) by done. simpl. by rewrite app_nil_r.
Qed.

Lemma drop_last_empty_snoc (l : list text) (p : text) :
  p ≠ [] -> drop_last_empty (l ++ [p]) = l ++ [p].
Proof.
  intros Hp. unfold drop_last_empty. rewrite reverse_snoc. by destruct p.
Qed.

Lemma drop_last_empty_nonempty (l : list text) :
  Forall (fun p => p ≠ []) l -> drop_last_empty l = l.
Proof.
  intros Hl. destruct l as [|p l _] using rev_ind; [done|].
  apply drop_last_empty_snoc. apply Forall_app in Hl as [_ Hp].
  by inversion Hp.
Qed.

Lemma str_Z_ne_nil (z : Z) : str_Z z ≠ [].
Proof. by destruct (str_Z_nonempty z) as (c & t & -> & _). Qed.

Lemma board_inner_chars (board : list Z) :
  forallb inner_char (join (lit ", ") (str_Z <$> board)) = true.
Proof.
  induction board as [|x [|y rest] IH].
  - done.
  - simpl. apply (forallb_imp _ _ _ int_char_inner), str_Z_chars.
  - change (join (lit ", ") (str_Z <$> x :: y :: rest))
      with (str_Z x ++ ","%char :: " "%char :: join (lit ", ") (str_Z <$> y :: rest)).
    rewrite forallb_app. simpl in *. rewrite IH.
    by rewrite (forallb_imp _ _ _ int_char_inner (str_Z_chars x)).
Qed.

Lemma eval_expr_S (fuel : nat) (t : text) :
  eval_expr (S fuel) t
  = match unparen t with
    | None => eval_atom t
    | Some inner =>
        if bool_decide (inner = []) then Some (PyTuple [])
        else
          match split_top 0 inner with
          | [p] => eval_expr fuel p
          | pieces =>
              match mapM (fun p => eval_expr fuel (strip_space p))
                         (drop_last_empty pieces) with
              | Some items => Some (PyTuple items)
              | None => None
              end
          end
    end.
Proof. done. Qed.

Lemma eval_expr_board (fuel : nat) (board : Board) :
  eval_expr (S (S fuel)) (repr_board board) = Some (PyTuple (PyInt <$> board)).
Proof.
  destruct board as [|x [|y rest]].
  - done.
  - (* one item *)
    replace (repr_board [x]) with ("("%char :: (str_Z x ++ [","%char]) ++ [")"%char])
      by (unfold repr_board, lit; simpl; by rewrite <- app_assoc).
    rewrite eval_expr_S, unparen_group.
    assert (Hin : forallb inner_char (str_Z x ++ [","%char]) = true).
    { rewrite forallb_app.
      by rewrite (forallb_imp _ _ _ int_char_inner (str_Z_chars x)). }
    rewrite <- (app_nil_r (str_Z x ++ [","%char])) at 1.
    rewrite (balanced_inner _ _ _ Hin). simpl balanced. cbv iota.
    rewrite bool_decide_eq_false_2.
    2:{ intros E. apply (f_equal length) in E. rewrite length_app in E.
        simpl in E. lia. }
    rewrite split_top_plain
      by (apply (forallb_imp _ _ _ int_char_plain), str_Z_chars).
    change (split_top 0 [","%char]) with ([[]; []] : list text).
    unfold cons_head. rewrite app_nil_r.
    change (drop_last_empty [str_Z x; []]) with [str_Z x].
    erewrite mapM_Some_2; [done|].
    constructor; [|constructor]. by rewrite strip_space_int, eval_expr_int.
  - (* none or several items *)
    set (b := x :: y :: rest).
    change (repr_board b)
      with ("("%char :: join (lit ", ") (str_Z <$> b) ++ [")"%char]).
    rewrite eval_expr_S, unparen_group.
    rewrite <- (app_nil_r (join (lit ", ") (str_Z <$> b))) at 1.
    rewrite (balanced_inner _ _ _ (board_inner_chars b)). simpl balanced. cbv iota.
    rewrite bool_decide_eq_false_2.
    2:{ subst b. destruct (str_Z_nonempty x) as (c & t & E & _).
        change (join (lit ", ") (str_Z <$> x :: y :: rest))
          with (str_Z x ++ ","%char :: " "%char :: join (lit ", ") (str_Z <$> y :: rest)).
        by rewrite E. }
    pose proof (split_top_join [] x (y :: rest) eq_refl) as Hs.
    rewrite app_nil_l in Hs. fold b in Hs. rewrite Hs. simpl app.
    rewrite fmap_cons.
    rewrite drop_last_empty_nonempty.
    2:{ constructor; [apply str_Z_ne_nil|]. constructor; [done|].
        apply Forall_fmap, Forall_true. done. }
    erewrite mapM_Some_2; [done|].
    subst b. constructor.
    { by rewrite strip_space_int, eval_expr_int. }
    constructor.
    { by rewrite strip_space_cons, eval_expr_int. }
    apply Forall2_fmap, Forall_Forall2_diag, Forall_true.
    intros z. by rewrite strip_space_cons, eval_expr_int.
Qed.
End EvalState.

Section EvalStateText.

Lemma repr_board_shape (board : Board) :
  repr_board board = "("%char :: board_body board ++ [")"%char].
Proof.
  destruct board as [|x [|y rest]]; try done.
  unfold repr_board, board_body, lit. simpl. by rewrite <- app_assoc.
Qed.

Lemma board_body_chars (board : Board) :
  forallb inner_char (board_body board) = true.
Proof.
  destruct board as [|x [|y rest]]; try apply board_inner_chars.
  unfold board_body. rewrite forallb_app.
  by rewrite (forallb_imp _ _ _ int_char_inner (str_Z_chars x)).
Qed.

Lemma repr_state_shape (state : State) :
  repr_state state
  = "("%char :: (repr_board state.1 ++ ","%char :: " "%char :: repr_mark state.2)
                ++ [")"%char].
Proof.
  unfold repr_state, lit. simpl. rewrite <- !app_assoc. done.
Qed.

Lemma split_top_open depth (t : text) :
  split_top depth ("("%char :: t) = cons_head ["("%char] (split_top (S depth) t).
Proof.
  simpl. pose proof (split_top_nonempty (S depth) t).
  by destruct (split_top (S depth) t).
Qed.

Lemma split_top_close depth (t : text) :
  split_top (S depth) (")"%char :: t) = cons_head [")"%char] (split_top depth t).
Proof.
  simpl. pose proof (split_top_nonempty depth t).
  by destruct (split_top depth t).
Qed.

Lemma cons_head_app (a b : text) (pieces : list text) :
  pieces ≠ [] -> cons_head a (cons_head b pieces) = cons_head (a ++ b) pieces.
Proof. destruct pieces; [done|]. intros _. simpl. by rewrite app_assoc. Qed.

Lemma split_top_state (state : State) :
  split_top 0 (repr_board state.1 ++ ","%char :: " "%char :: repr_mark state.2)
  = [repr_board state.1; " "%char :: repr_mark state.2].
Proof.
  rewrite repr_board_shape. simpl app.
  rewrite split_top_open. rewrite <- app_assoc.
  rewrite (split_top_inner 0 _ _ (board_body_chars _)).
  simpl app. rewrite split_top_close.
  replace (split_top 0 (","%char :: " "%char :: repr_mark state.2))
    with ([[]; " "%char :: repr_mark state.2] : list text)
    by (by destruct state.2).
  done.
Qed.

Lemma balanced_state (state : State) :
  balanced 0 (repr_board state.1 ++ ","%char :: " "%char :: repr_mark state.2)
  = true.
Proof.
  rewrite repr_board_shape. simpl app.
  change (balanced 0 ("("%char :: ?t)) with (balanced 1 t).
  rewrite <- app_assoc, (balanced_inner _ _ _ (board_body_chars _)).
  by destruct state.2.
Qed.

Lemma eval_expr_state (fuel : nat) (state : State) :
  eval_expr (S (S (S fuel))) (repr_state state) = Some (state_val state).
Proof.
  rewrite repr_state_shape, eval_expr_S, unparen_group, balanced_state.
  rewrite bool_decide_eq_false_2 by (rewrite repr_board_shape; done).
  rewrite split_top_state.
  change (drop_last_empty [repr_board state.1; " "%char :: repr_mark state.2])
    with [repr_board state.1; " "%char :: repr_mark state.2].
  erewrite mapM_Some_2; [done|].
  constructor; [|constructor; [|constructor]].
  - rewrite repr_board_shape. change (strip_space ("("%char :: ?t)) with ("("%char :: t).
    rewrite <- repr_board_shape. apply eval_expr_board.
  - rewrite strip_space_cons. by destruct state.2.
Qed.

Lemma as_state_val (state : State) : as_state (state_val state) = Some state.
Proof.
  destruct state as [board m]. unfold as_state, state_val. simpl.
  rewrite (mapM_fmap_Some as_int PyInt board) by done.
  by destruct m.
Qed.

Lemma repr_state_last (state : State) :
  exists t, repr_state state = t ++ [")"%char] /\ t ≠ [].
Proof. rewrite repr_state_shape. eexists (_ :: _). split; [|done]. done. Qed.

Lemma py_eval_state (state : State) :
  py_eval (repr_state state) = Returns (state_val state).
Proof.
  unfold py_eval. destruct (repr_state_last state) as (t & E & Ht).
  rewrite E, strip_newline_other by done. rewrite <- E.
  rewrite bool_decide_eq_false_2 by (rewrite E; by destruct t).
  assert (Hlen : exists n, length (repr_state state) = S (S (S n))).
  { rewrite repr_state_shape, repr_board_shape. simpl.
    rewrite !length_app. simpl. eexists. rewrite Nat.add_succ_r. done. }
  destruct Hlen as [n ->]. by rewrite eval_expr_state.
Qed.
End EvalStateText.

Section DecimalText.
Arguments digit_char : simpl never.
Arguments digit_value : simpl never.

Lemma digit_value_char (d : Z) :
  (0 <= d < 10)%Z -> digit_value (digit_char d) = Some d.
Proof.
  intros Hd.
  assert (Hc : (d = 0 \/ d = 1 \/ d = 2 \/ d = 3 \/ d = 4 \/ d = 5 \/ d = 6
                \/ d = 7 \/ d = 8 \/ d = 9)%Z) by lia.
  repeat (destruct Hc as [->|Hc]; [reflexivity|]). by subst.
Qed.

Lemma is_digit_char (d : Z) : (0 <= d < 10)%Z -> is_digit (digit_char d) = true.
Proof. intros Hd. unfold is_digit. by rewrite digit_value_char. Qed.

Lemma pad_digits_chars (d : nat) (n : Z) : forallb is_digit (pad_digits d n) = true.
Proof.
  revert n. induction d as [|d IH]; intros n; simpl; [done|].
  rewrite forallb_app, IH. cbn [forallb andb].
  rewrite is_digit_char; [done|]. apply Z.mod_pos_bound. lia.
Qed.

Lemma pad_digits_length (d : nat) (n : Z) : length (pad_digits d n) = d.
Proof.
  revert n. induction d as [|d IH]; intros n; simpl; [done|].
  rewrite length_app, IH. simpl. lia.
Qed.

Lemma digits_fold_pad (d : nat) (n a : Z) :
  fold_left digits_step (pad_digits d n) (Some a)
  = Some (a * 10 ^ Z.of_nat d + n mod 10 ^ Z.of_nat d)%Z.
Proof.
  revert n a. induction d as [|d IH]; intros n a.
  - simpl. f_equal. rewrite Z.mod_1_r. lia.
  - cbn [pad_digits]. rewrite fold_left_app, IH. cbn [fold_left].
    unfold digits_step. rewrite digit_value_char by (apply Z.mod_pos_bound; lia).
    f_equal. rewrite Nat2Z.inj_succ, Z.pow_succ_r by lia.
    rewrite (Z.rem_mul_r n 10 (10 ^ Z.of_nat d)) by lia. lia.
Qed.

Lemma digits_value_pad (d : nat) (n : Z) :
  digits_value (pad_digits d n) = Some (n mod 10 ^ Z.of_nat d)%Z.
Proof.
  unfold digits_value.
  by rewrite digits_fold_pad.
Qed.

Lemma is_digit_int c : is_digit c = true -> int_char c = true.
Proof. intros Hc. unfold int_char. rewrite Hc. apply orb_true_r. Qed.

Lemma is_digit_uint (d : Decimal.uint) :
  forallb is_digit (lit (NilEmpty.string_of_uint d)) = true.
Proof. induction d; simpl; try done. Qed.

Lemma str_Z_nonneg_chars (z : Z) : (0 <= z)%Z -> forallb is_digit (str_Z z) = true.
Proof.
  intros Hz. unfold str_Z. destruct z as [|p|p]; simpl; [done| |lia].
  unfold NilZero.string_of_uint. destruct (Pos.to_uint p) eqn:E;
    try (rewrite <- E; apply is_digit_uint). done.
Qed.

Lemma round_half_even_sign (n d : Z) :
  (0 < d)%Z ->
  ((0 <= n -> 0 <= round_half_even n d) /\ (n < 0 -> round_half_even n d <= 0))%Z.
Proof.
  intros Hd. unfold round_half_even. split; intros Hn.
  - assert (0 <= n / d)%Z by (apply Z.div_pos; lia).
    repeat case_match; lia.
  - assert (n / d < 0)%Z by (apply Z.div_lt_upper_bound; lia).
    repeat case_match; lia.
Qed.

Lemma Q_scaled_sign (d : nat) (q : Q) :
  ((0 <= Qnum q -> 0 <= Q_scaled d q) /\ (Qnum q < 0 -> Q_scaled d q <= 0))%Z.
Proof.
  unfold Q_scaled.
  destruct (round_half_even_sign (Qnum q * 10 ^ Z.of_nat d) (Z.pos (Qden q)))
    as [H1 H2]; [lia|].
  assert (0 < 10 ^ Z.of_nat d)%Z by (apply Z.pow_pos_nonneg; lia).
  split; intros Hq; [apply H1|apply H2]; nia.
Qed.

Lemma eval_unsigned_decimal_text (ip fp : Z) (d : nat) :
  (0 <= ip)%Z -> (0 <= fp < 10 ^ Z.of_nat (S d))%Z ->
  eval_unsigned_decimal (str_Z ip ++ "."%char :: pad_digits (S d) fp)
  = Some ((ip * 10 ^ Z.of_nat (S d) + fp)%Z, S d).
Proof.
  intros Hip Hfp.
  pose proof (str_Z_nonneg_chars ip Hip) as Hdig.
  set (frac := pad_digits (S d) fp).
  assert (Hfrac : frac ≠ []).
  { intros E'. apply (f_equal length) in E'. subst frac.
    rewrite pad_digits_length in E'. done. }
  unfold eval_unsigned_decimal.
  rewrite split_on_app by (by apply (forallb_not_elem is_digit)).
  rewrite split_on_absent
    by (apply (forallb_not_elem is_digit); [done|apply pad_digits_chars]).
  rewrite eval_int_literal_str.
  subst frac. rewrite digits_value_pad, pad_digits_length.
  rewrite bool_decide_eq_false_2 by done.
  rewrite (proj2 (Z.ltb_ge ip 0)) by done. cbn [orb].
  by rewrite Z.mod_small.
Qed.

Lemma eval_decimal_text (neg : bool) (ip fp : Z) (d : nat) :
  (0 <= ip)%Z -> (0 <= fp < 10 ^ Z.of_nat (S d))%Z ->
  eval_atom ((if neg then ["-"%char] else []) ++ str_Z ip
             ++ "."%char :: pad_digits (S d) fp)
  = Some (PyDec (if neg then - (ip * 10 ^ Z.of_nat (S d) + fp)
                 else ip * 10 ^ Z.of_nat (S d) + fp) (S d))%Z.
Proof.
  intros Hip Hfp.
  pose proof (eval_unsigned_decimal_text ip fp d Hip Hfp) as Hbody.
  pose proof (str_Z_nonneg_chars ip Hip) as Hdig.
  destruct (str_Z_nonempty ip) as (c & t & E & _).
  assert (Hc : is_digit c = true).
  { rewrite E in Hdig. cbn [forallb] in Hdig. by apply andb_prop in Hdig as [? _]. }
  assert (Hdot : "."%char ∈ str_Z ip ++ "."%char :: pad_digits (S d) fp).
  { apply elem_of_app. right. apply elem_of_cons. by left. }
  unfold eval_atom. destruct neg.
  - cbn [app]. rewrite eval_str_literal_not_quote by done.
    rewrite bool_decide_eq_true_2 by (apply elem_of_cons; by right).
    unfold eval_decimal. rewrite bool_decide_eq_true_2 by done.
    by rewrite Hbody.
  - cbn [app].
    assert (Hshape : str_Z ip ++ "."%char :: pad_digits (S d) fp
                     = c :: (t ++ "."%char :: pad_digits (S d) fp)).
    { by rewrite E. }
    assert (Hcm : c ≠ "-"%char) by (intros ->; by vm_compute in Hc).
    assert (Hcq : c ≠ "'"%char) by (intros ->; by vm_compute in Hc).
    rewrite bool_decide_eq_true_2 by done.
    rewrite Hshape at 1. rewrite eval_str_literal_not_quote by done.
    unfold eval_decimal. rewrite Hshape at 1.
    rewrite bool_decide_eq_false_2 by done.
    by rewrite Hbody.
Qed.
End DecimalText.

Section Fields.
Arguments digit_char : simpl never.
Arguments digit_value : simpl never.

Lemma int_char_field c : int_char c = true -> field_char c = true.
Proof. intros Hc. unfold field_char. by rewrite Hc. Qed.

Lemma field_char_ascii c : field_char c = true -> is_ascii c = true.
Proof. destruct c as [[] [] [] [] [] [] [] []]; by vm_compute. Qed.

Lemma field_char_not_tab c : field_char c = true -> c ≠ tab.
Proof. intros Hc ->. by vm_compute in Hc. Qed.

Lemma field_char_not_newline c : field_char c = true -> c ≠ newline.
Proof. intros Hc ->. by vm_compute in Hc. Qed.

Lemma str_Z_field (z : Z) : forallb field_char (str_Z z) = true.
Proof. apply (forallb_imp _ _ _ int_char_field), str_Z_chars. Qed.

Lemma join_field (board : list Z) :
  forallb field_char (join (lit ", ") (str_Z <$> board)) = true.
Proof.
  induction board as [|x [|y rest] IH].
  - done.
  - apply str_Z_field.
  - change (join (lit ", ") (str_Z <$> x :: y :: rest))
      with (str_Z x ++ ","%char :: " "%char :: join (lit ", ") (str_Z <$> y :: rest)).
    rewrite forallb_app, str_Z_field. cbn [forallb andb]. by rewrite IH.
Qed.

Lemma repr_board_field (board : Board) :
  forallb field_char (repr_board board) = true.
Proof.
  rewrite repr_board_shape. cbn [forallb]. rewrite forallb_app.
  replace (forallb field_char (board_body board)) with true; [done|].
  symmetry. destruct board as [|x [|y rest]]; try apply join_field.
  unfold board_body. by rewrite forallb_app, str_Z_field.
Qed.

Lemma repr_state_field (state : State) :
  forallb field_char (repr_state state) = true.
Proof.
  rewrite repr_state_shape. cbn [forallb]. rewrite !forallb_app.
  rewrite repr_board_field. cbn [forallb andb].
  by destruct state.2.
Qed.

Lemma pad_digits_field (d : nat) (n : Z) :
  forallb field_char (pad_digits d n) = true.
Proof.
  apply (forallb_imp is_digit); [|apply pad_digits_chars].
  intros c Hc. by apply int_char_field, is_digit_int.
Qed.

Lemma Q_format_field (d : nat) (q : Q) :
  forallb field_char (Q_format_fixed d q) = true.
Proof.
  unfold Q_format_fixed. rewrite !forallb_app.
  rewrite str_Z_field, pad_digits_field. by destruct (Qnum q <? 0)%Z.
Qed.

(** An atom is evaluated as it stands. *)
Lemma py_eval_atom (t t' : text) (c c' : ascii) (v : PyVal) :
  t = c :: t' -> c ≠ "("%char ->
  (exists t0, t = t0 ++ [c']) -> c' ≠ newline ->
  eval_atom t = Some v -> py_eval t = Returns v.
Proof.
  intros Ht Hc [t0 Hlast] Hc' Hv. unfold py_eval.
  rewrite Hlast, strip_newline_other by done. rewrite <- Hlast.
  rewrite bool_decide_eq_false_2 by (by rewrite Ht).
  rewrite Ht at 1. cbn [length]. rewrite eval_expr_S.
  rewrite Ht at 1. rewrite unparen_not_open by done. by rewrite Hv.
Qed.

Lemma py_eval_format (d : nat) (q : Q) :
  py_eval (Q_format_fixed (S d) q) = Returns (PyDec (Q_scaled (S d) q) (S d)).
Proof.
  set (D := (10 ^ Z.of_nat (S d))%Z).
  assert (HD : (0 < D)%Z) by (apply Z.pow_pos_nonneg; lia).
  set (k := Z.abs (Q_scaled (S d) q)).
  assert (Hip : (0 <= k / D)%Z) by (apply Z.div_pos; lia).
  assert (Hfp : (0 <= k mod D < D)%Z) by (apply Z.mod_pos_bound; lia).
  pose proof (eval_decimal_text (Qnum q <? 0)%Z (k / D) (k mod D) d Hip Hfp) as Hev.
  fold D in Hev.
  assert (Hval : (if (Qnum q <? 0)%Z then - (k / D * D + k mod D)
                  else k / D * D + k mod D)%Z = Q_scaled (S d) q).
  { pose proof (Z.div_mod k D ltac:(lia)) as Hdm.
    destruct (Q_scaled_sign (S d) q) as [Hp Hn].
    destruct (Z.ltb_spec (Qnum q) 0); subst k; lia. }
  rewrite Hval in Hev.
  assert (Htext : Q_format_fixed (S d) q
                  = (if (Qnum q <? 0)%Z then ["-"%char] else []) ++ str_Z (k / D)
                    ++ "."%char :: pad_digits (S d) (k mod D)).
  { unfold Q_format_fixed. fold D k. by destruct (Qnum q <? 0)%Z. }
  rewrite Htext.
  destruct (str_Z_nonempty (k / D)) as (c & t & E & _).
  pose proof (str_Z_nonneg_chars (k / D) Hip) as Hdig.
  assert (Hcd : is_digit c = true).
  { rewrite E in Hdig. cbn [forallb] in Hdig. by apply andb_prop in Hdig as [? _]. }
  assert (Hfirst : exists c0 t0,
             (if (Qnum q <? 0)%Z then ["-"%char] else []) ++ str_Z (k / D)
             ++ "."%char :: pad_digits (S d) (k mod D) = c0 :: t0
             /\ c0 ≠ "("%char).
  { destruct (Qnum q <? 0)%Z.
    - eexists _, _. split; [done|done].
    - rewrite E. eexists _, _. split; [done|]. intros ->. by vm_compute in Hcd. }
  destruct Hfirst as (c0 & t0 & Hshape & Hc0).
  eapply (py_eval_atom _ t0 c0 (digit_char ((k mod D) mod 10))); try done.
  - cbn [pad_digits].
    exists ((if (Qnum q <? 0)%Z then ["-"%char] else []) ++ str_Z (k / D)
            ++ "."%char :: pad_digits d ((k mod D) / 10)).
    by rewrite <- !app_assoc.
  - intros Hnl.
    pose proof (is_digit_char ((k mod D) mod 10)
                  ltac:(apply Z.mod_pos_bound; lia)) as Hdg.
    rewrite Hnl in Hdg. by vm_compute in Hdg.
Qed.

Lemma py_eval_int_line (z : Z) : py_eval (str_Z z ++ [newline]) = Returns (PyInt z).
Proof.
  unfold py_eval. rewrite strip_newline_snoc.
  rewrite bool_decide_eq_false_2 by apply str_Z_ne_nil.
  destruct (str_Z_nonempty z) as (c & t & E & _).
  rewrite E at 1. cbn [length]. apply (f_equal (fun o => match o with Some v => Returns v | None => Unmodelled end)
                                         (eval_expr_int (length t) z)) .
Qed.
End Fields.

Section LoadLine.
Context `{JsonLib Q}.

Lemma format_line_split (state : State) (v : Q) (n : Z) :
  split_on tab (format_line state v n)
  = [repr_state state; Q_format_fixed 3 v; str_Z n ++ [newline]].
Proof.
  unfold format_line. cbn [app num_format3 Q_NumberText].
  rewrite split_on_app.
  2:{ intros Hin. apply list_elem_of_In in Hin.
      pose proof (repr_state_field state) as Hf. rewrite forallb_forall in Hf.
      by apply (field_char_not_tab _ (Hf _ Hin)). }
  rewrite split_on_app.
  2:{ intros Hin. apply list_elem_of_In in Hin.
      pose proof (Q_format_field 3 v) as Hf. rewrite forallb_forall in Hf.
      by apply (field_char_not_tab _ (Hf _ Hin)). }
  rewrite split_on_absent; [done|].
  intros Hin. apply elem_of_app in Hin as [Hin|Hin].
  - apply list_elem_of_In in Hin.
    pose proof (str_Z_field n) as Hf. rewrite forallb_forall in Hf.
    by apply (field_char_not_tab _ (Hf _ Hin)).
  - by apply list_elem_of_singleton in Hin.
Qed.

Lemma format_line_ascii (state : State) (v : Q) (n : Z) :
  forallb is_ascii (format_line state v n) = true.
Proof.
  unfold format_line. cbn [num_format3 Q_NumberText].
  rewrite !forallb_app.
  rewrite (forallb_imp _ _ _ field_char_ascii (repr_state_field state)).
  rewrite (forallb_imp _ _ _ field_char_ascii (Q_format_field 3 v)).
  rewrite (forallb_imp _ _ _ field_char_ascii (str_Z_field n)).
  done.
Qed.

Lemma load_line_format (state : State) (v : Q) (n : Z) (s0 : Store Q) :
  load_line (format_line state v n) s0
  = (Returns tt,
     mkStore (<[state := Q_round3 v]> (st_values s0))
             (<[state := n]> (st_visits s0))).
Proof.
  unfold load_line, decode_ascii. rewrite format_line_ascii.
  cbn [outcome_bind]. rewrite format_line_split.
  unfold eval_fields, py_index. cbn [lookup list_lookup outcome_bind].
  rewrite py_eval_state. cbn [outcome_bind].
  rewrite (py_eval_format 2 v). cbn [outcome_bind].
  rewrite py_eval_int_line. cbn [outcome_bind].
  rewrite as_state_val. done.
Qed.

Lemma format_line_lines (state : State) (v : Q) (n : Z) (rest : text) :
  lines_of (format_line state v n ++ rest)
  = format_line state v n :: lines_of rest.
Proof.
  unfold format_line. cbn [num_format3 Q_NumberText].
  set (body := repr_state state ++ [tab] ++ Q_format_fixed 3 v ++ [tab] ++ str_Z n).
  replace ((repr_state state ++ [tab] ++ Q_format_fixed 3 v ++ [tab]
            ++ str_Z n ++ [newline]) ++ rest)
    with (body ++ newline :: rest)
    by (subst body; by rewrite <- !app_assoc).
  replace (repr_state state ++ [tab] ++ Q_format_fixed 3 v ++ [tab]
           ++ str_Z n ++ [newline])
    with (body ++ [newline])
    by (subst body; by rewrite <- !app_assoc).
  apply lines_of_app. subst body.
  intros Hin. rewrite !elem_of_app in Hin.
  assert (Hnot : forall t, forallb field_char t = true -> newline ∉ t).
  { intros t Ht Hn. apply list_elem_of_In in Hn. rewrite forallb_forall in Ht.
    by apply (field_char_not_newline _ (Ht _ Hn)). }
  destruct Hin as [Hin|[Hin|[Hin|[Hin|Hin]]]].
  - by apply (Hnot _ (repr_state_field state)).
  - by apply list_elem_of_singleton in Hin.
  - by apply (Hnot _ (Q_format_field 3 v)).
  - by apply list_elem_of_singleton in Hin.
  - by apply (Hnot _ (str_Z_field n)).
Qed.
End LoadLine.

Section SaveLoad.
Context `{JsonLib Q}.

Lemma visits_read_spec (state : State) (s : Store Q) :
  (visits_read state s).1 = visits_of state s
  /\ st_values (visits_read state s).2 = st_values s
  /\ forall st, visits_of st (visits_read state s).2 = visits_of st s.
Proof.
  unfold visits_read, visits_of.
  destruct (st_visits s !! state) as [n|] eqn:E; cbn [fst snd]; [done|].
  split; [done|]. split; [done|]. intros st. cbn [st_visits].
  destruct (decide (state = st)) as [->|Hne].
  - by rewrite lookup_insert_eq, E.
  - by rewrite lookup_insert_ne.
Qed.

Lemma entries_text_ext (vis vis' : State -> Z) (items : list (State * Q)) :
  (forall st, vis st = vis' st) -> entries_text vis items = entries_text vis' items.
Proof.
  intros Hv. induction items as [|e rest IH]; [done|].
  cbn [entries_text]. by rewrite Hv, IH.
Qed.

Lemma save_lines_text (items : list (State * Q)) (s : Store Q) :
  (save_lines items s).1 = entries_text (fun st => visits_of st s) items
  /\ forall st, visits_of st (save_lines items s).2 = visits_of st s.
Proof.
  revert s. induction items as [|[state v] rest IH]; intros s; [done|].
  cbn [save_lines entries_text fst snd].
  destruct (visits_read_spec state s) as (Hn & _ & Hv).
  destruct (visits_read state s) as [vcnt s1]. cbn [fst snd] in *.
  destruct (IH s1) as [Ht Hv'].
  destruct (save_lines rest s1) as [t s2]. cbn [fst snd] in *.
  split.
  - rewrite Hn, Ht. f_equal. by apply entries_text_ext.
  - intros st. by rewrite Hv', Hv.
Qed.

Lemma load_lines_entries (vis : State -> Z) (items : list (State * Q)) (s0 : Store Q) :
  load_lines (lines_of (entries_text vis items)) s0
  = (Returns tt, load_entries vis items s0).
Proof.
  revert s0. induction items as [|e rest IH]; intros s0; [done|].
  cbn [entries_text load_entries]. rewrite format_line_lines.
  cbn [load_lines]. rewrite load_line_format. apply IH.
Qed.

Lemma load_entries_absent (vis : State -> Z) (items : list (State * Q))
    (s0 : Store Q) (st : State) :
  st ∉ items.*1 ->
  st_values (load_entries vis items s0) !! st = st_values s0 !! st
  /\ st_visits (load_entries vis items s0) !! st = st_visits s0 !! st.
Proof.
  revert s0. induction items as [|e rest IH]; intros s0 Hn; [done|].
  rewrite fmap_cons in Hn. apply not_elem_of_cons in Hn as [Hne Hn].
  cbn [load_entries]. destruct (IH (load_entry s0 e (vis e.1)) Hn) as [-> ->].
  unfold load_entry. cbn [st_values st_visits].
  by rewrite !lookup_insert_ne.
Qed.

Lemma load_entries_present (vis : State -> Z) (items : list (State * Q))
    (s0 : Store Q) (st : State) (v : Q) :
  NoDup items.*1 -> (st, v) ∈ items ->
  st_values (load_entries vis items s0) !! st = Some (Q_round3 v)
  /\ st_visits (load_entries vis items s0) !! st = Some (vis st).
Proof.
  revert s0. induction items as [|e rest IH]; intros s0 Hnd Hin.
  - by apply elem_of_nil in Hin.
  - rewrite fmap_cons in Hnd. apply NoDup_cons in Hnd as [Hfresh Hnd].
    cbn [load_entries]. apply elem_of_cons in Hin as [<-|Hin].
    + cbn [fst snd] in *.
      destruct (load_entries_absent vis rest (load_entry s0 (st, v) (vis st)) st Hfresh)
        as [-> ->].
      unfold load_entry. cbn [st_values st_visits fst snd].
      by rewrite !lookup_insert_eq.
    + by apply IH.
Qed.

Lemma round_half_even_close (n d : Z) :
  (0 < d)%Z -> (2 * Z.abs (round_half_even n d * d - n) <= d)%Z.
Proof.
  intros Hd. unfold round_half_even.
  pose proof (Z.div_mod n d ltac:(lia)) as Hdm.
  pose proof (Z.mod_pos_bound n d Hd) as Hr.
  repeat case_match; lia.
Qed.

Lemma Q_round3_close (q : Q) : (Qabs (Q_round3 q - q) <= 1 # 2000)%Q.
Proof.
  unfold Q_round3, Q_of_decimal, Q_scaled.
  change (Z.to_pos (10 ^ Z.of_nat 3)) with 1000%positive.
  change (10 ^ Z.of_nat 3)%Z with 1000%Z.
  destruct q as [n d].
  pose proof (round_half_even_close (n * 1000) (Z.pos d) ltac:(lia)) as Hc.
  cbn [Qnum Qden] in *.
  set (k := round_half_even (n * 1000) (Z.pos d)) in *.
  apply Qabs_Qle_condition. unfold Qle, Qminus, Qplus, Qopp. cbn [Qnum Qden].
  rewrite !Pos2Z.inj_mul. split; nia.
Qed.
End SaveLoad.

Section RoundTrip.
Context `{JsonLib Q}.

End RoundTrip.

Section LoadFrame.
Context {V : Type} `{Number V} `{NumberText V} `{JsonLib V}.

(** A line changes nothing, or stores one entry under its state. *)
Lemma load_line_cases (line : text) (s : Store V) :
  (load_line line s).2 = s
  \/ exists state val vcnt,
       line_state line = Some state
       /\ (load_line line s).1 = Returns tt
       /\ (load_line line s).2
          = mkStore (<[state := val]> (st_values s)) (<[state := vcnt]> (st_visits s)).
Proof.
  unfold load_line, line_state, eval_fields, py_index.
  destruct (decode_ascii line) as [decoded| |];
    cbn [outcome_bind lookup list_lookup fst snd]; [|by left..].
  destruct (split_on tab decoded) as [|e0 elms];
    cbn [outcome_bind lookup list_lookup fst snd]; [by left|].
  destruct (py_eval e0) as [v0| |];
    cbn [outcome_bind lookup list_lookup fst snd]; [|by left..].
  destruct elms as [|e1 elms];
    cbn [outcome_bind lookup list_lookup fst snd]; [by left|].
  destruct (py_eval e1) as [v1| |];
    cbn [outcome_bind lookup list_lookup fst snd]; [|by left..].
  destruct elms as [|e2 elms];
    cbn [outcome_bind lookup list_lookup fst snd]; [by left|].
  destruct (py_eval e2) as [v2| |];
    cbn [outcome_bind lookup list_lookup fst snd]; [|by left..].
  destruct (as_state v0) as [state|]; [|by left].
  destruct (as_number v1) as [val|]; [|by left].
  destruct (as_int v2) as [vcnt|]; [|by left].
  right. by exists state, val, vcnt.
Qed.

Lemma load_line_frame (line : text) (s : Store V) :
  store_le s (load_line line s).2
  /\ forall st, line_state line ≠ Some st -> same_at st s (load_line line s).2.
Proof.
  destruct (load_line_cases line s) as [->|(state & val & vcnt & Hst & _ & ->)].
  - by repeat split.
  - split; [split|].
    + intros st Hs. cbn [st_values]. destruct (decide (state = st)) as [->|Hne].
      * rewrite lookup_insert_eq. by eexists.
      * by rewrite lookup_insert_ne.
    + intros st Hs. cbn [st_visits]. destruct (decide (state = st)) as [->|Hne].
      * rewrite lookup_insert_eq. by eexists.
      * by rewrite lookup_insert_ne.
    + intros st Hne. rewrite Hst in Hne. unfold same_at. cbn [st_values st_visits].
      rewrite !lookup_insert_ne by congruence. done.
Qed.

Lemma load_lines_frame (lines : list text) (s : Store V) :
  store_le s (load_lines lines s).2
  /\ forall st, (forall line, line ∈ lines -> line_state line ≠ Some st) ->
                same_at st s (load_lines lines s).2.
Proof.
  revert s. induction lines as [|line rest IH]; intros s.
  - by repeat split.
  - cbn [load_lines].
    destruct (load_line_frame line s) as [Hle Hsame].
    destruct (load_line line s) as [[[]| |] s1] eqn:E; cbn [snd] in *.
    + destruct (IH s1) as [Hle' Hsame']. split.
      * destruct Hle as [A1 A2], Hle' as [B1 B2]. split; intros st Hs; auto.
      * intros st Hst.
        destruct (Hsame st) as [C1 C2]; [apply Hst; by left|].
        destruct (Hsame' st) as [D1 D2]; [intros l Hl; apply Hst; by right|].
        split; congruence.
    + split; [done|]. intros st Hst. apply Hsame, Hst. by left.
    + split; [done|]. intros st Hst. apply Hsame, Hst. by left.
Qed.

(** Claim C10. [load_model] adds to the tables: whatever the outcome of the
  call, every state that had a value or a visit count still has one, and
  a state that no line after the first evaluates to in its first field
  has the value and the visit count it had. *)
Theorem load_model_merges (file : text) (s : Store V) :
  let s' := (load_model file s).2 in
  (forall st, is_Some (st_values s !! st) -> is_Some (st_values s' !! st))
  /\ (forall st, is_Some (st_visits s !! st) -> is_Some (st_visits s' !! st))
  /\ (forall st,
        (forall line, line ∈ drop 1 (lines_of file) -> line_state line ≠ Some st) ->
        st_values s' !! st = st_values s !! st
        /\ st_visits s' !! st = st_visits s !! st).
Proof.
  cbv zeta. unfold load_model.
  destruct (lines_of file) as [|first rest].
  - cbn [snd]. by repeat split.
  - cbn [drop].
    destruct (json_loads first) as [info| |]; cbn [snd]; [|by repeat split..].
    destruct (load_lines_frame rest s) as [[Hle1 Hle2] Hsame].
    destruct (load_lines rest s) as [[[]| |] s1]; cbn [snd] in *;
      (split; [done|]; split; [done|]; intros st Hst; by apply Hsame).
Qed.

Lemma eval_fields_short (elms : list text) :
  (length elms < 3)%nat -> Forall evaluates elms ->
  eval_fields elms = Raises IndexError.
Proof.
  intros Hlen Hev. unfold eval_fields, py_index.
  destruct elms as [|e0 elms]; [done|].
  apply Forall_cons in Hev as [[v0 E0] Hev].
  cbn [lookup list_lookup outcome_bind]. rewrite E0. cbn [outcome_bind].
  destruct elms as [|e1 elms]; [done|].
  apply Forall_cons in Hev as [[v1 E1] Hev].
  cbn [lookup list_lookup outcome_bind]. rewrite E1. cbn [outcome_bind].
  destruct elms as [|e2 elms]; [done|]. cbn [length] in Hlen. lia.
Qed.

Lemma py_eval_empty (e : text) : strip_newline e = [] -> py_eval e = Raises SyntaxError.
Proof. intros E. unfold py_eval. by rewrite E. Qed.

Lemma eval_fields_empty (pre post : list text) (e : text) :
  (length pre < 3)%nat -> Forall evaluates pre -> strip_newline e = [] ->
  eval_fields (pre ++ e :: post) = Raises SyntaxError.
Proof.
  intros Hlen Hev He. apply py_eval_empty in He.
  unfold eval_fields, py_index.
  destruct pre as [|e0 pre];
    cbn [app lookup list_lookup outcome_bind]; [by rewrite He|].
  apply Forall_cons in Hev as [[v0 E0] Hev]. rewrite E0. cbn [outcome_bind].
  destruct pre as [|e1 pre];
    cbn [app lookup list_lookup outcome_bind]; [by rewrite He|].
  apply Forall_cons in Hev as [[v1 E1] Hev]. rewrite E1. cbn [outcome_bind].
  destruct pre as [|e2 pre];
    cbn [app lookup list_lookup outcome_bind]; [by rewrite He|].
  cbn [length] in Hlen. lia.
Qed.

Lemma eval_fields_extra (e0 e1 e2 : text) (extra : list text) :
  eval_fields (e0 :: e1 :: e2 :: extra) = eval_fields [e0; e1; e2].
Proof. done. Qed.

Lemma load_lines_abort (pre post : list text) (line : text) (s s1 s2 : Store V)
    (e : exn) :
  load_lines pre s = (Returns tt, s1) -> load_line line s1 = (Raises e, s2) ->
  load_lines (pre ++ line :: post) s = (Raises e, s1) /\ s2 = s1.
Proof.
  revert s. induction pre as [|l pre IH]; intros s Hpre Hline.
  - cbn [load_lines] in Hpre. injection Hpre as ->.
    cbn [app load_lines]. rewrite Hline.
    destruct (load_line_cases line s1) as [E|(st & val & vcnt & _ & E & _)].
    + rewrite Hline in E. cbn [snd] in E. by subst.
    + rewrite Hline in E. done.
  - cbn [app load_lines] in *.
    destruct (load_line l s) as [[[]| |] s'] eqn:El; try done.
    by apply IH.
Qed.

(** Claim C7, amended. [load_model] gives the first three tab-separated
  fields of a line to [eval]. On a line of fewer than three fields, all
  of which evaluate, it raises [IndexError]; on a line with an empty
  field among the first three, those before it evaluating, it raises
  [SyntaxError]; the fields after the third are not looked at, so a line
  of more than three fields is loaded as its first three. A line that
  raises ends the call with that exception: the lines before it stay
  loaded, the tables are as they were when the line was reached, and no
  later line is read. [eval] computes: the text [1+0] has the value 1. *)
Theorem load_model_malformed_lines :
  (forall (line : text) (s : Store V),
      forallb is_ascii line = true ->
      let elms := split_on tab line in
      ((length elms < 3)%nat -> Forall evaluates elms ->
       load_line line s = (Raises IndexError, s))
      /\ (forall pre e post,
            elms = pre ++ e :: post -> (length pre < 3)%nat ->
            Forall evaluates pre -> strip_newline e = [] ->
            load_line line s = (Raises SyntaxError, s))
      /\ (forall e0 e1 e2 extra,
            elms = e0 :: e1 :: e2 :: extra ->
            load_line line s
            = match eval_fields [e0; e1; e2] with
              | Returns (state, val, vcnt) =>
                  (Returns tt,
                   mkStore (<[state := val]> (st_values s))
                           (<[state := vcnt]> (st_visits s)))
              | Raises e => (Raises e, s)
              | Unmodelled => (Unmodelled, s)
              end))
  /\ (forall (first : text) (pre post : list text) (line : text)
             (s s1 s2 : Store V) (e : exn) (info : Info V) (file : text),
        lines_of file = first :: pre ++ line :: post ->
        json_loads first = Returns info ->
        load_lines pre s = (Returns tt, s1) ->
        load_line line s1 = (Raises e, s2) ->
        load_model file s = (Raises e, s1))
  /\ py_eval (lit "1+0") = Returns (PyInt 1).
Proof.
  split; [|split; [|done]].
  - intros line s Hascii elms.
    assert (Hl : load_line line s
              = match outcome_bind (Returns line) (fun d => eval_fields (split_on tab d))
                      with
                | Returns (state, val, vcnt) =>
                    (Returns tt,
                     mkStore (<[state := val]> (st_values s))
                             (<[state := vcnt]> (st_visits s)))
                | Raises e => (Raises e, s)
                | Unmodelled => (Unmodelled, s)
                end).
    { unfold load_line, decode_ascii. by rewrite Hascii. }
    cbn [outcome_bind] in Hl. fold elms in Hl.
    split; [|split].
    + intros Hlen Hev. by rewrite Hl, eval_fields_short.
    + intros pre e post Helms Hlen Hev He.
      by rewrite Hl, Helms, eval_fields_empty.
    + intros e0 e1 e2 extra Helms. by rewrite Hl, Helms, eval_fields_extra.
  - intros first pre post line s s1 s2 e info file Hlines Hjson Hpre Hline.
    unfold load_model. rewrite Hlines, Hjson.
    destruct (load_lines_abort pre post line s s1 s2 e Hpre Hline) as [-> _].
    done.
Qed.
End LoadFrame.

Section Loops.
Context {V : Type} `{Number V} `{GameEnv} `{Random V} `{EnvObject V}.
Context `{!BaseAgent V}.

Lemma ask_values_keeps self state (ava_actions : list Action) (s : Store V) st v :
  st_values s !! st = Some v ->
  st_values (ask_values self state ava_actions s).2 !! st = Some v.
Proof.
  revert s. induction ava_actions as [|a rest IH]; intros s Hv; [done|].
  cbn [ask_values].
  pose proof (ask_value_keeps self (after_action_state state a) st s v Hv) as Hk.
  destruct (ask_value self (after_action_state state a) s) as [nval s1].
  cbn [snd] in Hk.
  assert (Hr : st_values (visits_read (after_action_state state a) s1).2 !! st
               = Some v).
  { unfold visits_read. by destruct (st_visits s1 !! _). }
  destruct (visits_read (after_action_state state a) s1) as [vc s2].
  cbn [snd] in Hr. specialize (IH s2 Hr).
  by destruct (ask_values self state rest s2) as [vals s3].
Qed.

Lemma greedy_action_keeps self state (ava_actions : list Action) (s : Store V) g st v :
  st_values s !! st = Some v ->
  st_values (greedy_action self state ava_actions s g).1.2 !! st = Some v.
Proof.
  intros Hv. unfold greedy_action.
  destruct (0 <? length ava_actions)%nat; [|done].
  pose proof (ask_values_keeps self state ava_actions s st v Hv) as Hk.
  destruct (ask_values self state ava_actions s) as [vals s1]. cbn [snd] in Hk.
  destruct (match mark self with
            | MarkO => best_val_indices vals py_max
            | MarkX => best_val_indices vals py_min
            end) as [indices|e]; [|done].
  destruct (random_choice indices g) as [[aidx|e] g']; [|done].
  by destruct (ava_actions !! aidx).
Qed.

Lemma act_keeps self state (ava_actions : list Action) (s : Store V) g st v :
  st_values s !! st = Some v ->
  st_values (act self state ava_actions s g).1.2 !! st = Some v.
Proof.
  intros Hv. unfold act, egreedy_policy.
  destruct (rng_random g) as [e g1].
  destruct (num_ltb e _).
  - unfold random_action. by destruct (random_choice ava_actions g1).
  - by apply greedy_action_keeps.
Qed.

Lemma backup_keeps_other self state nstate reward (s : Store V) st v :
  st ≠ state -> st_values s !! st = Some v ->
  st_values (backup self state nstate reward s) !! st = Some v.
Proof.
  intros Hne Hv. unfold backup.
  pose proof (ask_value_keeps self state st s v Hv) as Hk1.
  destruct (ask_value self state s) as [val s1]. cbn [snd] in Hk1.
  pose proof (ask_value_keeps self nstate st s1 v Hk1) as Hk2.
  destruct (ask_value self nstate s1) as [nval s2]. cbn [snd] in Hk2.
  by rewrite set_state_value_values_ne.
Qed.

(** What the last turn of an episode leaves in the table: the reward is
    stored for the state the move was made from, and a value that the
    terminal state already had stays. *)
Lemma learn_turn_done (agents : list (TDAgent V)) (state nstate : State)
    (m : Mark) (reward : V) (w w' : World) :
  learn_turn agents state m w = (Ok (nstate, reward, true), w') ->
  st_values (w_store w') !! state = Some reward
  /\ (forall v, nstate ≠ state -> st_values (w_store w) !! nstate = Some v ->
                st_values (w_store w') !! nstate = Some v).
Proof.
  unfold learn_turn. destruct (agent_by_mark mark agents m) as [agent|]; [|done].
  pose proof (fun st v => act_keeps agent state (env_available_actions (w_env w))
                            (w_store w) (w_rng w) st v) as Hact.
  destruct (act agent state (env_available_actions (w_env w)) (w_store w) (w_rng w))
    as [[[action|e] s1] g1]; [|done]. cbn [fst snd] in Hact.
  destruct (env_step action (w_env w)) as [[[nstate' reward'] done'] env1].
  intros [= -> -> -> <-]. cbn [w_store]. split.
  - apply set_state_value_values_eq.
  - intros v Hne Hv. rewrite set_state_value_values_ne by done.
    apply backup_keeps_other; [done|]. by apply Hact.
Qed.

Lemma learn_loop_last (fuel : nat) (agents : list (TDAgent V)) (state tstate : State)
    (m : Mark) (reward : V) (w w' : World) :
  learn_loop fuel agents state m w = Some (Ok (tstate, reward), w') ->
  exists last m0 w0,
    learn_turn agents last m0 w0 = (Ok (tstate, reward, true), w')
    /\ st_values (w_store w') !! last = Some reward.
Proof.
  revert state m w. induction fuel as [|fuel IH]; intros state m w; [done|].
  cbn [learn_loop].
  destruct (learn_turn agents state m w) as [[[[nstate r] [|]]|e] w1] eqn:E.
  - intros [= -> -> ->]. exists state, m, w. split; [done|].
    by apply (learn_turn_done _ _ _ _ _ _ _ E).
  - apply IH.
  - done.
Qed.

Lemma bench_episodes_length (fuel n : nat) (agents : list Agent) (start : Mark)
    (results results' : list V) (w w' : World) :
  bench_episodes fuel n agents start results w = Some (Ok results', w') ->
  length results' = (length results + n)%nat.
Proof.
  revert start results w. induction n as [|n IH]; intros start results w.
  - cbn [bench_episodes]. intros [= -> ->]. lia.
  - cbn [bench_episodes].
    destruct (env_reset (env_set_start_mark start (w_env w))) as [state env2].
    destruct (bench_loop fuel agents state state.2 _) as [[[reward|e] w1]|]; [|done..].
    intros Hb. apply IH in Hb. rewrite length_app in Hb. cbn [length] in Hb. lia.
Qed.

Lemma bench_tally_sum (results : list V) :
  let t := bench_tally results in
  base_win t = py_count (num_of_Z 1) results
  /\ td_win t = py_count (num_of_Z (-1)) results
  /\ draw t = (Z.of_nat (length results) - base_win t - td_win t)%Z
  /\ (base_win t + td_win t + draw t = Z.of_nat (length results))%Z.
Proof. cbv zeta. unfold bench_tally. cbn [base_win td_win draw]. lia. Qed.

(** The reward that an episode of the benchmark appends to [results] is
    the one that [env.step] returned together with [done]. *)
Lemma bench_loop_reward (fuel : nat) (agents : list Agent) (state : State)
    (m : Mark) (reward : V) (w w' : World) :
  bench_loop fuel agents state m w = Some (Ok reward, w') ->
  exists action env nstate, (env_step action env).1 = (nstate, reward, true).
Proof.
  revert state m w. induction fuel as [|fuel IH]; intros state m w; [done|].
  cbn [bench_loop].
  destruct (agent_by_mark agent_mark agents m) as [agent|]; [|done].
  destruct (agent_act agent state (env_available_actions (w_env w))
              (w_store w) (w_rng w)) as [[[action|e] s1] g1]; [|done].
  destruct (env_step action (w_env w)) as [[[state1 r] [|]] env1] eqn:Es.
  - intros [= -> <-]. exists action, (w_env w), state1. by rewrite Es.
  - apply IH.
Qed.

Lemma bench_episodes_results (fuel n : nat) (agents : list Agent) (start : Mark)
    (results results' : list V) (w w' : World) :
  bench_episodes fuel n agents start results w = Some (Ok results', w') ->
  exists rewards,
    results' = results ++ rewards
    /\ length rewards = n
    /\ Forall (fun r => exists action env nstate,
                          (env_step action env).1 = (nstate, r, true)) rewards.
Proof.
  revert start results w. induction n as [|n IH]; intros start results w.
  - cbn [bench_episodes]. intros [= -> ->]. exists [].
    by rewrite app_nil_r.
  - cbn [bench_episodes].
    destruct (env_reset (env_set_start_mark start (w_env w))) as [state env2].
    destruct (bench_loop fuel agents state state.2 _) as [[[reward|e] w1]|] eqn:E;
      [|done..].
    intros Hb. apply IH in Hb as (rewards & -> & Hlen & Hall).
    exists (reward :: rewards). rewrite <- app_assoc. split; [done|].
    split; [cbn [length]; by rewrite Hlen|].
    constructor; [|done]. by apply bench_loop_reward in E.
Qed.

Lemma filter_length_split {A : Type} (p q : A -> bool) (l : list A) :
  (forall x, p x = true -> q x = false) ->
  length l
  = (length (List.filter p l) + length (List.filter q l)
     + length (List.filter (fun x => negb (p x) && negb (q x)) l))%nat.
Proof.
  intros Hpq. induction l as [|x l IH]; [done|]. cbn [List.filter length].
  specialize (Hpq x).
  destruct (p x), (q x); cbn [negb andb length]; first [lia|by specialize (Hpq eq_refl)].
Qed.
End Loops.

Section Bench.
Context {V : Type} `{Number V} `{NumberText V} `{JsonLib V}.
Context `{GameEnv} `{Random V} `{EnvObject V} `{!BaseAgent V}.

(** Claim C9. When [_bench] returns, on a loaded model, the list [results]
  that its loop has built holds the rewards of [max_episode] episodes,
  one for each, every one of them a reward that [env.step] returned with
  [done]. The tally counts the rewards equal to 1 as wins of the baseline
  mark, the rewards equal to -1 as wins of the trained mark and all the
  remaining episodes as draws, so the three counts add up to the number
  of episodes; where no reward equals both 1 and -1, the draws are the
  rewards that equal neither. *)
Theorem bench_counts_sum (CWD : text) (fuel : nat) (max_episode : Z)
    (model_file file : text) (w w' : World) (res : BenchResult V) :
  _bench CWD fuel max_episode model_file file w = Some (Returns res, w') ->
  let loaded := load_model file (w_store w) in
  let agents :=
    [ABase MarkO;
     ATD (mkTDAgent MarkX (num_of_Z 0) (num_of_Z 0) (num_of_Z 1))] in
  let is_1 := fun r : V => num_eqb r (num_of_Z 1) in
  let is_m1 := fun r : V => num_eqb r (num_of_Z (-1)) in
  exists results : list V,
    bench_episodes fuel (Z.to_nat max_episode) agents MarkO []
      (mkWorld loaded.2 (w_rng w) (env_set_start_mark MarkO (w_env w)))
    = Some (Ok results, w')
    /\ length results = Z.to_nat max_episode
    /\ Forall (fun r => exists action env nstate,
                          (env_step action env).1 = (nstate, r, true)) results
    /\ base_win (bench_tally_of res)
       = Z.of_nat (length (List.filter is_1 results))
    /\ td_win (bench_tally_of res)
       = Z.of_nat (length (List.filter is_m1 results))
    /\ draw (bench_tally_of res)
       = (Z.of_nat (length results) - base_win (bench_tally_of res)
          - td_win (bench_tally_of res))%Z
    /\ (base_win (bench_tally_of res) + td_win (bench_tally_of res)
        + draw (bench_tally_of res) = Z.of_nat (Z.to_nat max_episode))%Z
    /\ ((0 <= max_episode)%Z ->
        (base_win (bench_tally_of res) + td_win (bench_tally_of res)
         + draw (bench_tally_of res) = max_episode)%Z)
    /\ ((forall r, is_1 r = true -> is_m1 r = false) ->
        draw (bench_tally_of res)
        = Z.of_nat (length (List.filter
                              (fun r => negb (is_1 r) && negb (is_m1 r)) results))).
Proof.
  unfold _bench. cbv zeta.
  destruct (load_model file (w_store w)) as [[minfo| |] s1]; [|done..].
  cbn [snd].
  destruct (bench_episodes _ _ _ _ _ _) as [[[results|e] w2]|] eqn:E; [|done..].
  intros [= <- <-]. exists results. cbn [bench_tally_of].
  destruct (bench_episodes_results _ _ _ _ _ _ _ _ E) as (rewards & Hr & Hlen & Hall).
  cbn [app] in Hr. subst rewards.
  unfold bench_tally, py_count. cbn [base_win td_win draw].
  split; [done|]. split; [done|]. split; [done|]. split; [done|].
  split; [done|]. split; [done|]. split; [lia|]. split; [lia|].
  intros Hdis.
  rewrite (filter_length_split (fun r => num_eqb r (num_of_Z 1))
             (fun r => num_eqb r (num_of_Z (-1))) results Hdis) at 1.
  lia.
Qed.
End Bench.

(** * Evaluations on the game *)

Section Evaluations.
#[local] Existing Instance TicTacToe.game.
#[local] Existing Instance TicTacToe.random.
#[local] Existing Instance TicTacToe.env_object.
#[local] Existing Instance TicTacToe.base_agent.
#[local] Existing Instance SimpleJson.json.

(** Claim C4 fails on a state that the other mark has won: ['X'] has a
  full line, the agent plays ['O'], the state is new, and [ask_value]
  returns [O_REWARD] where the claim has [DEFAULT_VALUE]. *)
Lemma ask_value_win_of_other_mark :
  st_values (@empty_store Q) !! state_X_won = None
  /\ check_game_status state_X_won.1 = TicTacToe.tocode MarkX
  /\ mark agent_O = MarkO
  /\ (ask_value agent_O state_X_won empty_store).1 = inject_Z O_REWARD
  /\ Qeq_bool (ask_value agent_O state_X_won empty_store).1 (inject_Z DEFAULT_VALUE)
     = false.
Proof. vm_compute. repeat split. Qed.

(** Claim C4 at the empty tables, for a state without a win. *)
Lemma ask_value_new_state_witness :
  (ask_value agent_O state_O_wins empty_store).1 = inject_Z DEFAULT_VALUE
  /\ visits_of state_O_wins (ask_value agent_O state_O_wins empty_store).2 = 1%Z.
Proof.
  destruct (ask_value_new_state agent_O state_O_wins empty_store)
    as (Hv & _ & Hn).
  - intros st _. apply lookup_empty.
  - apply lookup_empty.
  - split; [exact Hv|exact Hn].
Defined.

(** Claim C2 at the first backup of a winning move from the empty tables. *)
Lemma backup_td_update_witness :
  st_values (backup agent_O state_O_wins state_O_won 1%Q empty_store) !! state_O_wins
  = Some (0 + (4 # 10) * (1 - 0))%Q
  /\ visits_of state_O_wins (backup agent_O state_O_wins state_O_won 1%Q empty_store)
     = 2%Z.
Proof.
  destruct (backup_td_update agent_O state_O_wins state_O_won 1%Q empty_store)
    as (Hv & Hn & _ & _).
  split; [exact Hv|]. rewrite Hn. reflexivity.
Defined.

(** Claim C5 where one move wins: it is chosen whatever the generator. *)
Lemma greedy_action_optimal_witness :
  [2; 5; 6; 7; 8]%Z ≠ ([] : list Action)
  /\ forall g1 g2 : @Rng Q TicTacToe.random,
      (greedy_action agent_O state_O_wins [2; 5; 6; 7; 8]%Z empty_store g1).1.1
      = Ok 2%Z
      /\ (greedy_action agent_O state_O_wins [2; 5; 6; 7; 8]%Z empty_store g2).1.1
         = Ok 2%Z.
Proof.
  split; [discriminate|].
  destruct (greedy_action_optimal agent_O state_O_wins [2; 5; 6; 7; 8]%Z empty_store)
    as [_ Hdet]; [discriminate|].
  apply (Hdet 2%Z).
  - apply list_elem_of_In. simpl. tauto.
  - intros a Ha Hne. apply list_elem_of_In in Ha. simpl in Ha.
    destruct Ha as [<-|[<-|[<-|[<-|[<-|[]]]]]]; (congruence || reflexivity).
Defined.

(** Claim C8 at the empty tables. *)
Lemma greedy_action_empty_raises_witness :
  greedy_action agent_O state_O_wins [] empty_store seed_0
  = (Raise AssertionError, empty_store, seed_0)
  /\ exists action s' g',
      greedy_action agent_O state_O_wins [2; 5; 6; 7; 8]%Z empty_store
                    seed_0
      = (Ok action, s', g')
      /\ action ∈ ([2; 5; 6; 7; 8]%Z : list Action).
Proof.
  destruct (greedy_action_empty_raises agent_O state_O_wins [2; 5; 6; 7; 8]%Z
              empty_store seed_0) as [Hempty Hok].
  split; [exact Hempty|]. apply Hok. discriminate.
Defined.

(** Claim C6, amended, at the first backup of a winning move. *)
Lemma backup_moves_toward_witness :
  (0 < alpha agent_O <= 1)%Q
  /\ (value_or_init agent_O state_O_wins empty_store
      < value_or_init agent_O state_O_won empty_store)%Q
  /\ (value_or_init agent_O state_O_wins empty_store
      < value_or_init agent_O state_O_wins
          (backups 1 agent_O state_O_wins state_O_won 1%Q empty_store)
      <= value_or_init agent_O state_O_won empty_store)%Q.
Proof.
  assert (Ha : (0 < alpha agent_O <= 1)%Q) by (split; vm_compute; congruence).
  assert (Hlt : (value_or_init agent_O state_O_wins empty_store
                 < value_or_init agent_O state_O_won empty_store)%Q)
    by (vm_compute; reflexivity).
  split; [exact Ha|]. split; [exact Hlt|].
  destruct (backup_moves_toward agent_O state_O_wins state_O_won 1%Q empty_store)
    as (_ & _ & Hstep & _).
  exact (proj1 (Hstep Ha) Hlt).
Defined.

(** Claim C6 fails in binary64 arithmetic. After 71 backups of the winning
  move with [alpha] 0.4 the value of the state is the float just below
  1, the value of the next state is 1, and one more [backup] stores the
  same value again: the sum rounds back to it. *)
Lemma backup_float_stalls :
  let old := value_or_init (H := float_Number) agent_float state_O_wins store_71 in
  let nval := value_or_init (H := float_Number) agent_float state_O_won store_71 in
  let new := value_or_init (H := float_Number) agent_float state_O_wins
               (backup_float state_O_wins state_O_won 1%float store_71) in
  PrimFloat.ltb 0 (alpha agent_float) = true
  /\ PrimFloat.leb (alpha agent_float) 1 = true
  /\ PrimFloat.ltb old nval = true
  /\ PrimFloat.ltb old new = false
  /\ PrimFloat.eqb new old = true.
Proof. vm_compute. repeat split. Qed.



(** Claim C7 fails on a line of four fields, which is loaded without an
  error, and on a line whose state is not a text that [save_model]
  writes for any state (a cell is the sum [1+0]), which is loaded as the
  state it evaluates to. *)
Lemma load_model_accepts_malformed_lines :
  let file4 := json_dumps info_500 ++ [newline] ++ line_four_fields in
  let file_sum := json_dumps info_500 ++ [newline] ++ line_with_sum in
  length (split_on tab line_four_fields) = 4%nat
  /\ (load_model file4 empty_store).1 = Returns info_500
  /\ st_values (load_model file4 empty_store).2 !! state_O_wins = Some (500 # 1000)
  /\ (forall state, repr_state state ≠ lit "((1+0, 1, 0, 2, 2, 0, 0, 0, 0), 'O')")
  /\ (load_model file_sum empty_store).1 = Returns info_500
  /\ st_values (load_model file_sum empty_store).2 !! state_O_wins
     = Some (500 # 1000).
Proof.
  cbv zeta. split; [by vm_compute|]. split; [by vm_compute|].
  split; [by vm_compute|]. split; [|split; by vm_compute].
  intros state E.
  pose proof (repr_state_field state) as Hf. rewrite E in Hf.
  by vm_compute in Hf.
Qed.

(** Claim C7, amended, on a line of one field. *)
Lemma load_model_malformed_lines_witness :
  forallb is_ascii (lit "12" ++ [newline]) = true
  /\ (length (split_on tab (lit "12" ++ [newline])) < 3)%nat
  /\ Forall evaluates (split_on tab (lit "12" ++ [newline]))
  /\ load_line (lit "12" ++ [newline]) (@empty_store Q)
     = (Raises IndexError, empty_store).
Proof.
  assert (Ha : forallb is_ascii (lit "12" ++ [newline]) = true) by reflexivity.
  assert (Hl : (length (split_on tab (lit "12" ++ [newline])) < 3)%nat)
    by (vm_compute; lia).
  assert (He : Forall evaluates (split_on tab (lit "12" ++ [newline]))).
  { constructor; [|constructor]. exists (PyInt 12). by vm_compute. }
  split; [exact Ha|]. split; [exact Hl|]. split; [exact He|].
  destruct (load_model_malformed_lines (V := Q)) as [Hline _].
  destruct (Hline (lit "12" ++ [newline]) empty_store Ha) as [Hshort _].
  exact (Hshort Hl He).
Defined.

(** Claim C10 on a file that lists one other state. *)
Lemma load_model_merges_witness :
  (forall line, line ∈ drop 1 (lines_of file_stale) ->
                line_state line ≠ Some state_O_wins)
  /\ st_values (load_model file_stale store_4).2 !! state_O_wins
     = st_values store_4 !! state_O_wins
  /\ st_visits (load_model file_stale store_4).2 !! state_O_wins
     = st_visits store_4 !! state_O_wins.
Proof.
  assert (Hn : forall line, line ∈ drop 1 (lines_of file_stale) ->
                            line_state line ≠ Some state_O_wins).
  { intros line Hin.
    assert (Hl : drop 1 (lines_of file_stale)
                 = [format_line state_terminal (- 1 # 2) 1]) by (by vm_compute).
    rewrite Hl in Hin. apply list_elem_of_singleton in Hin. subst line.
    by vm_compute. }
  split; [exact Hn|].
  destruct (load_model_merges file_stale store_4) as (_ & _ & Hsame).
  exact (Hsame state_O_wins Hn).
Defined.

(** Claim C9 on a benchmark of two episodes of the game: the baseline wins
  one and the trained agent the other. *)
Lemma bench_counts_sum_witness :
  exists res w' results,
    _bench (lit "/repo/examples") 20 2 (lit "/repo/examples/td_agent.dat")
          file_stale (mkWorld empty_store seed_0 TicTacToe.new_env)
    = Some (Returns res, w')
    /\ bench_tally_of res = mkTally 1 1 0
    /\ length results = 2%nat
    /\ base_win (bench_tally_of res)
       = Z.of_nat (length (List.filter (fun r => Qeq_bool r 1) results))
    /\ td_win (bench_tally_of res)
       = Z.of_nat (length (List.filter (fun r => Qeq_bool r (-1)) results))
    /\ (base_win (bench_tally_of res) + td_win (bench_tally_of res)
        + draw (bench_tally_of res) = 2)%Z.
Proof.
  assert (E : exists res w',
             _bench (lit "/repo/examples") 20 2 (lit "/repo/examples/td_agent.dat")
                   file_stale (mkWorld empty_store seed_0 TicTacToe.new_env)
             = Some (Returns res, w')
             /\ bench_tally_of res = mkTally 1 1 0).
  { vm_compute. eexists _, _. split; reflexivity. }
  destruct E as (res & w' & E & Ht).
  destruct (bench_counts_sum _ _ _ _ _ _ _ _ E)
    as (results & _ & Hlen & _ & Ho & Hx & _ & _ & Hsum & _).
  exists res, w', results. split; [exact E|]. split; [exact Ht|].
  split; [exact Hlen|]. split; [exact Ho|]. split; [exact Hx|].
  apply Hsum. lia.
Defined.
End Evaluations.

(** * Further properties of the tables and the agent *)

Section StoreWrites.
Context {V : Type}.

(** After any sequence of calls of [set_state_value], the visit count of
    a state is its count before plus the number of calls made for it,
    and its value is the one of the last such call, or the value it had
    when there is none. *)
Theorem set_state_values_counts (writes : list (State * V)) (s : Store V)
    (state : State) :
  visits_of state (set_state_values writes s)
  = (visits_of state s + Z.of_nat (length (writes_to state writes)))%Z
  /\ st_values (set_state_values writes s) !! state
     = match last (writes_to state writes) with
       | Some w => Some w.2
       | None => st_values s !! state
       end.
Proof.
  revert s. induction writes as [|[st v] ws IH]; intros s.
  - cbn. split; [lia|done].
  - unfold set_state_values, writes_to in *. cbn [foldl List.filter fst snd].
    destruct (IH (set_state_value st v s)) as [IH1 IH2].
    rewrite IH1, IH2. clear IH IH1 IH2.
    destruct (decide (st = state)) as [->|Hne].
    + rewrite bool_decide_eq_true_2 by done.
      rewrite set_state_value_visits_eq, set_state_value_values_eq.
      cbn [length]. split; [lia|].
      rewrite last_cons. by destruct (last _).
    + rewrite bool_decide_eq_false_2 by done.
      rewrite set_state_value_values_ne by done. split; [|done].
      unfold visits_of. by rewrite set_state_value_visits_ne.
Qed.
End StoreWrites.

Section IndicesMore.
Context {V : Type} `{NumberOrder V}.

Lemma indices_of_sorted (best : V) (k : nat) (values : list V) :
  StronglySorted lt (indices_of best k values).
Proof.
  revert k. induction values as [|v rest IH]; intros k; cbn [indices_of].
  - constructor.
  - destruct (num_eqb v best); [|apply IH].
    constructor; [apply IH|].
    apply Forall_forall. intros i Hi.
    apply elem_of_indices_of in Hi as (j & _ & -> & _). lia.
Qed.

Lemma best_val_indices_positions (values : list V) (fn : list V -> result V)
    (best : V) :
  fn values = Ok best -> best ∈ values ->
  exists indices,
    best_val_indices values fn = Ok indices /\ positions_of best values indices.
Proof.
  intros Hfn Hin. exists (indices_of best 0 values).
  unfold best_val_indices. rewrite Hfn. split; [done|].
  split; [|split].
  - apply list_elem_of_lookup in Hin as [j Hj].
    assert (Hm : j ∈ indices_of best 0 values).
    { apply elem_of_indices_of. exists j, best.
      split; [done|]. split; [done|]. apply num_eqb_refl. }
    intros E. rewrite E in Hm. by apply elem_of_nil in Hm.
  - apply indices_of_sorted.
  - intros i. rewrite elem_of_indices_of. split.
    + intros (j & v & -> & Hv & He). by exists v.
    + intros (v & Hv & He). by exists i, v.
Qed.

(** [best_val_indices] with [max] or [min] on no value raises
    [ValueError]; on a list of values that is not empty it returns the
    positions of all the items equal to the greatest (smallest) one, in
    increasing order, and at least one position. *)
Theorem best_val_indices_extremes (values : list V) :
  best_val_indices ([] : list V) py_max = Raise ValueError
  /\ best_val_indices ([] : list V) py_min = Raise ValueError
  /\ (values ≠ [] ->
      (exists best indices,
          best_val_indices values py_max = Ok indices
          /\ best ∈ values
          /\ (forall x, x ∈ values -> num_ltb best x = false)
          /\ positions_of best values indices)
      /\ (exists best indices,
            best_val_indices values py_min = Ok indices
            /\ best ∈ values
            /\ (forall x, x ∈ values -> num_ltb x best = false)
            /\ positions_of best values indices)).
Proof.
  split; [done|]. split; [done|]. intros Hne. split.
  - destruct (py_max_spec values Hne) as (best & Hb & Hin & Hmax).
    destruct (best_val_indices_positions values py_max best Hb Hin)
      as (indices & Hi & Hp).
    by exists best, indices.
  - destruct (py_min_spec values Hne) as (best & Hb & Hin & Hmin).
    destruct (best_val_indices_positions values py_min best Hb Hin)
      as (indices & Hi & Hp).
    by exists best, indices.
Qed.
End IndicesMore.

Section AgentMore.
Context {V : Type} `{Number V} `{GameEnv}.

(** The value that a state is given on first sight is the one of the
    agent that asks first: a second [ask_value] on the state, by this
    agent or by the other one, returns the same value and changes
    nothing. *)
Theorem ask_value_first_asker (self other : TDAgent V) (state : State)
    (s : Store V) :
  ask_value other state (ask_value self state s).2
  = ((ask_value self state s).1, (ask_value self state s).2)
  /\ (ask_value self state s).1 = value_or_init self state s.
Proof.
  split; [|apply ask_value_fst].
  rewrite (ask_value_known other state _ _ (ask_value_stored self state s)).
  by rewrite ask_value_fst.
Qed.

Lemma ask_value_same_at (self : TDAgent V) (state st : State) (s : Store V) :
  st ≠ state \/ is_Some (st_values s !! st) ->
  same_at st s (ask_value self state s).2.
Proof.
  intros [Hne|[v Hv]].
  - destruct (ask_value_other self state st s) as [E1 E2]; [done|]. by split.
  - destruct (decide (st = state)) as [->|Hne].
    + by rewrite (ask_value_known self state s v Hv).
    + destruct (ask_value_other self state st s) as [E1 E2]; [done|]. by split.
Qed.

(** [backup] writes the entry of [state], and creates the entry of
    [nstate] when there is none; the value and the visit count of every
    other state, and those of an [nstate] already known, are as before. *)
Theorem backup_frame (self : TDAgent V) (state nstate : State) (reward : V)
    (s : Store V) (st : State) :
  st ≠ state -> st ≠ nstate \/ is_Some (st_values s !! st) ->
  st_values (backup self state nstate reward s) !! st = st_values s !! st
  /\ st_visits (backup self state nstate reward s) !! st = st_visits s !! st.
Proof.
  intros Hne Hor. rewrite backup_unfold.
  rewrite set_state_value_values_ne, set_state_value_visits_ne by done.
  destruct (ask_value_same_at self state st s) as [A1 A2]; [by left|].
  destruct (ask_value_same_at self nstate st (ask_value self state s).2)
    as [B1 B2].
  { destruct Hor as [Hn|Hs]; [by left|right]. by rewrite A1. }
  split; congruence.
Qed.
End AgentMore.

Section ActMore.
Context {V : Type} `{NumberOrder V} `{GameEnv} `{RandomOk V}.

(** On an empty list of actions [act] raises, [IndexError] from
    [random.choice] when it explores and [AssertionError] from
    [greedy_action] otherwise, and leaves the tables as they were; on a
    list that is not empty it returns an action of the list, and no
    value of the tables is changed or lost. *)
Theorem act_available (self : TDAgent V) (state : State)
    (ava_actions : list Action) (s : Store V) (g : Rng) :
  (exists e g', act self state [] s g = (Raise e, s, g')
                /\ (e = IndexError \/ e = AssertionError))
  /\ (ava_actions ≠ [] ->
      exists action s' g',
        act self state ava_actions s g = (Ok action, s', g')
        /\ action ∈ ava_actions
        /\ forall st v, st_values s !! st = Some v ->
                        st_values s' !! st = Some v).
Proof.
  split.
  - unfold act, egreedy_policy. destruct (rng_random g) as [e g1].
    destruct (num_ltb e _); cbn.
    + exists IndexError, g1. split; [done|by left].
    + exists AssertionError, g1. split; [done|by right].
  - intros Hne.
    pose proof (fun st v => act_keeps self state ava_actions s g st v) as Hk.
    unfold act, egreedy_policy in *. destruct (rng_random g) as [e g1].
    destruct (num_ltb e _).
    + unfold random_action in *.
      destruct (random_choice_ok ava_actions g1 Hne) as (x & Hx & Hin).
      destruct (random_choice ava_actions g1) as [r g2]. cbn [fst] in Hx.
      subst r. exists x, s, g2. by repeat split.
    + destruct (greedy_action_spec self state ava_actions s g1 Hne)
        as (aidx & action & v & best & g' & Hg & Ha & _).
      rewrite Hg in Hk |- *.
      exists action, (ask_values self state ava_actions s).2, g'.
      split; [done|]. split; [by eapply list_elem_of_lookup_2|]. exact Hk.
Qed.
End ActMore.

Section ActQ.
Context `{GameEnv} `{Random Q}.

(** An agent with [epsilon] 0, as [_bench] and [_play] create it, never
    explores: whenever [random.random()] is not negative, [act] is
    [greedy_action] run after that one draw. *)
Theorem act_without_epsilon (self : TDAgent Q) (state : State)
    (ava_actions : list Action) (s : Store Q) (g : Rng) :
  (epsilon self == 0)%Q -> (0 <= (rng_random g).1)%Q ->
  act self state ava_actions s g
  = greedy_action self state ava_actions s (rng_random g).2.
Proof.
  intros Heps He. unfold act, egreedy_policy.
  destruct (rng_random g) as [e g1]. cbn [fst snd] in *.
  assert (Hlt : num_ltb e (num_mul (epsilon self) (episode_rate self)) = false).
  { apply Q_ltb_ge. cbn [num_mul Q_Number]. rewrite Heps. lra. }
  by rewrite Hlt.
Qed.
End ActQ.

Section BackupsQ.
Context `{GameEnv}.

Lemma Qpower_S (q : Q) (k : nat) : (q ^ Z.of_nat (S k) == q ^ Z.of_nat k * q)%Q.
Proof.
  rewrite Nat2Z.inj_succ. unfold Z.succ.
  rewrite Qpower_plus' by lia. by rewrite Qpower_1_r.
Qed.

Lemma backup_visits {V : Type} `{Number V} (self : TDAgent V)
    (state nstate : State) (reward : V) (s : Store V) :
  visits_of state (backup self state nstate reward s)
  = (visits_of state (ask_value self state s).2 + 1)%Z.
Proof.
  rewrite backup_unfold, set_state_value_visits_eq.
  by rewrite ask_value_next_visits.
Qed.

(** In exact arithmetic, [k] calls of [backup] with the same arguments
    leave [state] at [(1 - alpha)^k] times its first distance from the
    value of [nstate], which stays as it was; each call stores the new
    value and adds one to the visit count of [state]. *)
Theorem backups_closed_form (self : TDAgent Q) (state nstate : State)
    (reward : Q) (s : Store Q) (k : nat) :
  let old := value_or_init self state s in
  let nval := value_or_init self nstate s in
  let v := fun k => value_or_init self state
                      (backups k self state nstate reward s) in
  (v k == nval - (1 - alpha self) ^ Z.of_nat k * (nval - old))%Q
  /\ (value_or_init self nstate (backups k self state nstate reward s)
      == nval)%Q
  /\ st_values (backups (S k) self state nstate reward s) !! state
     = Some (v (S k))
  /\ visits_of state (backups (S k) self state nstate reward s)
     = (visits_of state (ask_value self state s).2 + Z.of_nat (S k))%Z.
Proof.
  cbv zeta.
  assert (Hval : forall k,
    (value_or_init self state (backups k self state nstate reward s)
     == value_or_init self nstate s
        - (1 - alpha self) ^ Z.of_nat k
          * (value_or_init self nstate s - value_or_init self state s)
     /\ value_or_init self nstate (backups k self state nstate reward s)
        == value_or_init self nstate s)%Q).
  { clear k. induction k as [|k [IH1 IH2]].
    - change (backups 0 self state nstate reward s) with s. cbn [Z.of_nat].
      rewrite Qpower_0_r. split; ring.
    - rewrite backups_S.
      assert (E : (value_or_init self state
                     (backup self state nstate reward
                        (backups k self state nstate reward s))
                   == value_or_init self nstate s
                      - (1 - alpha self) ^ Z.of_nat (S k)
                        * (value_or_init self nstate s
                           - value_or_init self state s))%Q).
      { rewrite backup_value, IH1, IH2, Qpower_S. ring. }
      split; [exact E|].
      destruct (decide (state = nstate)) as [<-|Hne].
      + rewrite E. ring.
      + by rewrite backup_value_other. }
  split; [apply Hval|]. split; [apply Hval|]. split.
  - rewrite backups_S. unfold value_or_init at 1.
    by rewrite backup_stored_value.
  - induction k as [|k IH].
    + rewrite backups_S. change (backups 0 self state nstate reward s) with s.
      by rewrite backup_visits.
    + rewrite backups_S, backup_visits.
      assert (Hs : is_Some (st_values (backups (S k) self state nstate reward s)
                            !! state)).
      { rewrite backups_S, backup_stored_value. by eexists. }
      destruct Hs as [x Hx]. rewrite (ask_value_known self state _ x Hx).
      cbn [snd]. rewrite IH. lia.
Qed.
End BackupsQ.

(** * Invariants of the loops *)

(** A property of the tables that the operations of the agent keep is
    kept by the benchmark loop, and by the training loop and [save_model]
    when [backup] and the write of the last reward keep it too. *)
Section Invariant.
Context {V : Type} `{Number V} `{NumberText V} `{JsonLib V}.
Context `{GameEnv} `{Random V} `{EnvObject V} `{!BaseAgent V}.

Variable I : Store V -> Prop.
Variable A : TDAgent V -> Prop.

Hypothesis I_ask : forall self st s, A self -> I s -> I (ask_value self st s).2.
Hypothesis I_read :
  forall st s, I s -> is_Some (st_values s !! st) -> I (visits_read st s).2.

Lemma ask_values_inv self state (ava_actions : list Action) (s : Store V) :
  A self -> I s -> I (ask_values self state ava_actions s).2.
Proof.
  intros HA. revert s. induction ava_actions as [|a rest IH]; intros s Hs; [done|].
  cbn [ask_values].
  pose proof (I_ask self (after_action_state state a) s HA Hs) as Ha1.
  pose proof (ask_value_stored self (after_action_state state a) s) as Ha2.
  destruct (ask_value self (after_action_state state a) s) as [nval s1].
  cbn [snd] in *.
  pose proof (I_read (after_action_state state a) s1 Ha1 (mk_is_Some _ _ Ha2))
    as Ha3.
  destruct (visits_read (after_action_state state a) s1) as [vc s2].
  cbn [snd] in *. specialize (IH s2 Ha3).
  by destruct (ask_values self state rest s2) as [vals s3].
Qed.

Lemma greedy_action_inv self state (ava_actions : list Action) (s : Store V) g :
  A self -> I s -> I (greedy_action self state ava_actions s g).1.2.
Proof.
  intros HA Hs. unfold greedy_action.
  destruct (0 <? length ava_actions)%nat; [|done].
  pose proof (ask_values_inv self state ava_actions s HA Hs) as Hk.
  destruct (ask_values self state ava_actions s) as [vals s1]. cbn [snd] in Hk.
  destruct (match mark self with
            | MarkO => best_val_indices vals py_max
            | MarkX => best_val_indices vals py_min
            end) as [indices|e]; [|done].
  destruct (random_choice indices g) as [[aidx|e] g']; [|done].
  by destruct (ava_actions !! aidx).
Qed.

Lemma act_inv self state (ava_actions : list Action) (s : Store V) g :
  A self -> I s -> I (act self state ava_actions s g).1.2.
Proof.
  intros HA Hs. unfold act, egreedy_policy.
  destruct (rng_random g) as [e g1].
  destruct (num_ltb e _).
  - unfold random_action. by destruct (random_choice ava_actions g1).
  - by apply greedy_action_inv.
Qed.

Lemma agent_by_mark_elem {B : Type} (mark_of : B -> Mark) (agents : list B)
    (m : Mark) (a : B) :
  agent_by_mark mark_of agents m = Some a -> a ∈ agents.
Proof.
  unfold agent_by_mark. intros Hf. apply List.find_some in Hf as [Hin _].
  by apply list_elem_of_In.
Qed.

Lemma bench_loop_inv (fuel : nat) (agents : list Agent) (state : State)
    (m : Mark) (w w' : World) (r : result V) :
  Forall (fun a => match a with ATD a => A a | ABase _ => True end) agents ->
  I (w_store w) ->
  bench_loop fuel agents state m w = Some (r, w') -> I (w_store w').
Proof.
  intros Hag. revert state m w.
  induction fuel as [|fuel IH]; intros state m w Hs; [done|].
  cbn [bench_loop].
  destruct (agent_by_mark agent_mark agents m) as [agent|] eqn:Ea.
  2:{ by intros [= <- <-]. }
  apply agent_by_mark_elem in Ea.
  assert (Hact : I (agent_act agent state (env_available_actions (w_env w))
                      (w_store w) (w_rng w)).1.2).
  { destruct agent as [bm|a]; cbn [agent_act].
    - by destruct (base_act bm state _ (w_rng w)).
    - apply act_inv; [|done].
      by apply (proj1 (Forall_forall _ _) Hag (ATD a)). }
  destruct (agent_act agent state (env_available_actions (w_env w))
              (w_store w) (w_rng w)) as [[[action|e] s1] g1]; cbn [fst snd] in Hact.
  2:{ by intros [= <- <-]. }
  destruct (env_step action (w_env w)) as [[[state1 reward] [|]] env1].
  - by intros [= <- <-].
  - by apply IH.
Qed.

Lemma bench_episodes_inv (fuel n : nat) (agents : list Agent) (start : Mark)
    (results : list V) (w w' : World) (r : result (list V)) :
  Forall (fun a => match a with ATD a => A a | ABase _ => True end) agents ->
  I (w_store w) ->
  bench_episodes fuel n agents start results w = Some (r, w') -> I (w_store w').
Proof.
  intros Hag. revert start results w.
  induction n as [|n IH]; intros start results w Hs.
  - cbn [bench_episodes]. by intros [= <- <-].
  - cbn [bench_episodes].
    destruct (env_reset (env_set_start_mark start (w_env w))) as [state env2].
    destruct (bench_loop fuel agents state state.2 _) as [[[reward|e] w1]|] eqn:E;
      [| |done].
    + apply bench_loop_inv in E; [|done..]. by apply IH.
    + apply bench_loop_inv in E; [|done..]. by intros [= <- <-].
Qed.

Variable R : V -> Prop.

Hypothesis I_backup :
  forall self state nstate reward s,
    A self -> I s -> I (backup self state nstate reward s).
Hypothesis I_set :
  forall state reward s, R reward -> I s -> I (set_state_value state reward s).
Hypothesis A_rate : forall r a, A a -> A (set_episode_rate r a).
Hypothesis R_step : forall action env, R (env_step action env).1.1.2.

Lemma learn_turn_inv (agents : list (TDAgent V)) (state : State) (m : Mark)
    (w : World) :
  Forall A agents -> I (w_store w) ->
  I (w_store (learn_turn agents state m w).2).
Proof.
  intros Hag Hs. unfold learn_turn.
  destruct (agent_by_mark mark agents m) as [agent|] eqn:Ea; [|done].
  apply agent_by_mark_elem in Ea.
  assert (HA : A agent) by (by apply (proj1 (Forall_forall _ _) Hag)).
  pose proof (act_inv agent state (env_available_actions (w_env w))
                (w_store w) (w_rng w) HA Hs) as Hact.
  destruct (act agent state (env_available_actions (w_env w)) (w_store w) (w_rng w))
    as [[[action|e] s1] g1]; cbn [fst snd] in Hact; [|done].
  pose proof (R_step action (w_env w)) as HR.
  destruct (env_step action (w_env w)) as [[[nstate reward] done] env1].
  cbn [fst snd w_store] in *.
  destruct done; [apply I_set; [done|]|]; by apply I_backup.
Qed.

Lemma learn_loop_inv (fuel : nat) (agents : list (TDAgent V)) (state : State)
    (m : Mark) (w w' : World) (r : result (State * V)) :
  Forall A agents -> I (w_store w) ->
  learn_loop fuel agents state m w = Some (r, w') -> I (w_store w').
Proof.
  intros Hag. revert state m w.
  induction fuel as [|fuel IH]; intros state m w Hs; [done|].
  cbn [learn_loop].
  pose proof (learn_turn_inv agents state m w Hag Hs) as Ht.
  destruct (learn_turn agents state m w) as [[[[nstate reward] [|]]|e] w1];
    cbn [snd] in Ht.
  - by intros [= <- <-].
  - by apply IH.
  - by intros [= <- <-].
Qed.

Lemma learn_episode_inv (fuel : nat) (max_episode i : Z)
    (agents agents' : list (TDAgent V)) (start : Mark) (w w' : World)
    (r : result (State * V)) :
  Forall A agents -> I (w_store w) ->
  learn_episode fuel max_episode i agents start w = Some (r, agents', w') ->
  I (w_store w') /\ Forall A agents'.
Proof.
  intros Hag Hs. unfold learn_episode.
  destruct (env_reset (env_set_start_mark start (w_env w))) as [state env2].
  assert (Hag' : Forall A (List.map
                   (set_episode_rate
                      (num_div (num_of_Z (i + 1)) (num_of_Z max_episode))) agents)).
  { apply Forall_forall. intros a Ha. apply list_elem_of_In, in_map_iff in Ha.
    destruct Ha as (a0 & <- & Ha0). apply A_rate.
    apply (proj1 (Forall_forall _ _) Hag). by apply list_elem_of_In. }
  destruct (learn_loop fuel _ state state.2 _) as [[r1 w1]|] eqn:E; [|done].
  intros [= <- <- <-]. split; [|done].
  by apply learn_loop_inv in E.
Qed.

Lemma learn_episodes_inv (fuel : nat) (max_episode : Z) (n : nat) (i : Z)
    (agents : list (TDAgent V)) (start : Mark) (w w' : World)
    (r : result unit) :
  Forall A agents -> I (w_store w) ->
  learn_episodes fuel max_episode n i agents start w = Some (r, w') ->
  I (w_store w').
Proof.
  revert i agents start w.
  induction n as [|n IH]; intros i agents start w Hag Hs.
  - cbn [learn_episodes]. by intros [= <- <-].
  - cbn [learn_episodes].
    destruct (learn_episode fuel max_episode i agents start w)
      as [[[[x|e] agents1] w1]|] eqn:E; [| |done].
    + destruct (learn_episode_inv _ _ _ _ _ _ _ _ _ Hag Hs E) as [Hs1 Hag1].
      by apply IH.
    + destruct (learn_episode_inv _ _ _ _ _ _ _ _ _ Hag Hs E) as [Hs1 Hag1].
      by intros [= <- <-].
Qed.

Lemma save_lines_inv (items : list (State * V)) (s : Store V) :
  (forall e, e ∈ items -> is_Some (st_values s !! e.1)) -> I s ->
  I (save_lines items s).2 /\ st_values (save_lines items s).2 = st_values s.
Proof.
  revert s. induction items as [|[state value] rest IH]; intros s Hin Hs; [done|].
  cbn [save_lines].
  pose proof (I_read state s Hs (Hin (state, value) ltac:(by left))) as Hr1.
  pose proof (visits_read_values state s) as Hr2.
  destruct (visits_read state s) as [vcnt s1]. cbn [snd] in *.
  destruct (IH s1) as [Hr3 Hr4]; [|done|].
  { intros e He. rewrite Hr2. apply Hin. by right. }
  destruct (save_lines rest s1) as [t s2]. cbn [snd] in *.
  split; [done|congruence].
Qed.

Lemma _learn_inv (fuel : nat) (max_episode : Z) (eps al : V) (w w' : World)
    (r : result text) :
  A (new_agent MarkO eps al) -> A (new_agent MarkX eps al) -> I (w_store w) ->
  _learn fuel max_episode eps al w = Some (r, w') -> I (w_store w').
Proof.
  intros HO HX Hs. unfold _learn, learn_run.
  destruct (learn_episodes fuel max_episode _ 0 _ MarkO w) as [[[[]|e] w1]|] eqn:E;
    [| |done].
  - apply learn_episodes_inv in E; [|by repeat constructor|done].
    unfold save_model.
    destruct (save_lines_inv (map_to_list (st_values (w_store w1))) (w_store w1))
      as [Hsv _]; [|done|].
    { intros [st v] He. apply elem_of_map_to_list in He. by eexists. }
    destruct (save_lines _ (w_store w1)) as [t s1]. cbn [snd] in Hsv.
    by intros [= <- <-].
  - apply learn_episodes_inv in E; [|by repeat constructor|done].
    by intros [= <- <-].
Qed.
End Invariant.

Section Counted.
Context {V : Type} `{Number V} `{NumberText V} `{JsonLib V}.
Context `{GameEnv} `{Random V} `{EnvObject V} `{!BaseAgent V}.

Lemma visits_read_visits_of (state st : State) (s : Store V) :
  visits_of st (visits_read state s).2 = visits_of st s.
Proof.
  unfold visits_read, visits_of.
  destruct (st_visits s !! state) eqn:E; [done|]. cbn [snd st_visits].
  destruct (decide (state = st)) as [<-|Hne].
  - by rewrite lookup_insert_eq, E.
  - by rewrite lookup_insert_ne.
Qed.

Lemma visits_read_known (state : State) (s : Store V) :
  is_Some (st_visits s !! state) -> (visits_read state s).2 = s.
Proof. intros [n Hn]. unfold visits_read. by rewrite Hn. Qed.

Lemma store_counted_visits_of (st : State) (s : Store V) :
  store_counted s -> (0 <= visits_of st s)%Z.
Proof.
  intros Hc. unfold visits_of. destruct (st_visits s !! st) as [n|] eqn:E; [|done].
  cbn. destruct (Hc st) as [_ Hn]. specialize (Hn n E). lia.
Qed.

Lemma set_state_value_counted (state : State) (v : V) (s : Store V) :
  store_counted s -> store_counted (set_state_value state v s).
Proof.
  intros Hc st. pose proof (store_counted_visits_of state s Hc) as Hge.
  destruct (Hc st) as [Hk Hn]. unfold set_state_value. cbn [st_values st_visits].
  destruct (decide (state = st)) as [<-|Hne].
  - rewrite !lookup_insert_eq. split; [split; by eexists|].
    intros n [= <-]. lia.
  - by rewrite !lookup_insert_ne.
Qed.

Lemma ask_value_counted (self : TDAgent V) (state : State) (s : Store V) :
  store_counted s -> store_counted (ask_value self state s).2.
Proof.
  intros Hc. unfold ask_value. destruct (st_values s !! state); [done|].
  by apply set_state_value_counted.
Qed.

Lemma backup_counted (self : TDAgent V) (state nstate : State) (reward : V)
    (s : Store V) :
  store_counted s -> store_counted (backup self state nstate reward s).
Proof.
  intros Hc. rewrite backup_unfold.
  by apply set_state_value_counted, ask_value_counted, ask_value_counted.
Qed.

(** [_learn] keeps the tables consistent: when the two tables have the
    same keys and every visit count is at least 1 before the call, as in
    the empty tables, the same holds after it, whatever its outcome. *)
Theorem learn_keeps_counted (fuel : nat) (max_episode : Z) (eps al : V)
    (w w' : World) (r : result text) :
  store_counted (w_store w) ->
  _learn fuel max_episode eps al w = Some (r, w') ->
  store_counted (w_store w').
Proof.
  intros Hc Hrun.
  apply (_learn_inv store_counted (fun _ => True)) with (R := fun _ => True)
    (fuel := fuel) (max_episode := max_episode) (eps := eps) (al := al)
    (w := w) (r := r); try done.
  - intros self st s _. apply ask_value_counted.
  - intros st s Hs Hv. rewrite visits_read_known; [done|].
    by apply (Hs st).
  - intros self state nstate reward s _. apply backup_counted.
  - intros state reward s _. apply set_state_value_counted.
Qed.

Lemma store_grows_refl (s : Store V) : store_grows s s.
Proof. intros st. split; [done|lia]. Qed.

Lemma store_grows_trans (s1 s2 s3 : Store V) :
  store_grows s1 s2 -> store_grows s2 s3 -> store_grows s1 s3.
Proof.
  intros H12 H23 st. destruct (H12 st) as [A1 A2], (H23 st) as [B1 B2].
  split; [auto|lia].
Qed.

Lemma set_state_value_grows (state : State) (v : V) (s : Store V) :
  store_grows s (set_state_value state v s).
Proof.
  intros st. destruct (decide (state = st)) as [<-|Hne].
  - rewrite set_state_value_values_eq, set_state_value_visits_eq.
    split; [by eexists|lia].
  - rewrite set_state_value_values_ne by done. split; [done|].
    unfold visits_of. rewrite set_state_value_visits_ne by done. lia.
Qed.

Lemma ask_value_grows (self : TDAgent V) (state : State) (s : Store V) :
  store_grows s (ask_value self state s).2.
Proof.
  unfold ask_value. destruct (st_values s !! state).
  - apply store_grows_refl.
  - apply set_state_value_grows.
Qed.

Lemma visits_read_grows (state : State) (s : Store V) :
  store_grows s (visits_read state s).2.
Proof.
  intros st. rewrite visits_read_visits_of, visits_read_values.
  split; [done|lia].
Qed.

Lemma backup_grows (self : TDAgent V) (state nstate : State) (reward : V)
    (s : Store V) :
  store_grows s (backup self state nstate reward s).
Proof.
  rewrite backup_unfold.
  eapply store_grows_trans; [|apply set_state_value_grows].
  eapply store_grows_trans; apply ask_value_grows.
Qed.

(** [_learn] never forgets: every state that had a value before the call
    has one after it, and no visit count is smaller than before. *)
Theorem learn_grows (fuel : nat) (max_episode : Z) (eps al : V)
    (w w' : World) (r : result text) :
  _learn fuel max_episode eps al w = Some (r, w') ->
  forall st,
    (is_Some (st_values (w_store w) !! st) ->
     is_Some (st_values (w_store w') !! st))
    /\ (visits_of st (w_store w) <= visits_of st (w_store w'))%Z.
Proof.
  intros Hrun.
  apply (_learn_inv (store_grows (w_store w)) (fun _ => True))
    with (R := fun _ => True)
    (fuel := fuel) (max_episode := max_episode) (eps := eps) (al := al)
    (w := w) (r := r); try done.
  - intros self st s _ Hs.
    eapply store_grows_trans; [done|apply ask_value_grows].
  - intros st s Hs _.
    eapply store_grows_trans; [done|apply visits_read_grows].
  - intros self state nstate reward s _ Hs.
    eapply store_grows_trans; [done|apply backup_grows].
  - intros state reward s _ Hs.
    eapply store_grows_trans; [done|apply set_state_value_grows].
Qed.

End Counted.

Section Bounded.
Context `{JsonLib Q} `{GameEnv} `{Random Q} `{EnvObject Q} `{!BaseAgent Q}.

Variables lo hi : Q.
Hypothesis default_bounded : (lo <= inject_Z DEFAULT_VALUE <= hi)%Q.
Hypothesis O_bounded : (lo <= inject_Z O_REWARD <= hi)%Q.
Hypothesis X_bounded : (lo <= inject_Z X_REWARD <= hi)%Q.

Lemma init_value_bounded (self : TDAgent Q) (state : State) :
  (lo <= init_value self state <= hi)%Q.
Proof.
  unfold init_value. cbn [num_of_Z Q_Number].
  destruct (0 <? check_game_status state.1)%Z; [|done].
  by destruct (mark self).
Qed.

Lemma value_or_init_bounded (self : TDAgent Q) (state : State) (s : Store Q) :
  store_bounded lo hi s -> (lo <= value_or_init self state s <= hi)%Q.
Proof.
  intros Hb. unfold value_or_init.
  destruct (st_values s !! state) as [v|] eqn:E; [by apply (Hb state)|].
  apply init_value_bounded.
Qed.

Lemma set_state_value_bounded (state : State) (v : Q) (s : Store Q) :
  (lo <= v <= hi)%Q -> store_bounded lo hi s ->
  store_bounded lo hi (set_state_value state v s).
Proof.
  intros Hv Hb st x. destruct (decide (state = st)) as [<-|Hne].
  - rewrite set_state_value_values_eq. by intros [= <-].
  - rewrite set_state_value_values_ne by done. apply Hb.
Qed.

Lemma ask_value_bounded (self : TDAgent Q) (state : State) (s : Store Q) :
  store_bounded lo hi s -> store_bounded lo hi (ask_value self state s).2.
Proof.
  intros Hb. destruct (st_values s !! state) as [v|] eqn:E.
  - by rewrite (ask_value_known self state s v E).
  - rewrite (ask_value_new self state s E). cbn [snd].
    apply set_state_value_bounded; [apply init_value_bounded|done].
Qed.

Lemma backup_bounded (self : TDAgent Q) (state nstate : State) (reward : Q)
    (s : Store Q) :
  (0 <= alpha self <= 1)%Q -> store_bounded lo hi s ->
  store_bounded lo hi (backup self state nstate reward s).
Proof.
  intros Ha Hb. rewrite backup_unfold.
  apply set_state_value_bounded; [|by apply ask_value_bounded, ask_value_bounded].
  pose proof (value_or_init_bounded self state s Hb) as Hv.
  pose proof (value_or_init_bounded self nstate s Hb) as Hn.
  cbn [num_add num_mul num_sub Q_Number].
  destruct (td_step_between (alpha self) (value_or_init self state s)
              (value_or_init self nstate s) Ha) as [Hup Hdown].
  destruct (Qlt_le_dec (value_or_init self nstate s) (value_or_init self state s))
    as [Hlt|Hle].
  - specialize (Hdown (Qlt_le_weak _ _ Hlt)). lra.
  - specialize (Hup Hle). lra.
Qed.

(** In exact arithmetic and with a step size between 0 and 1, [_learn]
    keeps every value of the tables between two bounds, when these hold
    of the default value, of the two rewards of a win, of every reward
    that the environment gives and of the values before the call. *)
Theorem learn_values_bounded (fuel : nat) (max_episode : Z) (eps al : Q)
    (w w' : World) (r : result text) :
  (0 <= al <= 1)%Q ->
  (forall action env, (lo <= (env_step action env).1.1.2 <= hi)%Q) ->
  store_bounded lo hi (w_store w) ->
  _learn fuel max_episode eps al w = Some (r, w') ->
  store_bounded lo hi (w_store w').
Proof.
  intros Hal Hstep Hb Hrun.
  apply (_learn_inv (store_bounded lo hi) (fun a => (0 <= alpha a <= 1)%Q))
    with (R := fun x => (lo <= x <= hi)%Q)
    (fuel := fuel) (max_episode := max_episode) (eps := eps) (al := al)
    (w := w) (r := r); try done.
  - intros self st s _. apply ask_value_bounded.
  - intros st s Hs _ st' v. rewrite visits_read_values. apply Hs.
  - intros self state nstate reward s. apply backup_bounded.
  - intros state reward s. apply set_state_value_bounded.
Qed.
End Bounded.

(** * Further properties of the model file *)

Section LoadMore.
Context {V : Type} `{Number V} `{NumberText V} `{JsonLib V}.

Lemma load_line_entry (line : text) (s : Store V) :
  load_line line s
  = match line_entry line with
    | Returns e => (Returns tt, store_entry e s)
    | Raises e => (Raises e, s)
    | Unmodelled => (Unmodelled, s)
    end.
Proof.
  unfold load_line, line_entry.
  by destruct (outcome_bind (decode_ascii line) _) as [[[state val] vcnt]| |].
Qed.

Lemma line_entry_state (line : text) (e : State * V * Z) :
  line_entry line = Returns e -> line_state line = Some e.1.1.
Proof.
  unfold line_entry, line_state, eval_fields, py_index.
  destruct (decode_ascii line) as [decoded| |];
    cbn [outcome_bind lookup list_lookup]; [|done..].
  destruct (split_on tab decoded) as [|e0 elms];
    cbn [outcome_bind lookup list_lookup]; [done|].
  destruct (py_eval e0) as [v0| |]; cbn [outcome_bind lookup list_lookup]; [|done..].
  destruct elms as [|e1 elms]; cbn [outcome_bind lookup list_lookup]; [done|].
  destruct (py_eval e1) as [v1| |]; cbn [outcome_bind lookup list_lookup]; [|done..].
  destruct elms as [|e2 elms]; cbn [outcome_bind lookup list_lookup]; [done|].
  destruct (py_eval e2) as [v2| |]; cbn [outcome_bind lookup list_lookup]; [|done..].
  destruct (as_state v0) as [state|]; [|done].
  destruct (as_number v1) as [val|]; [|done].
  destruct (as_int v2) as [vcnt|]; [|done].
  by intros [= <-].
Qed.

Lemma load_lines_app (pre rest : list text) (s : Store V) :
  load_lines (pre ++ rest) s
  = match load_lines pre s with
    | (Returns _, s1) => load_lines rest s1
    | r => r
    end.
Proof.
  revert s. induction pre as [|l pre IH]; intros s; [done|].
  cbn [app load_lines]. destruct (load_line l s) as [[[]| |] s1]; [apply IH|done..].
Qed.

(** When a model file names a state on several lines, [load_model] leaves
    the value and the visit count of the last of them; the count of the
    file replaces the count in memory, it is not added to it. *)
Theorem load_model_last_line_wins (file first : text) (pre post : list text)
    (line : text) (s s' : Store V) (info : Info V) (state : State) (val : V)
    (vcnt : Z) :
  lines_of file = first :: pre ++ line :: post ->
  load_model file s = (Returns info, s') ->
  line_entry line = Returns (state, val, vcnt) ->
  (forall l, l ∈ post -> line_state l ≠ Some state) ->
  st_values s' !! state = Some val /\ st_visits s' !! state = Some vcnt.
Proof.
  intros Hlines Hload Hentry Hpost. unfold load_model in Hload.
  rewrite Hlines in Hload.
  destruct (json_loads first) as [info'| |]; [|done..].
  rewrite load_lines_app in Hload.
  destruct (load_lines pre s) as [[[]| |] s1]; [|by cbn in Hload..].
  cbn [load_lines] in Hload. rewrite load_line_entry, Hentry in Hload.
  destruct (load_lines_frame post (store_entry (state, val, vcnt) s1))
    as [_ Hsame].
  destruct (Hsame state Hpost) as [E1 E2].
  destruct (load_lines post _) as [[[]| |] s2]; [|done..].
  injection Hload as _ <-. cbn [snd] in *. rewrite E1, E2.
  unfold store_entry. cbn [st_values st_visits fst snd].
  by rewrite !lookup_insert_eq.
Qed.

Lemma store_entry_twice (e e' : State * V * Z) (s : Store V) :
  e.1.1 = e'.1.1 -> store_entry e (store_entry e' s) = store_entry e s.
Proof.
  intros E. unfold store_entry. cbn [st_values st_visits]. rewrite <- E.
  by rewrite !insert_insert_eq.
Qed.

Lemma store_entry_commute (e e' : State * V * Z) (s : Store V) :
  e.1.1 ≠ e'.1.1 ->
  store_entry e (store_entry e' s) = store_entry e' (store_entry e s).
Proof.
  intros E. unfold store_entry. cbn [st_values st_visits].
  f_equal; by apply insert_insert_ne.
Qed.

Lemma store_entries_absorb (e : State * V * Z) (es : list (State * V * Z))
    (s : Store V) :
  store_entry e (foldl (fun s e => store_entry e s) (store_entry e s) es)
  = store_entry e (foldl (fun s e => store_entry e s) s es).
Proof.
  revert s. induction es as [|e1 es IH]; intros s; cbn [foldl].
  - by apply store_entry_twice.
  - destruct (decide (e1.1.1 = e.1.1)) as [E|E].
    + by rewrite store_entry_twice.
    + rewrite store_entry_commute by done. apply IH.
Qed.

Lemma store_entries_twice (es : list (State * V * Z)) (s : Store V) :
  foldl (fun s e => store_entry e s) (foldl (fun s e => store_entry e s) s es) es
  = foldl (fun s e => store_entry e s) s es.
Proof.
  induction es as [|e es IH] using rev_ind; [done|].
  rewrite !foldl_app. cbn [foldl].
  by rewrite store_entries_absorb, IH.
Qed.

Lemma load_lines_entries_of (lines : list text) (s s' : Store V) :
  load_lines lines s = (Returns tt, s') ->
  exists es, forall s0,
    load_lines lines s0 = (Returns tt, foldl (fun s e => store_entry e s) s0 es).
Proof.
  revert s. induction lines as [|line rest IH]; intros s.
  - intros _. by exists [].
  - cbn [load_lines]. rewrite load_line_entry.
    destruct (line_entry line) as [e| |] eqn:E; [|done..].
    intros Hrest. destruct (IH _ Hrest) as [es Hes].
    exists (e :: es). intros s0. cbn [load_lines foldl].
    by rewrite load_line_entry, E, Hes.
Qed.

(** Loading a model file a second time changes nothing: when
    [load_model] returns, a second call on the same file, from the
    tables that the first one left, returns the same info and leaves the
    same tables. *)
Theorem load_model_idempotent (file : text) (s s' : Store V) (info : Info V) :
  load_model file s = (Returns info, s') ->
  load_model file s' = (Returns info, s').
Proof.
  unfold load_model. destruct (lines_of file) as [|first rest].
  - destruct (json_loads []) as [i| |]; cbn [outcome_bind]; [|done..].
    by intros [= <- <-].
  - destruct (json_loads first) as [i| |]; [|done..].
    destruct (load_lines rest s) as [[[]| |] s1] eqn:E; [|done..].
    intros [= <- <-].
    destruct (load_lines_entries_of rest s s1 E) as [es Hes].
    rewrite Hes in E. injection E as <-.
    by rewrite Hes, store_entries_twice.
Qed.
End LoadMore.

Section SaveMore.
Context `{JsonLib Q}.

Lemma lines_of_entries_text (vis : State -> Z) (items : list (State * Q)) :
  lines_of (entries_text vis items)
  = (fun e => format_line e.1 e.2 (vis e.1)) <$> items.
Proof.
  induction items as [|e rest IH]; [done|].
  cbn [entries_text fmap list_fmap]. by rewrite format_line_lines, IH.
Qed.

Lemma save_lines_values (items : list (State * Q)) (s : Store Q) :
  st_values (save_lines items s).2 = st_values s.
Proof.
  revert s. induction items as [|[state value] rest IH]; intros s; [done|].
  cbn [save_lines].
  pose proof (visits_read_values state s) as Hr.
  destruct (visits_read state s) as [vcnt s1]. cbn [snd] in Hr.
  specialize (IH s1). destruct (save_lines rest s1) as [t s2].
  cbn [snd] in *. congruence.
Qed.

Lemma save_model_text (max_episode : Z) (eps al : Q) (s : Store Q) :
  (save_model max_episode eps al s).1
  = json_dumps (mkInfo (lit "td") max_episode eps al) ++ [newline]
    ++ entries_text (fun st => visits_of st s) (map_to_list (st_values s))
  /\ st_values (save_model max_episode eps al s).2 = st_values s
  /\ forall st, visits_of st (save_model max_episode eps al s).2 = visits_of st s.
Proof.
  unfold save_model.
  destruct (save_lines_text (map_to_list (st_values s)) s) as [Ht Hv].
  pose proof (save_lines_values (map_to_list (st_values s)) s) as Hs.
  destruct (save_lines (map_to_list (st_values s)) s) as [t s1].
  cbn [fst snd] in *. by subst t.
Qed.

(** The file that [save_model] writes has the line of the model info and
    then one line for each state of [st_values]: ASCII text of exactly
    three tab-separated fields, the state, the value with three decimals
    and the visit count. Writing it changes no value and no visit count. *)
Theorem save_model_file_lines (max_episode : Z) (eps al : Q) (s : Store Q) :
  let info := mkInfo (lit "td") max_episode eps al in
  let file := (save_model max_episode eps al s).1 in
  newline ∉ json_dumps info ->
  lines_of file
  = (json_dumps info ++ [newline])
    :: ((fun e => format_line e.1 e.2 (visits_of e.1 s))
          <$> map_to_list (st_values s))
  /\ length (lines_of file) = S (size (st_values s))
  /\ (forall line, line ∈ drop 1 (lines_of file) ->
        forallb is_ascii line = true
        /\ exists state v,
             st_values s !! state = Some v
             /\ split_on tab line
                = [repr_state state; Q_format_fixed 3 v;
                   str_Z (visits_of state s) ++ [newline]])
  /\ st_values (save_model max_episode eps al s).2 = st_values s
  /\ forall st, visits_of st (save_model max_episode eps al s).2 = visits_of st s.
Proof.
  intros info file Hnl.
  destruct (save_model_text max_episode eps al s) as (Ht & Hv & Hn).
  assert (Hlines : lines_of file
                   = (json_dumps info ++ [newline])
                     :: ((fun e => format_line e.1 e.2 (visits_of e.1 s))
                           <$> map_to_list (st_values s))).
  { unfold file. rewrite Ht. fold info. cbn [app].
    rewrite lines_of_app by done. by rewrite lines_of_entries_text. }
  split; [done|]. split; [|split; [|done]].
  - rewrite Hlines. cbn [length]. by rewrite length_fmap, length_map_to_list.
  - rewrite Hlines. cbn [drop]. intros line Hin.
    apply list_elem_of_fmap in Hin as ([state v] & -> & Hin).
    apply elem_of_map_to_list in Hin. cbn [fst snd].
    split; [apply format_line_ascii|].
    exists state, v. split; [done|apply format_line_split].
Qed.

Lemma save_load_store (max_episode : Z) (eps al : Q) (s s0 : Store Q) :
  let info := mkInfo (lit "td") max_episode eps al in
  newline ∉ json_dumps info ->
  json_loads (json_dumps info ++ [newline]) = Returns info ->
  load_model (save_model max_episode eps al s).1 s0
  = (Returns info,
     load_entries (fun st => visits_of st s) (map_to_list (st_values s)) s0).
Proof.
  intros info Hnl Hjson.
  destruct (save_model_text max_episode eps al s) as (Ht & _ & _).
  rewrite Ht. fold info. unfold load_model. cbn [app].
  rewrite lines_of_app by done. by rewrite Hjson, load_lines_entries.
Qed.

Lemma load_entries_lookup (s s0 : Store Q) (st : State) :
  let s' := load_entries (fun st => visits_of st s) (map_to_list (st_values s)) s0 in
  st_values s' !! st
  = match st_values s !! st with
    | Some v => Some (Q_round3 v)
    | None => st_values s0 !! st
    end
  /\ st_visits s' !! st
     = match st_values s !! st with
       | Some v => Some (visits_of st s)
       | None => st_visits s0 !! st
       end.
Proof.
  cbv zeta. destruct (st_values s !! st) as [v|] eqn:E.
  - apply (load_entries_present (fun st => visits_of st s)).
    + apply NoDup_fst_map_to_list.
    + by apply elem_of_map_to_list.
  - apply load_entries_absent. intros Hin.
    apply list_elem_of_fmap in Hin as ([st' v] & -> & Hin).
    apply elem_of_map_to_list in Hin. cbn [fst] in E. congruence.
Qed.

Lemma round_half_even_multiple (m d : Z) :
  (0 < d)%Z -> round_half_even (m * d) d = m.
Proof.
  intros Hd. unfold round_half_even.
  rewrite Z.div_mul, Z.mod_mul by lia.
  destruct (2 * 0 <? d)%Z eqn:E; [done|]. apply Z.ltb_ge in E. lia.
Qed.

Lemma Q_round3_decimal (m : Z) : Q_round3 (m # 1000) = (m # 1000)%Q.
Proof.
  unfold Q_round3, Q_scaled. cbn [Qnum Qden].
  change (10 ^ Z.of_nat 3)%Z with 1000%Z.
  by rewrite round_half_even_multiple.
Qed.

Lemma Q_round3_exact (v : Q) (m : Z) :
  (v == m # 1000)%Q -> Q_round3 v = (m # 1000)%Q.
Proof.
  intros E. unfold Q_round3, Q_scaled, Q_of_decimal.
  change (10 ^ Z.of_nat 3)%Z with 1000%Z.
  unfold Qeq in E. cbn [Qnum Qden] in E.
  rewrite E, round_half_even_multiple by done. done.
Qed.

Lemma Q_round3_twice (v : Q) : Q_round3 (Q_round3 v) = Q_round3 v.
Proof.
  change (Q_round3 v) with (Q_scaled 3 v # 1000)%Q. apply Q_round3_decimal.
Qed.

(** A value of at most three decimals, such as the default value and the
    rewards, comes back from [save_model] and [load_model] as the same
    number, with its visit count. *)
Theorem save_load_exact_values (max_episode : Z) (eps al : Q) (s s0 : Store Q) :
  let info := mkInfo (lit "td") max_episode eps al in
  let s' := (load_model (save_model max_episode eps al s).1 s0).2 in
  newline ∉ json_dumps info ->
  json_loads (json_dumps info ++ [newline]) = Returns info ->
  forall state v m,
    st_values s !! state = Some v -> (v == m # 1000)%Q ->
    st_values s' !! state = Some (m # 1000)%Q
    /\ st_visits s' !! state = Some (visits_of state s).
Proof.
  intros info s' Hnl Hjson state v m Hv Hm. unfold s'.
  rewrite (save_load_store max_episode eps al s s0 Hnl Hjson). cbn [snd].
  destruct (load_entries_lookup s s0 state) as [E1 E2].
  rewrite Hv in E1, E2. rewrite E1, E2.
  by rewrite (Q_round3_exact v m Hm).
Qed.

(** Tables that were loaded from a file that [save_model] wrote are
    reproduced exactly by a further [save_model] and [load_model]. *)
Theorem save_load_fixed_point (max_episode : Z) (eps al : Q) (s : Store Q) :
  let info := mkInfo (lit "td") max_episode eps al in
  let s1 := (load_model (save_model max_episode eps al s).1 empty_store).2 in
  newline ∉ json_dumps info ->
  json_loads (json_dumps info ++ [newline]) = Returns info ->
  load_model (save_model max_episode eps al s1).1 empty_store
  = (Returns info, s1).
Proof.
  intros info s1 Hnl Hjson.
  rewrite (save_load_store max_episode eps al s1 empty_store Hnl Hjson).
  f_equal. unfold s1.
  rewrite (save_load_store max_episode eps al s empty_store Hnl Hjson).
  cbn [snd].
  set (t := load_entries (fun st => visits_of st s) (map_to_list (st_values s))
              empty_store).
  assert (Ht : forall st,
    st_values t !! st = Q_round3 <$> st_values s !! st
    /\ st_visits t !! st = (fun _ => visits_of st s) <$> st_values s !! st).
  { intros st. destruct (load_entries_lookup s empty_store st) as [E1 E2].
    fold t in E1, E2. rewrite E1, E2.
    destruct (st_values s !! st); cbn; by rewrite ?lookup_empty. }
  set (t' := load_entries (fun st => visits_of st t) (map_to_list (st_values t))
               empty_store).
  assert (Ht' : forall st,
    st_values t' !! st = st_values t !! st
    /\ st_visits t' !! st = st_visits t !! st).
  { intros st. destruct (load_entries_lookup t empty_store st) as [E1 E2].
    fold t' in E1, E2. rewrite E1, E2. destruct (Ht st) as [F1 F2].
    unfold visits_of at 1. rewrite F1, F2.
    destruct (st_values s !! st) as [v|]; cbn; [|by rewrite !lookup_empty].
    by rewrite Q_round3_twice. }
  destruct t as [tv tn], t' as [tv' tn']. cbn [st_values st_visits] in Ht'.
  f_equal; apply map_eq; intros st; by destruct (Ht' st).
Qed.
End SaveMore.

(** * Further properties of the commands *)

Section TallyQ.

(** With exact rewards, the draws that [_bench] reports are the episodes
    whose reward is neither 1 nor -1, and none of the three counts is
    negative. *)
Theorem bench_tally_partition (results : list Q) :
  let t := bench_tally results in
  let other := fun r => negb (Qeq_bool r 1) && negb (Qeq_bool r (-1)) in
  draw t = Z.of_nat (length (List.filter other results))
  /\ (0 <= base_win t)%Z /\ (0 <= td_win t)%Z /\ (0 <= draw t)%Z.
Proof.
  cbv zeta.
  assert (Hd : draw (bench_tally results)
               = Z.of_nat (length (List.filter
                    (fun r => negb (Qeq_bool r 1) && negb (Qeq_bool r (-1)))
                    results))).
  { unfold bench_tally, py_count. cbn [draw num_eqb num_of_Z Q_Number].
    change (inject_Z 1) with 1%Q. change (inject_Z (-1)) with (-1)%Q.
    induction results as [|r rest IH]; [done|].
    cbn [List.filter length].
    destruct (Qeq_bool r 1) eqn:E1, (Qeq_bool r (-1)) eqn:E2;
      cbn [negb andb length]; try lia.
    apply Qeq_bool_iff in E1, E2. rewrite E1 in E2. discriminate E2. }
  split; [done|]. rewrite Hd. unfold bench_tally, py_count.
  cbn [base_win td_win]. lia.
Qed.
End TallyQ.

Section Replace.

Lemma remove_all_absent (fuel : nat) (old s : text) :
  (length s <= fuel)%nat ->
  old = [] \/ (forall k, ~ occurs_at old s k) ->
  remove_all fuel old s = s.
Proof.
  revert s. induction fuel as [|fuel IH]; intros s Hlen Hno; [done|].
  destruct s as [|c s']; [done|]. cbn [remove_all].
  assert (Hc : bool_decide (old ≠ []) && bool_decide (old `prefix_of` c :: s')
               = false).
  { destruct Hno as [->|Hno].
    - by rewrite bool_decide_eq_false_2 by (by intros []).
    - rewrite (bool_decide_eq_false_2 (old `prefix_of` c :: s')).
      + apply andb_false_r.
      + intros Hp. apply (Hno 0%nat). split; [cbn; lia|done]. }
  rewrite Hc. f_equal. apply IH; [cbn [length] in Hlen; lia|].
  destruct Hno as [->|Hno]; [by left|right].
  intros k [Hk Hp]. apply (Hno (S k)). split; [cbn [length]; lia|done].
Qed.

(** The name that [_bench] reports for the model file,
    [model_file.replace(CWD, '')]: an empty [CWD] changes nothing; when
    [CWD] is not empty and does not occur in [rest], the file
    [CWD + rest] is reported as [rest], and [rest] as it is. *)
Theorem py_remove_base (CWD rest : text) :
  py_remove [] rest = rest
  /\ (CWD ≠ [] -> (forall k, ~ occurs_at CWD rest k) ->
      py_remove CWD rest = rest /\ py_remove CWD (CWD ++ rest) = rest).
Proof.
  split; [|intros Hne Hno; split].
  - apply remove_all_absent; [done|by left].
  - apply remove_all_absent; [done|by right].
  - unfold py_remove. destruct CWD as [|c cwd]; [done|].
    cbn [app length remove_all].
    rewrite bool_decide_eq_true_2 by done.
    rewrite bool_decide_eq_true_2.
    2:{ change (c :: cwd ++ rest) with ((c :: cwd) ++ rest). by apply prefix_app_r. }
    cbn [andb drop]. rewrite drop_app_length.
    apply remove_all_absent; [rewrite length_app; lia|by right].
Qed.
End Replace.

Section LearnBenchQ.
Context `{JsonLib Q} `{GameEnv} `{Random Q} `{EnvObject Q} `{!BaseAgent Q}.

(** [_learnbench], when it returns a result: the info is the one that
    [_learn] saved, the tally adds up to the number of benchmark
    episodes, the output is the two progress lines when [show] is set
    and nothing otherwise (the result itself is never printed), and the
    benchmark starts from the values of the model file, the learnt
    values rounded to three decimals, with the learnt visit counts. *)
Theorem learnbench_result (CWD : text) (fuel : nat)
    (max_episode max_bench_episode : Z) (eps al : Q) (model_file : text)
    (show : bool) (env_bench : Env) (w w' : World) (res : BenchResult Q)
    (out : list text) :
  let info := mkInfo (lit "td") max_episode eps al in
  newline ∉ json_dumps info ->
  json_loads (json_dumps info ++ [newline]) = Returns info ->
  _learnbench CWD fuel max_episode max_bench_episode eps al model_file show
              env_bench w
  = Some (Returns res, out, w') ->
  bench_info res = info
  /\ bench_model_file res = py_remove CWD model_file
  /\ (base_win (bench_tally_of res) + td_win (bench_tally_of res)
      + draw (bench_tally_of res) = Z.of_nat (Z.to_nat max_bench_episode))%Z
  /\ out = (if show then [lit "Learning..."; lit "Benchmarking..."] else [])
  /\ exists file w1,
       _learn fuel max_episode eps al w = Some (Ok file, w1)
       /\ forall st,
            st_values (load_model file (w_store w1)).2 !! st
            = Q_round3 <$> st_values (w_store w1) !! st
            /\ visits_of st (load_model file (w_store w1)).2
               = visits_of st (w_store w1).
Proof.
  intros info Hnl Hjson. unfold _learnbench.
  destruct (_learn fuel max_episode eps al w) as [[[file|e] w1]|] eqn:El;
    [|done..].
  assert (Hfile : exists sr,
             file = (save_model max_episode eps al sr).1
             /\ w_store w1 = (save_model max_episode eps al sr).2).
  { unfold _learn in El.
    destruct (learn_run fuel max_episode eps al w) as [[[[]|e] wr]|]; [|done..].
    exists (w_store wr).
    destruct (save_model max_episode eps al (w_store wr)) as [f s1].
    by injection El as <- <-. }
  destruct Hfile as (sr & Hf & Hs).
  destruct (save_model_text max_episode eps al sr) as (_ & Hv & Hn).
  assert (Hload : load_model file (w_store w1)
                  = (Returns info,
                     load_entries (fun st => visits_of st sr)
                       (map_to_list (st_values sr)) (w_store w1))).
  { rewrite Hf. by apply save_load_store. }
  unfold _bench. cbn [w_store w_rng w_env]. rewrite Hload.
  destruct (bench_episodes _ _ _ _ _ _) as [[[results|e] w3]|] eqn:Eb; [|done..].
  intros [= <- <- <-]. cbn [bench_info bench_model_file bench_tally_of].
  apply bench_episodes_length in Eb. cbn [length] in Eb.
  destruct (bench_tally_sum results) as (_ & _ & _ & Hsum).
  split; [done|]. split; [done|]. split; [by rewrite Hsum, Eb|].
  split; [by destruct show|].
  exists file, w1. split; [done|]. intros st. rewrite Hload. cbn [snd].
  destruct (load_entries_lookup sr (w_store w1) st) as [E1 E2].
  rewrite E1. unfold visits_of at 1. rewrite E2, Hs, Hv.
  destruct (st_values sr !! st) as [v|] eqn:Ev; cbn.
  - split; [done|]. by rewrite Hn.
  - done.
Qed.
End LearnBenchQ.

Section Grid.

Lemma str_Z_uint (z : Z) :
  (0 <= z)%Z ->
  exists d, str_Z z = lit (NilEmpty.string_of_uint d) /\ Z.of_uint d = z.
Proof.
  intros Hz. unfold str_Z.
  pose proof (DecimalZ.of_to z) as Hof.
  destruct (to_int_not_nil z) as [Hn _].
  destruct (Z.to_int z) as [d|d] eqn:E.
  - exists d. split; [|done]. cbn [NilZero.string_of_int].
    unfold NilZero.string_of_uint. destruct d; [congruence|done..].
  - destruct z; cbn in E; try discriminate E; lia.
Qed.

Lemma uint_of_zeros (k : nat) (t : text) :
  NilEmpty.uint_of_string (string_of_list_ascii (replicate k "0"%char ++ t))
  = Nat.iter k Decimal.D0 <$> NilEmpty.uint_of_string (string_of_list_ascii t).
Proof.
  induction k as [|k IH]; cbn [replicate app Nat.iter].
  - by destruct (NilEmpty.uint_of_string _).
  - cbn [string_of_list_ascii NilEmpty.uint_of_string]. rewrite IH.
    by destruct (NilEmpty.uint_of_string (string_of_list_ascii t)).
Qed.

Lemma of_uint_zeros (k : nat) (d : Decimal.uint) :
  Z.of_uint (Nat.iter k Decimal.D0 d) = Z.of_uint d.
Proof. induction k as [|k IH]; [done|]. by rewrite <- IH. Qed.

Lemma digits_number_format (i : nat) :
  digits_number (format_03d i) = Some (Z.of_nat i).
Proof.
  unfold digits_number, format_03d.
  destruct (str_Z_uint (Z.of_nat i)) as (d & -> & Hd); [lia|].
  rewrite uint_of_zeros. unfold lit.
  rewrite string_of_list_ascii_of_string, NilEmpty.usu. cbn [fmap option_fmap option_map].
  by rewrite of_uint_zeros, Hd.
Qed.

Lemma path_join_inj (a b b' : text) : path_join a b = path_join a b' -> b = b'.
Proof.
  unfold path_join. destruct (last a) as [c|]; [|done].
  destruct (bool_decide (c = "/"%char)); intros E.
  - by apply app_inv_head in E.
  - by apply app_inv_head, app_inv_head in E.
Qed.

Lemma model_file_inj (CWD : text) (i j : nat) :
  path_join CWD (lit "gsmodels/model_" ++ format_03d i ++ lit ".dat")
  = path_join CWD (lit "gsmodels/model_" ++ format_03d j ++ lit ".dat") ->
  i = j.
Proof.
  intros E. apply path_join_inj, app_inv_head, app_inv_tail in E.
  pose proof (digits_number_format i) as Hi.
  rewrite E, digits_number_format in Hi. injection Hi as Hi. lia.
Qed.

(** The argument lists that [gridsearch] builds: no two of them name the
    same model file; each keeps its three parameters, asks for 1000
    benchmark episodes and for no output; there are 432 of them, and 16
    in test mode. *)
Theorem gridsearch_args_files (CWD : text) (_args : list (Z * float * float)) :
  NoDup (ga_model_file <$> grid_args CWD _args)
  /\ (fun a => (ga_max_episode a, ga_epsilon a, ga_alpha a))
       <$> grid_args CWD _args = _args
  /\ Forall (fun a => ga_max_bench_episode a = 1000%Z /\ ga_show a = false)
            (grid_args CWD _args)
  /\ length (gridsearch_args CWD false) = 432%nat
  /\ length (gridsearch_args CWD true) = 16%nat.
Proof.
  assert (Hlook : forall i a, grid_args CWD _args !! i = Some a ->
            exists arg, _args !! i = Some arg
              /\ a = mkGridArg arg.1.1 1000 arg.1.2 arg.2
                       (path_join CWD
                          (lit "gsmodels/model_" ++ format_03d i ++ lit ".dat"))
                       false).
  { intros i a Ha. unfold grid_args in Ha. rewrite list_lookup_imap in Ha.
    destruct (_args !! i) as [arg|]; [|done]. injection Ha as <-. by exists arg. }
  split; [|split; [|split; [|split]]].
  - apply NoDup_alt. intros i j x Hi Hj.
    rewrite list_lookup_fmap in Hi, Hj.
    destruct (grid_args CWD _args !! i) as [a|] eqn:Ea; [|done].
    destruct (grid_args CWD _args !! j) as [b|] eqn:Eb; [|done].
    destruct (Hlook i a Ea) as (arg1 & _ & ->).
    destruct (Hlook j b Eb) as (arg2 & _ & ->).
    cbn in Hi, Hj. injection Hi as <-. injection Hj as Hj.
    symmetry. by apply (model_file_inj CWD).
  - apply list_eq. intros i. rewrite list_lookup_fmap.
    unfold grid_args. rewrite list_lookup_imap.
    by destruct (_args !! i) as [[[e x] a]|].
  - apply Forall_forall. intros a Ha.
    apply list_elem_of_lookup in Ha as [i Hi].
    by destruct (Hlook i a Hi) as (arg & _ & ->).
  - unfold gridsearch_args, grid_args. rewrite length_imap. by vm_compute.
  - unfold gridsearch_args, grid_args. rewrite length_imap. by vm_compute.
Qed.
End Grid.

(** * Further evaluations on the game *)

Section MoreEvaluations.
#[local] Existing Instance TicTacToe.game.
#[local] Existing Instance TicTacToe.random.
#[local] Existing Instance TicTacToe.env_object.
#[local] Existing Instance TicTacToe.base_agent.
#[local] Existing Instance SimpleJson.json.

Lemma world_stale_values :
  st_values (w_store world_stale) = {[state_terminal := (-500 # 1000)%Q]}
  /\ st_visits (w_store world_stale) = {[state_terminal := 1%Z]}.
Proof. split; by vm_compute. Qed.

Lemma step_reward_bounded (action : Action) (env : Env) :
  (- (1) <= (env_step action env).1.1.2 <= 1)%Q.
Proof.
  cbn [env_step TicTacToe.env_object]. unfold TicTacToe.step.
  destruct (TicTacToe.env_done env); cbn [fst snd]; [by vm_compute|].
  destruct (0 <? _)%Z; [|by vm_compute].
  destruct (TicTacToe.env_mark env); by vm_compute.
Qed.

(** The positions of the greatest of three values. *)
Lemma best_val_indices_extremes_witness :
  [0; 1; 1]%Q ≠ []
  /\ exists best indices,
       best_val_indices [0; 1; 1]%Q py_max = Ok indices
       /\ positions_of best [0; 1; 1]%Q indices.
Proof.
  split; [discriminate|].
  destruct (best_val_indices_extremes [0; 1; 1]%Q) as (_ & _ & Hne).
  destruct (Hne ltac:(discriminate)) as [(best & indices & Hb & _ & _ & Hp) _].
  exists best, indices. split; [exact Hb|exact Hp].
Defined.

(** The agent of [_bench] on a position of the game. *)
Lemma act_without_epsilon_witness :
  (epsilon agent_bench == 0)%Q
  /\ (0 <= (rng_random seed_0).1)%Q
  /\ act agent_bench state_O_wins [2; 5; 6; 7; 8]%Z empty_store seed_0
     = greedy_action agent_bench state_O_wins [2; 5; 6; 7; 8]%Z empty_store
         (rng_random seed_0).2.
Proof.
  assert (He : (epsilon agent_bench == 0)%Q) by reflexivity.
  assert (Hr : (0 <= (rng_random seed_0).1)%Q) by (by vm_compute).
  split; [exact He|]. split; [exact Hr|].
  exact (act_without_epsilon agent_bench state_O_wins [2; 5; 6; 7; 8]%Z
           empty_store seed_0 He Hr).
Defined.

(** [act] on a position of the game with five free cells. *)
Lemma act_available_witness :
  [2; 5; 6; 7; 8]%Z ≠ ([] : list Action)
  /\ exists action s' g',
       act agent_O state_O_wins [2; 5; 6; 7; 8]%Z empty_store seed_0
       = (Ok action, s', g')
       /\ action ∈ ([2; 5; 6; 7; 8]%Z : list Action).
Proof.
  split; [discriminate|].
  destruct (act_available agent_O state_O_wins [2; 5; 6; 7; 8]%Z empty_store seed_0)
    as [_ Hok].
  destruct (Hok ltac:(discriminate)) as (action & s' & g' & Ha & Hin & _).
  exists action, s', g'. split; [exact Ha|exact Hin].
Defined.

(** A backup of a winning move leaves a third state as it was. *)
Lemma backup_frame_witness :
  state_terminal ≠ state_O_wins
  /\ state_terminal ≠ state_O_won
  /\ st_values (backup agent_O state_O_wins state_O_won 1%Q (w_store world_stale))
       !! state_terminal
     = st_values (w_store world_stale) !! state_terminal.
Proof.
  assert (H1 : state_terminal ≠ state_O_wins) by discriminate.
  assert (H2 : state_terminal ≠ state_O_won) by discriminate.
  split; [exact H1|]. split; [exact H2|].
  exact (proj1 (backup_frame agent_O state_O_wins state_O_won 1%Q
                  (w_store world_stale) state_terminal H1 (or_introl H2))).
Defined.

(** An episode of training from tables loaded from a file. *)
Lemma learn_keeps_counted_witness :
  store_counted (w_store world_stale)
  /\ exists r w',
       _learn 20 1 (3 # 10) (4 # 10) world_stale = Some (r, w')
       /\ store_counted (w_store w').
Proof.
  assert (Hc : store_counted (w_store world_stale)).
  { intros st. destruct world_stale_values as [-> ->].
    destruct (decide (st = state_terminal)) as [->|Hne].
    - rewrite !lookup_singleton_eq. split; [done|]. intros n [= <-]. lia.
    - rewrite !lookup_singleton_ne by done. split; [done|]. intros n [=]. }
  split; [exact Hc|].
  assert (E : exists r w', _learn 20 1 (3 # 10) (4 # 10) world_stale = Some (r, w')).
  { vm_compute. eexists _, _. reflexivity. }
  destruct E as (r & w' & E). exists r, w'. split; [exact E|].
  exact (learn_keeps_counted 20 1 (3 # 10) (4 # 10) world_stale w' r Hc E).
Defined.

(** The state of the loaded tables is still there after an episode. *)
Lemma learn_grows_witness :
  exists r w',
    _learn 20 1 (3 # 10) (4 # 10) world_stale = Some (r, w')
    /\ is_Some (st_values (w_store w') !! state_terminal)
    /\ (1 <= visits_of state_terminal (w_store w'))%Z.
Proof.
  assert (E : exists r w', _learn 20 1 (3 # 10) (4 # 10) world_stale = Some (r, w')).
  { vm_compute. eexists _, _. reflexivity. }
  destruct E as (r & w' & E). exists r, w'. split; [exact E|].
  destruct (learn_grows 20 1 (3 # 10) (4 # 10) world_stale w' r E state_terminal)
    as [Hk Hn].
  split.
  - apply Hk. destruct world_stale_values as [-> _].
    rewrite lookup_singleton_eq. by eexists.
  - assert (Hv : visits_of state_terminal (w_store world_stale) = 1%Z)
      by (by vm_compute).
    rewrite Hv in Hn. exact Hn.
Defined.

(** An episode of the game keeps the values between -1 and 1. *)
Lemma learn_values_bounded_witness :
  (0 <= 4 # 10 <= 1)%Q
  /\ store_bounded (- (1)) 1 (w_store world_stale)
  /\ exists r w',
       _learn 20 1 (3 # 10) (4 # 10) world_stale = Some (r, w')
       /\ store_bounded (- (1)) 1 (w_store w').
Proof.
  assert (Ha : (0 <= 4 # 10 <= 1)%Q) by (by vm_compute).
  assert (Hd : (- (1) <= inject_Z DEFAULT_VALUE <= 1)%Q) by (by vm_compute).
  assert (HO : (- (1) <= inject_Z O_REWARD <= 1)%Q) by (by vm_compute).
  assert (HX : (- (1) <= inject_Z X_REWARD <= 1)%Q) by (by vm_compute).
  assert (Hb : store_bounded (- (1)) 1 (w_store world_stale)).
  { intros st v. destruct world_stale_values as [-> _].
    destruct (decide (st = state_terminal)) as [->|Hne].
    - rewrite lookup_singleton_eq. intros [= <-]. by vm_compute.
    - by rewrite lookup_singleton_ne. }
  split; [exact Ha|]. split; [exact Hb|].
  assert (E : exists r w', _learn 20 1 (3 # 10) (4 # 10) world_stale = Some (r, w')).
  { vm_compute. eexists _, _. reflexivity. }
  destruct E as (r & w' & E). exists r, w'. split; [exact E|].
  exact (learn_values_bounded (- (1)) 1 Hd HO HX 20 1 (3 # 10) (4 # 10)
           world_stale w' r Ha step_reward_bounded Hb E).
Defined.


Lemma json_info_1 :
  (newline ∉ json_dumps info_1)
  /\ json_loads (json_dumps info_1 ++ [newline]) = Returns info_1.
Proof.
  split; [|by vm_compute]. apply (bool_decide_unpack _). vm_compute. exact I.
Qed.

Lemma json_info_500 :
  (newline ∉ json_dumps info_500)
  /\ json_loads (json_dumps info_500 ++ [newline]) = Returns info_500.
Proof.
  split; [|by vm_compute]. apply (bool_decide_unpack _). vm_compute. exact I.
Qed.

(** The lines of the file of the tables after four backups. *)
Lemma save_model_file_lines_witness :
  (newline ∉ json_dumps info_500)
  /\ length (lines_of (save_model 500 (3 # 10) (4 # 10) store_4).1)
     = S (size (st_values store_4)).
Proof.
  destruct json_info_500 as [Hnl _]. split; [exact Hnl|].
  exact (proj1 (proj2 (save_model_file_lines 500 (3 # 10) (4 # 10) store_4 Hnl))).
Defined.

(** A file with two lines for one state: the second one is kept. *)
Lemma load_model_last_line_wins_witness :
  st_values (load_model file_two_lines empty_store).2 !! state_O_wins
  = Some (250 # 1000)%Q
  /\ st_visits (load_model file_two_lines empty_store).2 !! state_O_wins
     = Some 7%Z.
Proof.
  apply (load_model_last_line_wins file_two_lines
           (json_dumps info_1 ++ [newline])
           [format_line state_O_wins (1 # 2) 1] []
           (format_line state_O_wins (1 # 4) 7)
           empty_store (load_model file_two_lines empty_store).2 info_1).
  - by vm_compute.
  - by vm_compute.
  - by vm_compute.
  - intros l Hl. by apply elem_of_nil in Hl.
Defined.

(** A model file of one state, loaded twice. *)
Lemma load_model_idempotent_witness :
  load_model file_stale empty_store
  = (Returns info_1, (load_model file_stale empty_store).2)
  /\ load_model file_stale (load_model file_stale empty_store).2
     = (Returns info_1, (load_model file_stale empty_store).2).
Proof.
  assert (E : load_model file_stale empty_store
              = (Returns info_1, (load_model file_stale empty_store).2))
    by (by vm_compute).
  split; [exact E|].
  exact (load_model_idempotent file_stale empty_store _ info_1 E).
Defined.

(** A model file in the directory of the script. *)
Lemma py_remove_base_witness :
  cwd_repo ≠ []
  /\ (forall k, ~ occurs_at cwd_repo file_in_cwd k)
  /\ py_remove cwd_repo (cwd_repo ++ file_in_cwd) = file_in_cwd.
Proof.
  assert (Hne : cwd_repo ≠ []) by discriminate.
  assert (Hno : forall k, ~ occurs_at cwd_repo file_in_cwd k).
  { intros k [_ Hp]. apply prefix_length in Hp. rewrite length_drop in Hp.
    change (length cwd_repo) with 14%nat in Hp.
    change (length file_in_cwd) with 13%nat in Hp. lia. }
  split; [exact Hne|]. split; [exact Hno|].
  exact (proj2 (proj2 (py_remove_base cwd_repo file_in_cwd) Hne Hno)).
Defined.

(** One episode of training and one of benchmark, with output. *)
Lemma learnbench_result_witness :
  exists res out w',
    _learnbench cwd_repo 20 1 1 (3 # 10) (4 # 10) (cwd_repo ++ file_in_cwd) true
                env_0 world_0
    = Some (Returns res, out, w')
    /\ bench_info res = info_1
    /\ out = [lit "Learning..."; lit "Benchmarking..."]
    /\ (base_win (bench_tally_of res) + td_win (bench_tally_of res)
        + draw (bench_tally_of res) = 1)%Z.
Proof.
  destruct json_info_1 as [Hnl Hjs].
  assert (E : exists res out w',
             _learnbench cwd_repo 20 1 1 (3 # 10) (4 # 10)
               (cwd_repo ++ file_in_cwd) true env_0 world_0
             = Some (Returns res, out, w')).
  { vm_compute. eexists _, _, _. reflexivity. }
  destruct E as (res & out & w' & E). exists res, out, w'.
  split; [exact E|].
  destruct (learnbench_result cwd_repo 20 1 1 (3 # 10) (4 # 10)
              (cwd_repo ++ file_in_cwd) true env_0 world_0 w' res out
              Hnl Hjs E) as (Hi & _ & Hsum & Hout & _).
  split; [exact Hi|]. split; [exact Hout|exact Hsum].
Defined.

(** The reward of a won state through the file. *)
Lemma save_load_exact_values_witness :
  st_values store_4 !! state_O_won = Some (inject_Z 1)
  /\ (inject_Z 1 == 1000 # 1000)%Q
  /\ st_values (load_model (save_model 500 (3 # 10) (4 # 10) store_4).1
                  empty_store).2 !! state_O_won
     = Some (1000 # 1000)%Q.
Proof.
  destruct json_info_500 as [Hnl Hjs].
  assert (Hv : st_values store_4 !! state_O_won = Some (inject_Z 1))
    by (by vm_compute).
  assert (Hm : (inject_Z 1 == 1000 # 1000)%Q) by reflexivity.
  split; [exact Hv|]. split; [exact Hm|].
  exact (proj1 (save_load_exact_values 500 (3 # 10) (4 # 10) store_4 empty_store
                  Hnl Hjs state_O_won (inject_Z 1) 1000 Hv Hm)).
Defined.

(** The tables after four backups, through the file twice. *)
Lemma save_load_fixed_point_witness :
  let s1 := (load_model (save_model 500 (3 # 10) (4 # 10) store_4).1
               empty_store).2 in
  load_model (save_model 500 (3 # 10) (4 # 10) s1).1 empty_store
  = (Returns info_500, s1).
Proof.
  destruct json_info_500 as [Hnl Hjs].
  exact (save_load_fixed_point 500 (3 # 10) (4 # 10) store_4 Hnl Hjs).
Defined.
End MoreEvaluations.

(** * The value of the last state of an episode *)

Section Anchor.
Context {V : Type} `{NumberOrder V} `{GameEnv} `{Random V} `{EnvObject V}.
Context `{!BaseAgent V}.

Lemma next_mark_twice (m : Mark) : next_mark (next_mark m) = m.
Proof. by destruct m. Qed.

Lemma empty_store_anchored : terminal_anchored (@empty_store V).
Proof.
  intros st v Hv. unfold empty_store in Hv. cbn [st_values] in Hv.
  by rewrite lookup_empty in Hv.
Qed.

Lemma init_value_entering (self : TDAgent V) (st : State) :
  next_mark st.2 = mark self ->
  init_value self st = num_of_Z (entering_reward st).
Proof.
  intros Hm. unfold init_value, entering_reward, reward_of. rewrite Hm.
  by destruct (0 <? check_game_status st.1)%Z.
Qed.

Lemma set_state_value_anchored (st : State) (v : V) (s : Store V) :
  (ends_game st = true -> num_eqb v (num_of_Z (entering_reward st)) = true) ->
  terminal_anchored s -> terminal_anchored (set_state_value st v s).
Proof.
  intros Hv Hs st' v'. destruct (decide (st = st')) as [<-|Hne].
  - rewrite set_state_value_values_eq. by intros [= <-].
  - rewrite set_state_value_values_ne by done. apply Hs.
Qed.

Lemma ask_value_anchored (self : TDAgent V) (st : State) (s : Store V) :
  ends_game st = false \/ next_mark st.2 = mark self ->
  terminal_anchored s -> terminal_anchored (ask_value self st s).2.
Proof.
  intros Hst Hs. destruct (st_values s !! st) as [v|] eqn:E.
  - by rewrite (ask_value_known self st s v E).
  - rewrite (ask_value_new self st s E). cbn [snd].
    apply set_state_value_anchored; [|done].
    intros Hend. destruct Hst as [Hopen|Hm]; [congruence|].
    rewrite (init_value_entering self st Hm). apply num_eqb_refl.
Qed.

Lemma ask_value_entering (self : TDAgent V) (st : State) (s : Store V) :
  next_mark st.2 = mark self -> ends_game st = true -> terminal_anchored s ->
  exists v, st_values (ask_value self st s).2 !! st = Some v
            /\ num_eqb v (num_of_Z (entering_reward st)) = true.
Proof.
  intros Hm Hend Hs.
  pose proof (ask_value_anchored self st s (or_intror Hm) Hs) as Ha.
  pose proof (ask_value_stored self st s) as Hv.
  exists (value_or_init self st s). split; [done|]. by apply (Ha st).
Qed.

Section Contract.
Variable sync : Env -> State -> Prop.
Hypothesis contract : EnvContract sync.

Lemma ask_values_anchored (self : TDAgent V) (state : State)
    (ava_actions : list Action) (s : Store V) :
  mark self = state.2 -> terminal_anchored s ->
  terminal_anchored (ask_values self state ava_actions s).2.
Proof.
  intros Hm. revert s.
  induction ava_actions as [|a rest IH]; intros s Hs; [done|].
  cbn [ask_values].
  assert (Ha : terminal_anchored
                 (ask_value self (after_action_state state a) s).2).
  { apply ask_value_anchored; [right|done].
    by rewrite (contract_after sync contract), next_mark_twice. }
  destruct (ask_value self (after_action_state state a) s) as [nval s1].
  cbn [snd] in Ha.
  assert (Hr : terminal_anchored
                 (visits_read (after_action_state state a) s1).2).
  { intros st v. rewrite visits_read_values. apply Ha. }
  destruct (visits_read (after_action_state state a) s1) as [vc s2].
  cbn [snd] in Hr. specialize (IH s2 Hr).
  by destruct (ask_values self state rest s2) as [vals s3].
Qed.

Lemma act_anchored (self : TDAgent V) (state : State)
    (ava_actions : list Action) (s : Store V) (g : Rng) :
  mark self = state.2 -> terminal_anchored s ->
  terminal_anchored (act self state ava_actions s g).1.2.
Proof.
  intros Hm Hs. unfold act, egreedy_policy.
  destruct (rng_random g) as [e g1].
  destruct (num_ltb e _).
  - unfold random_action. by destruct (random_choice ava_actions g1).
  - unfold greedy_action.
    destruct (0 <? length ava_actions)%nat; [|done].
    pose proof (ask_values_anchored self state ava_actions s Hm Hs) as Hk.
    destruct (ask_values self state ava_actions s) as [vals s1].
    cbn [snd] in Hk.
    destruct (match mark self with
              | MarkO => best_val_indices vals py_max
              | MarkX => best_val_indices vals py_min
              end) as [indices|e']; [|done].
    destruct (random_choice indices g1) as [[aidx|e'] g']; [|done].
    by destruct (ava_actions !! aidx).
Qed.

Lemma ends_game_ne (state nstate : State) :
  ends_game state = false -> ends_game nstate = true -> state ≠ nstate.
Proof. intros Ha Hb ->. congruence. Qed.

Lemma backup_anchored (self : TDAgent V) (state nstate : State) (reward : V)
    (s : Store V) :
  ends_game state = false -> nstate.2 = next_mark state.2 ->
  mark self = state.2 -> terminal_anchored s ->
  terminal_anchored (backup self state nstate reward s)
  /\ (ends_game nstate = true ->
      exists v, st_values (backup self state nstate reward s) !! nstate = Some v
                /\ num_eqb v (num_of_Z (entering_reward nstate)) = true).
Proof.
  intros Hopen Hn Hm Hs. rewrite backup_unfold.
  assert (Hnm : next_mark nstate.2 = mark self)
    by (by rewrite Hn, next_mark_twice).
  assert (Ha1 : terminal_anchored (ask_value self state s).2)
    by (apply ask_value_anchored; [by left|done]).
  assert (Ha2 : terminal_anchored
                  (ask_value self nstate (ask_value self state s).2).2)
    by (apply ask_value_anchored; [by right|done]).
  split.
  - apply set_state_value_anchored; [congruence|done].
  - intros Hend.
    destruct (ask_value_entering self nstate _ Hnm Hend Ha1) as (v & Hv & He).
    exists v. split; [|done].
    rewrite set_state_value_values_ne; [done|]. by apply ends_game_ne.
Qed.

Lemma agent_by_mark_mark (agents : list (TDAgent V)) (m : Mark)
    (agent : TDAgent V) :
  agent_by_mark mark agents m = Some agent -> mark agent = m.
Proof.
  unfold agent_by_mark. intros Hf. apply List.find_some in Hf as [_ Hb].
  by apply bool_decide_eq_true in Hb.
Qed.

Lemma learn_turn_anchored (agents : list (TDAgent V)) (state : State)
    (w : World) :
  sync (w_env w) state -> ends_game state = false ->
  terminal_anchored (w_store w) ->
  terminal_anchored (w_store (learn_turn agents state state.2 w).2)
  /\ forall nstate reward done,
       (learn_turn agents state state.2 w).1 = Ok (nstate, reward, done) ->
       (done = true ->
        ends_game nstate = true
        /\ exists v,
             st_values (w_store (learn_turn agents state state.2 w).2) !! nstate
             = Some v
             /\ num_eqb v reward = true)
       /\ (done = false ->
           sync (w_env (learn_turn agents state state.2 w).2) nstate
           /\ ends_game nstate = false).
Proof.
  intros Hsync Hopen Hs. unfold learn_turn.
  destruct (agent_by_mark mark agents state.2) as [agent|] eqn:Ea;
    [|by split].
  apply agent_by_mark_mark in Ea.
  pose proof (act_anchored agent state (env_available_actions (w_env w))
                (w_store w) (w_rng w) Ea Hs) as Hact.
  destruct (act agent state (env_available_actions (w_env w)) (w_store w)
              (w_rng w)) as [[[action|e] s1] g1]; cbn [fst snd] in Hact;
    [|by split].
  pose proof (contract_step sync contract action (w_env w) state Hsync)
    as Hstep.
  destruct (env_step action (w_env w)) as [[[nstate reward] done] env1].
  cbv zeta in Hstep. cbn [fst snd] in Hstep.
  destruct Hstep as (Hn & Hdone & Hrew & Hnext).
  destruct (backup_anchored agent state nstate reward s1 Hopen Hn Ea Hact)
    as [Hb Hbn].
  cbn [fst snd w_store w_env].
  assert (Hentering : reward = num_of_Z (entering_reward nstate)).
  { rewrite Hrew. unfold entering_reward. by rewrite Hn, next_mark_twice. }
  split.
  - destruct done; [|done].
    apply set_state_value_anchored; [congruence|done].
  - intros nstate' reward' done' [= <- <- <-]. split.
    + intros ->. split; [done|].
      destruct (Hbn (eq_sym Hdone)) as (v & Hv & He).
      exists v. split; [|by rewrite Hentering].
      rewrite set_state_value_values_ne; [done|].
      by apply ends_game_ne.
    + intros ->. split; [by apply Hnext|done].
Qed.

Lemma learn_loop_anchored (fuel : nat) (agents : list (TDAgent V))
    (state : State) (w w' : World) (r : result (State * V)) :
  sync (w_env w) state -> ends_game state = false ->
  terminal_anchored (w_store w) ->
  learn_loop fuel agents state state.2 w = Some (r, w') ->
  terminal_anchored (w_store w')
  /\ forall T reward,
       r = Ok (T, reward) ->
       ends_game T = true
       /\ exists v, st_values (w_store w') !! T = Some v
                    /\ num_eqb v reward = true.
Proof.
  revert state w. induction fuel as [|fuel IH]; intros state w; [done|].
  intros Hsync Hopen Hs. cbn [learn_loop].
  destruct (learn_turn_anchored agents state w Hsync Hopen Hs) as [Ha Hres].
  destruct (learn_turn agents state state.2 w)
    as [[[[nstate reward] done]|e] w1]; cbn [fst snd] in *.
  - destruct (Hres nstate reward done eq_refl) as [Hend Hgo].
    destruct done.
    + intros [= <- <-]. split; [done|].
      intros T reward' [= <- <-]. by apply Hend.
    + destruct (Hgo eq_refl) as [Hsync' Hopen']. by apply IH.
  - intros [= <- <-]. by split.
Qed.

Lemma learn_episode_anchored (fuel : nat) (max_episode i : Z)
    (agents agents' : list (TDAgent V)) (start : Mark) (w w' : World)
    (r : result (State * V)) :
  terminal_anchored (w_store w) ->
  learn_episode fuel max_episode i agents start w = Some (r, agents', w') ->
  terminal_anchored (w_store w')
  /\ forall terminal reward,
       r = Ok (terminal, reward) ->
       ends_game terminal = true
       /\ exists v,
            st_values (w_store w') !! terminal = Some v
            /\ num_eqb v reward = true.
Proof.
  intros Hs. unfold learn_episode.
  pose proof (contract_reset sync contract start (w_env w)) as Hreset.
  destruct (env_reset (env_set_start_mark start (w_env w))) as [state env2].
  cbv zeta in Hreset. cbn [fst snd] in Hreset. destruct Hreset as [Hsync Hopen].
  destruct (learn_loop fuel _ state state.2 _) as [[r1 w1]|] eqn:E; [|done].
  intros [= <- <- <-].
  by apply (learn_loop_anchored _ _ _ (mkWorld (w_store w) (w_rng w) env2)
              _ _ Hsync Hopen Hs E).
Qed.


Lemma learn_episodes_anchored (fuel : nat) (max_episode : Z) (n : nat) (i : Z)
    (agents : list (TDAgent V)) (start : Mark) (w w' : World)
    (r : result unit) :
  terminal_anchored (w_store w) ->
  learn_episodes fuel max_episode n i agents start w = Some (r, w') ->
  terminal_anchored (w_store w').
Proof.
  revert i agents start w. induction n as [|n IH]; intros i agents start w Hs.
  - cbn [learn_episodes]. by intros [= <- <-].
  - cbn [learn_episodes].
    destruct (learn_episode fuel max_episode i agents start w)
      as [[[[x|e] agents1] w1]|] eqn:E; [| |done].
    + destruct (learn_episode_anchored _ _ _ _ _ _ _ _ _ Hs E) as [Hs1 _].
      by apply IH.
    + destruct (learn_episode_anchored _ _ _ _ _ _ _ _ _ Hs E) as [Hs1 _].
      by intros [= <- <-].
Qed.

Lemma bench_loop_anchored (fuel : nat) (agents : list Agent) (state : State)
    (w w' : World) (r : result V) :
  terminal_anchored (w_store w) ->
  bench_loop fuel agents state state.2 w = Some (r, w') ->
  terminal_anchored (w_store w').
Proof.
  revert state w. induction fuel as [|fuel IH]; intros state w Hs; [done|].
  cbn [bench_loop].
  destruct (agent_by_mark agent_mark agents state.2) as [agent|] eqn:Ea.
  2:{ by intros [= <- <-]. }
  assert (Hact : terminal_anchored
                   (agent_act agent state (env_available_actions (w_env w))
                      (w_store w) (w_rng w)).1.2).
  { destruct agent as [bm|a]; cbn [agent_act].
    - by destruct (base_act bm state _ (w_rng w)).
    - apply act_anchored; [|done].
      unfold agent_by_mark in Ea. apply List.find_some in Ea as [_ Hb].
      by apply bool_decide_eq_true in Hb. }
  destruct (agent_act agent state (env_available_actions (w_env w))
              (w_store w) (w_rng w)) as [[[action|e] s1] g1];
    cbn [fst snd] in Hact.
  2:{ by intros [= <- <-]. }
  destruct (env_step action (w_env w)) as [[[state1 reward] [|]] env1].
  - by intros [= <- <-].
  - by apply IH.
Qed.

Lemma bench_episodes_anchored (fuel n : nat) (agents : list Agent)
    (start : Mark) (results : list V) (w w' : World) (r : result (list V)) :
  terminal_anchored (w_store w) ->
  bench_episodes fuel n agents start results w = Some (r, w') ->
  terminal_anchored (w_store w').
Proof.
  revert start results w. induction n as [|n IH]; intros start results w Hs.
  - cbn [bench_episodes]. by intros [= <- <-].
  - cbn [bench_episodes].
    destruct (env_reset (env_set_start_mark start (w_env w))) as [state env2].
    destruct (bench_loop fuel agents state state.2 _) as [[[reward|e] w1]|] eqn:E;
      [| |done].
    + apply bench_loop_anchored in E; [|done]. by apply IH.
    + apply bench_loop_anchored in E; [|done]. by intros [= <- <-].
Qed.
End Contract.
End Anchor.

(** The tables stay anchored through [_learn], the model file and
    [_bench]: through all that a process does with them. *)
Section AnchorFile.
Context `{JsonLib Q} `{GameEnv} `{Random Q} `{EnvObject Q} `{!BaseAgent Q}.

Variable sync : Env -> State -> Prop.
Hypothesis contract : EnvContract sync.

Lemma _learn_anchored (fuel : nat) (max_episode : Z) (eps al : Q)
    (w w' : World) (r : result text) :
  terminal_anchored (w_store w) ->
  _learn fuel max_episode eps al w = Some (r, w') ->
  terminal_anchored (w_store w').
Proof.
  intros Hs. unfold _learn, learn_run.
  destruct (learn_episodes fuel max_episode _ 0 _ MarkO w) as [[[[]|e] w1]|] eqn:E;
    [| |done].
  - apply (learn_episodes_anchored sync contract) in E; [|done].
    destruct (save_model_text max_episode eps al (w_store w1)) as (_ & Hv & _).
    destruct (save_model max_episode eps al (w_store w1)) as [file s1].
    cbn [snd] in Hv. intros [= <- <-]. cbn [w_store].
    intros st v. rewrite Hv. apply E.
  - apply (learn_episodes_anchored sync contract) in E; [|done].
    by intros [= <- <-].
Qed.

Lemma Q_round3_anchored (v : Q) (z : Z) :
  Qeq_bool v (inject_Z z) = true -> Qeq_bool (Q_round3 v) (inject_Z z) = true.
Proof.
  intros Hv. apply Qeq_bool_iff in Hv.
  assert (Hm : (v == z * 1000 # 1000)%Q).
  { rewrite Hv. unfold Qeq, inject_Z. cbn [Qnum Qden]. lia. }
  rewrite (Q_round3_exact v (z * 1000) Hm).
  apply Qeq_bool_iff. unfold Qeq, inject_Z. cbn [Qnum Qden]. lia.
Qed.

Lemma load_saved_anchored (max_episode : Z) (eps al : Q) (s s0 : Store Q) :
  let info := mkInfo (lit "td") max_episode eps al in
  newline ∉ json_dumps info ->
  json_loads (json_dumps info ++ [newline]) = Returns info ->
  terminal_anchored s -> terminal_anchored s0 ->
  terminal_anchored (load_model (save_model max_episode eps al s).1 s0).2.
Proof.
  intros info Hnl Hjson Hs Hs0.
  rewrite (save_load_store max_episode eps al s s0 Hnl Hjson). cbn [snd].
  intros st v Hv Hend.
  destruct (load_entries_lookup s s0 st) as [E _]. rewrite E in Hv.
  destruct (st_values s !! st) as [v0|] eqn:E0.
  - injection Hv as <-. apply Q_round3_anchored. by apply (Hs st).
  - by apply (Hs0 st).
Qed.

Lemma learnbench_anchored (CWD : text) (fuel : nat)
    (max_episode max_bench_episode : Z) (eps al : Q) (model_file : text)
    (show : bool) (env_bench : Env) (w w' : World)
    (r : outcome (BenchResult Q)) (out : list text) :
  let info := mkInfo (lit "td") max_episode eps al in
  newline ∉ json_dumps info ->
  json_loads (json_dumps info ++ [newline]) = Returns info ->
  terminal_anchored (w_store w) ->
  _learnbench CWD fuel max_episode max_bench_episode eps al model_file show
              env_bench w
  = Some (r, out, w') ->
  terminal_anchored (w_store w').
Proof.
  intros info Hnl Hjson Hs. unfold _learnbench.
  destruct (_learn fuel max_episode eps al w) as [[[file|e] w1]|] eqn:El;
    [| |done].
  2:{ apply _learn_anchored in El; [|done]. by intros [= <- <- <-]. }
  pose proof (_learn_anchored _ _ _ _ _ _ _ Hs El) as Hs1.
  assert (Hfile : exists sr,
             file = (save_model max_episode eps al sr).1
             /\ st_values (w_store w1) = st_values sr).
  { unfold _learn in El.
    destruct (learn_run fuel max_episode eps al w) as [[[[]|e] wr]|]; [|done..].
    exists (w_store wr).
    destruct (save_model_text max_episode eps al (w_store wr)) as (_ & Hv & _).
    destruct (save_model max_episode eps al (w_store wr)) as [f s1].
    injection El as <- <-. by cbn [fst snd w_store] in *. }
  destruct Hfile as (sr & -> & Hv).
  assert (Hsr : terminal_anchored sr).
  { intros st v. rewrite <- Hv. apply Hs1. }
  pose proof (load_saved_anchored max_episode eps al sr (w_store w1) Hnl Hjson
                Hsr Hs1) as Hl.
  unfold _bench. cbn [w_store w_rng w_env].
  destruct (load_model (save_model max_episode eps al sr).1 (w_store w1))
    as [[minfo| |] s2]; cbn [snd] in Hl; [|by intros [= <- <- <-]..].
  destruct (bench_episodes _ _ _ _ _ _) as [[r2 w3]|] eqn:Eb; [|done].
  apply (bench_episodes_anchored sync contract) in Eb; [|done].
  destruct r2; by intros [= <- <- <-].
Qed.
End AnchorFile.

Section AnchorEvaluation.
#[local] Existing Instance TicTacToe.game.
#[local] Existing Instance TicTacToe.random.
#[local] Existing Instance TicTacToe.env_object.
#[local] Existing Instance TicTacToe.base_agent.
#[local] Existing Instance SimpleJson.json.

(** The environment of the game keeps the contract. *)
Lemma game_contract : EnvContract game_sync.
Proof.
  split.
  - by intros [board m] action.
  - intros m env. cbv zeta. split; [done|]. by vm_compute.
  - intros action env [board m] (Hb & Hm & Hd). cbv zeta.
    cbn [env_step TicTacToe.env_object]. unfold TicTacToe.step.
    rewrite Hd. cbn [fst snd] in *. subst m.
    split; [done|]. split; [done|]. split.
    + destruct (0 <? _)%Z; [|done]. by destruct (TicTacToe.env_mark env).
    + intros Hdone. by repeat split.
Qed.

End AnchorEvaluation.
